(** * httpexpect: the request builder of request.go

    A shallow embedding of [Request] (request.go) and of the library
    functions it is written against, followed by the properties of the
    request-encoding pipeline and of its sticky failure chain.

    Conventions.
    - A Go [string] or [[]byte] is a Rocq [string] (a sequence of bytes).
    - A Go [map[string][]string] ([url.Values], [http.Header]) is a
      [gmap string (list string)]; a nil map is [None] where the source
      tests for it.
    - A function that can panic returns a [result].
    - [r.chain.fail(...)] and the other in-place updates of the receiver
      are explicit state passing: every method takes the [Request] and
      returns the updated one. *)

From Stdlib Require Import ZArith DecimalString Ascii String.
From stdpp Require Import strings gmap sorting list.

Local Open Scope Z_scope.

(** ** Strings *)

Module Str.

(** The quotation mark, the line feed, the carriage return and the
    backslash. *)
Definition dq : string := String "034"%char EmptyString.
Definition nl : string := String "010"%char EmptyString.
Definition cr : string := String "013"%char EmptyString.
Definition crlf : string := cr +:+ nl.
Definition bs : string := String "092"%char EmptyString.

Definition len (s : string) : Z := Z.of_nat (String.length s).

Definition is_empty (s : string) : bool :=
  match s with EmptyString => true | String _ _ => false end.

(** [strings.Contains s sub]. *)
Fixpoint contains (sub s : string) : bool :=
  if String.prefix sub s then true
  else match s with
       | EmptyString => false
       | String _ s' => contains sub s'
       end.

(** [strings.Join]. *)
Fixpoint join (sep : string) (l : list string) : string :=
  match l with
  | [] => EmptyString
  | [x] => x
  | x :: l' => x +:+ sep +:+ join sep l'
  end.

(** [strings.TrimSuffix s "/"] and [strings.TrimPrefix s "/"]. *)
Fixpoint trim_suffix_slash (s : string) : string :=
  match s with
  | EmptyString => EmptyString
  | String c EmptyString => if Ascii.eqb c "/" then EmptyString else s
  | String c s' => String c (trim_suffix_slash s')
  end.

Definition trim_prefix_slash (s : string) : string :=
  match s with
  | String c s' => if Ascii.eqb c "/" then s' else s
  | EmptyString => EmptyString
  end.

(** A message names a label when the label occurs in it. *)
Definition occurs_in (label msg : string) : Prop :=
  ∃ pre post, msg = pre +:+ label +:+ post.

End Str.

(** ** fmt *)

Module Fmt.
Import Str.

(** The values passed as [interface{}]: the nil interface and the
    basic kinds the examples of request.go use. *)
Inductive value :=
| VNil
| VString (s : string)
| VInt (n : Z)
| VBool (b : bool).

Definition is_nil (v : value) : bool :=
  match v with VNil => true | _ => false end.

Definition itoa (n : Z) : string := NilZero.string_of_int (Z.to_int n).

(** [fmt.Sprint(v)], which is also the [%v] verb. *)
Definition Sprint (v : value) : string :=
  match v with
  | VNil => "<nil>"
  | VString s => s
  | VInt n => itoa n
  | VBool true => "true"
  | VBool false => "false"
  end.

(** [%v] of a [[]interface{}]. *)
Definition Sprint_slice (vs : list value) : string :=
  "[" +:+ join " " (map Sprint vs) +:+ "]".

Definition hex_digit (n : N) : ascii :=
  ascii_of_N (if (n <? 10)%N then 48 + n else 87 + n).

(** One byte of [strconv.Quote]. Bytes from 128 up are kept: the
    quoted strings are valid printable UTF-8 text. *)
Definition quote_byte (c : ascii) : string :=
  let n := N_of_ascii c in
  if (n =? 34)%N then bs +:+ dq
  else if (n =? 92)%N then bs +:+ bs
  else if (n =? 7)%N then bs +:+ "a"
  else if (n =? 8)%N then bs +:+ "b"
  else if (n =? 12)%N then bs +:+ "f"
  else if (n =? 10)%N then bs +:+ "n"
  else if (n =? 13)%N then bs +:+ "r"
  else if (n =? 9)%N then bs +:+ "t"
  else if (n =? 11)%N then bs +:+ "v"
  else if ((n <? 32) || (n =? 127))%N
       then bs +:+ "x" +:+ String (hex_digit (n / 16))
                             (String (hex_digit (n mod 16)) EmptyString)
  else String c EmptyString.

Fixpoint quote_body (s : string) : string :=
  match s with
  | EmptyString => EmptyString
  | String c s' => quote_byte c +:+ quote_body s'
  end.

(** The [%q] verb on a string. *)
Definition quote (s : string) : string := dq +:+ quote_body s +:+ dq.

End Fmt.

(** ** The sticky failure chain *)

(** The type [chain] with [makeChain], [failed] and [fail] is used by
    request.go and declared outside it. *)
Module Chain.
(** Modelled from the spec: the struct [chain]. It holds a failed flag
    and the first failure's formatted message, the one that is handed
    to the reporter. *)
Record t := mk { failbit : bool; message : option string }.

(** Modelled from the spec: [chain.failed], the failed flag. *)
Definition failed (c : t) : bool := failbit c.

(** Modelled from the spec: [chain.fail]. The first recorded failure is
    the one that is surfaced; once failed, the chain accepts no further
    message. [msg] is the format with its arguments filled in. *)
Definition fail (msg : string) (c : t) : t :=
  if failbit c then c else mk true (Some msg).
End Chain.

(** Modelled from the spec: [makeChain], the chain a request is created
    with, not failed. The reporter it is given is behind [message]. *)
Definition makeChain : Chain.t := Chain.mk false None.

(** ** Results of functions that can panic *)

Inductive result (A : Type) :=
| Ok (a : A)
| Panic (why : string).
Arguments Ok {A} a.
Arguments Panic {A} why.

#[global] Instance result_ret : MRet result := λ A a, Ok a.
#[global] Instance result_bind : MBind result := λ A B f x,
  match x with
  | Ok a => f a
  | Panic why => Panic why
  end.

(** ** net/url *)

Module Url.
Import Str.

(** [url.Values]. *)
Abbreviation Values := (gmap string (list string)).

Definition get_all (m : Values) (k : string) : list string :=
  default [] (m !! k).

(** [v.Add(key, value)]: [v[key] = append(v[key], value)]. *)
Definition Add (k v : string) (m : Values) : Values :=
  <[k := get_all m k ++ [v]]> m.

(** [for k, v := range q { m[k] = append(m[k], v...) }]: the keys of a
    map are distinct, so the loop is independent of the iteration
    order. *)
Definition append_all (m q : Values) : Values :=
  union_with (λ old new, Some (old ++ new)) m q.

(** The bytes [shouldEscape] leaves alone in a query component. *)
Definition unreserved (c : ascii) : bool :=
  let n := N_of_ascii c in
  ((48 <=? n) && (n <=? 57) || (65 <=? n) && (n <=? 90)
   || (97 <=? n) && (n <=? 122)
   || (n =? 45) || (n =? 95) || (n =? 46) || (n =? 126))%N.

Definition upper_hex (n : N) : ascii :=
  ascii_of_N (if (n <? 10)%N then 48 + n else 55 + n).

(** [url.QueryEscape]. *)
Fixpoint QueryEscape (s : string) : string :=
  match s with
  | EmptyString => EmptyString
  | String c s' =>
      let n := N_of_ascii c in
      if unreserved c then String c (QueryEscape s')
      else if (n =? 32)%N then String "+" (QueryEscape s')
      else String "%" (String (upper_hex (n / 16))
                         (String (upper_hex (n mod 16)) (QueryEscape s')))
  end.

Definition unhex (c : ascii) : option N :=
  let n := N_of_ascii c in
  if ((48 <=? n) && (n <=? 57))%N then Some (n - 48)%N
  else if ((97 <=? n) && (n <=? 102))%N then Some (n - 87)%N
  else if ((65 <=? n) && (n <=? 70))%N then Some (n - 55)%N
  else None.

Definition firstn_string (n : nat) (s : string) : string :=
  String.substring 0 n s.

(** [url.QueryUnescape]: the text, or the offending escape. *)
Fixpoint QueryUnescape (s : string) : string + string :=
  match s with
  | EmptyString => inl EmptyString
  | String c s' =>
      if Ascii.eqb c "%" then
        match s' with
        | String h (String l s'') =>
            match unhex h, unhex l with
            | Some a, Some b =>
                match QueryUnescape s'' with
                | inl t => inl (String (ascii_of_N (16 * a + b)) t)
                | inr e => inr e
                end
            | _, _ => inr (firstn_string 3 s)
            end
        | _ => inr (firstn_string 3 s)
        end
      else
        match QueryUnescape s' with
        | inl t => inl (String (if Ascii.eqb c "+" then " "%char else c) t)
        | inr e => inr e
        end
  end.

Definition escape_error (e : string) : string :=
  "invalid URL escape " +:+ Fmt.quote e.

(** [strings.Cut s sep] for a one-byte separator. *)
Fixpoint cut (sep : ascii) (s : string) : string * string :=
  match s with
  | EmptyString => (EmptyString, EmptyString)
  | String c s' =>
      if Ascii.eqb c sep then (EmptyString, s')
      else let '(a, b) := cut sep s' in (String c a, b)
  end.

(** The pieces of [s] between the separators [sep]. *)
Fixpoint split (sep : ascii) (s : string) : list string :=
  match s with
  | EmptyString => [EmptyString]
  | String c s' =>
      if Ascii.eqb c sep then EmptyString :: split sep s'
      else match split sep s' with
           | p :: ps => String c p :: ps
           | [] => [String c EmptyString]
           end
  end.

(** One round of the loop of [parseQuery], on the piece [key]. A piece
    holding a semicolon is an error (Go 1.17 and later). *)
Definition parse_piece (key : string) (st : Values * option string)
  : Values * option string :=
  let '(m, err) := st in
  if contains ";" key then (m, Some "invalid semicolon separator in query")
  else if is_empty key then (m, err)
  else
    let '(k, v) := cut "=" key in
    match QueryUnescape k with
    | inr e => (m, if err is None then Some (escape_error e) else err)
    | inl k' =>
        match QueryUnescape v with
        | inr e => (m, if err is None then Some (escape_error e) else err)
        | inl v' => (Add k' v' m, err)
        end
    end.

(** [url.ParseQuery]: the values parsed and the first error met. The
    pieces are taken left to right. *)
Definition ParseQuery (query : string) : Values * option string :=
  fold_left (λ st key, parse_piece key st) (split "&" query) (∅, None).

(** [sort.Strings] orders by bytes, as [String.le] does. *)
Definition sorted_keys (m : Values) : list string :=
  merge_sort String.le (map fst (map_to_list m)).

Definition encode_key (m : Values) (k : string) : list string :=
  map (λ v, QueryEscape k +:+ "=" +:+ QueryEscape v) (get_all m k).

(** [v.Encode()]. *)
Definition Encode (m : Values) : string :=
  join "&" (concat (map (encode_key m) (sorted_keys m))).

End Url.

(** ** net/http *)

Module Http.
Import Str.

(** [http.Header]. *)
Abbreviation Header := (gmap string (list string)).

(** [validHeaderFieldByte]: the token characters of RFC 7230. *)
Definition valid_field_byte (c : ascii) : bool :=
  let n := N_of_ascii c in
  ((48 <=? n) && (n <=? 57) || (65 <=? n) && (n <=? 90)
   || (97 <=? n) && (n <=? 122)
   || (n =? 33) || (35 <=? n) && (n <=? 39) || (n =? 42) || (n =? 43)
   || (n =? 45) || (n =? 46) || (n =? 94) || (n =? 95) || (n =? 96)
   || (n =? 124) || (n =? 126))%N.

Fixpoint all_valid (s : string) : bool :=
  match s with
  | EmptyString => true
  | String c s' => valid_field_byte c && all_valid s'
  end.

Definition to_upper (c : ascii) : ascii :=
  let n := N_of_ascii c in
  if ((97 <=? n) && (n <=? 122))%N then ascii_of_N (n - 32) else c.

Definition to_lower (c : ascii) : ascii :=
  let n := N_of_ascii c in
  if ((65 <=? n) && (n <=? 90))%N then ascii_of_N (n + 32) else c.

Fixpoint canon (upper : bool) (s : string) : string :=
  match s with
  | EmptyString => EmptyString
  | String c s' =>
      let c' := if upper then to_upper c else to_lower c in
      String c' (canon (Ascii.eqb c' "-") s')
  end.

(** [http.CanonicalHeaderKey]: a key that is not a token is returned
    as it is. *)
Definition CanonicalHeaderKey (k : string) : string :=
  if all_valid k then canon true k else k.

(** [h.Get(key)]. *)
Definition Get (h : Header) (k : string) : string :=
  match h !! CanonicalHeaderKey k with
  | Some (v :: _) => v
  | _ => EmptyString
  end.

(** [h.Add(key, value)]. *)
Definition Add (k v : string) (h : Header) : Header :=
  let key := CanonicalHeaderKey k in
  <[key := default [] (h !! key) ++ [v]]> h.

(** [h.Set(key, value)]. *)
Definition Set_ (k v : string) (h : Header) : Header :=
  <[CanonicalHeaderKey k := [v]]> h.

(** [url.URL], the fields request.go reads and writes. *)
Record URL := mkURL {
  Scheme : string;
  UHost : string;
  Path : string;
  RawQuery : string }.

(** What a body reader is made from. [FormBuf] is the request's own
    [formbuf]: the reader and the multipart writer share that buffer,
    so the bytes it yields are the buffer's at the time it is read. *)
Inductive Reader :=
| BytesReader (b : string)
| StringsReader (s : string)
| FormBuf
| UserReader (id : nat).

(** [http.Request], the fields request.go reads and writes. *)
Record Request := mkRequest {
  Method : string;
  url : URL;
  ProtoMajor : Z;
  ProtoMinor : Z;
  header : Header;
  Body : option Reader;
  ContentLength : Z;
  Host : string }.

(** [r.ProtoAtLeast(major, minor)]. *)
Definition ProtoAtLeast (r : Request) (major minor : Z) : bool :=
  (ProtoMajor r >? major) || ((ProtoMajor r =? major) && (ProtoMinor r >=? minor)).

Definition set_url (u : URL) (r : Request) : Request :=
  mkRequest (Method r) u (ProtoMajor r) (ProtoMinor r) (header r)
    (Body r) (ContentLength r) (Host r).

Definition set_proto (major minor : Z) (r : Request) : Request :=
  mkRequest (Method r) (url r) major minor (header r)
    (Body r) (ContentLength r) (Host r).

Definition set_header (h : Header) (r : Request) : Request :=
  mkRequest (Method r) (url r) (ProtoMajor r) (ProtoMinor r) h
    (Body r) (ContentLength r) (Host r).

Definition set_body (b : option Reader) (n : Z) (r : Request) : Request :=
  mkRequest (Method r) (url r) (ProtoMajor r) (ProtoMinor r) (header r)
    b n (Host r).

Definition set_host (h : string) (r : Request) : Request :=
  mkRequest (Method r) (url r) (ProtoMajor r) (ProtoMinor r) (header r)
    (Body r) (ContentLength r) h.

Definition set_path (p : string) (u : URL) : URL :=
  mkURL (Scheme u) (UHost u) p (RawQuery u).

Definition set_rawquery (q : string) (u : URL) : URL :=
  mkURL (Scheme u) (UHost u) (Path u) q.

Definition set_scheme (s : string) (u : URL) : URL :=
  mkURL s (UHost u) (Path u) (RawQuery u).

(** [http.Response], as far as it is inspected here. *)
Record Response := mkResponse {
  StatusCode : Z;
  RespHeader : Header;
  RespBody : string }.

End Http.

(** ** mime/multipart *)

Module Multipart.
Import Str.

(** [multipart.Writer] bound to the request's [formbuf]. [lastpart]
    is whether a part is open. [closes] is a ghost counter of the calls
    to [Close]; the writer of Go does not keep one. The writer is
    bound to a [bytes.Buffer], whose [Write] returns no error, so the
    functions below return none either. *)
Record Writer := mkWriter {
  boundary : string;
  lastpart : bool;
  closes : nat }.

(** [multipart.NewWriter]: Go draws the boundary at random; here it is
    an argument. *)
Definition NewWriter (b : string) : Writer := mkWriter b false 0.

Fixpoint escapeQuotes (s : string) : string :=
  match s with
  | EmptyString => EmptyString
  | String c s' =>
      let n := N_of_ascii c in
      if ((n =? 92) || (n =? 34))%N then String "092" (String c (escapeQuotes s'))
      else String c (escapeQuotes s')
  end.

Definition header_line (kv : string * string) : string :=
  kv.1 +:+ ": " +:+ kv.2 +:+ crlf.

(** [w.CreatePart(header)]: the header lines come sorted by key. *)
Definition CreatePart (lines : list (string * string)) (w : Writer) (buf : string)
  : Writer * string :=
  let delim := if lastpart w then crlf +:+ "--" +:+ boundary w +:+ crlf
               else "--" +:+ boundary w +:+ crlf in
  (mkWriter (boundary w) true (closes w),
   buf +:+ delim +:+ String.concat EmptyString (map header_line lines) +:+ crlf).

Definition CreateFormField (fieldname : string) :=
  CreatePart [("Content-Disposition",
               "form-data; name=" +:+ dq +:+ escapeQuotes fieldname +:+ dq)].

Definition CreateFormFile (fieldname filename : string) :=
  CreatePart [("Content-Disposition",
               "form-data; name=" +:+ dq +:+ escapeQuotes fieldname +:+ dq
               +:+ "; filename=" +:+ dq +:+ escapeQuotes filename +:+ dq);
              ("Content-Type", "application/octet-stream")].

(** [w.WriteField(fieldname, value)]. *)
Definition WriteField (fieldname value : string) (w : Writer) (buf : string)
  : Writer * string :=
  let '(w', buf') := CreateFormField fieldname w buf in
  (w', buf' +:+ value).

(** [w.Close()]. *)
Definition Close (w : Writer) (buf : string) : Writer * string :=
  (mkWriter (boundary w) false (S (closes w)),
   buf +:+ crlf +:+ "--" +:+ boundary w +:+ "--" +:+ crlf).

Definition tspecial (c : ascii) : bool :=
  let n := N_of_ascii c in
  ((n =? 40) || (n =? 41) || (n =? 60) || (n =? 62) || (n =? 64)
   || (n =? 44) || (n =? 59) || (n =? 58) || (n =? 92) || (n =? 34)
   || (n =? 47) || (n =? 91) || (n =? 93) || (n =? 63) || (n =? 61)
   || (n =? 32))%N.

Fixpoint has_tspecial (s : string) : bool :=
  match s with
  | EmptyString => false
  | String c s' => tspecial c || has_tspecial s'
  end.

(** [w.FormDataContentType()]. *)
Definition FormDataContentType (w : Writer) : string :=
  let b := boundary w in
  "multipart/form-data; boundary="
    +:+ (if has_tspecial b then dq +:+ b +:+ dq else b).

End Multipart.

(** ** github.com/imkira/go-interpol *)

Module Interpol.

Definition ErrUnexpectedClose : string := "interpol: unexpected close in template".
Definition ErrExpectingClose : string := "interpol: expecting close in template".

Section Scanner.
(** The variables a callback captures, and the callback: from the
    key and the captured state to the new state and the text it
    writes. The two callbacks of request.go return no error. *)
Context {U : Type}.
Variable format : string → U → U * string.

(** The interpolator: [start] is whether a placeholder is open,
    [closing] whether a closing brace waits for its double, [rb]
    the key read so far. *)
Record state := mkState {
  start : bool;
  closing : bool;
  rb : string;
  out : string;
  user : U }.

Definition one (c : ascii) : string := String c EmptyString.

(** [Interpolate]: [open], [close] and [append] by the kind of the
    character, then [finish]. *)
Fixpoint scan (t : string) (σ : state) : U * (string + string) :=
  match t with
  | EmptyString =>
      if start σ then (user σ, inr ErrExpectingClose)
      else if closing σ then (user σ, inr ErrUnexpectedClose)
      else (user σ, inl (out σ))
  | String c t' =>
      if Ascii.eqb c "{" then
        if closing σ then (user σ, inr ErrUnexpectedClose)
        else if start σ
             then scan t' (mkState false false (rb σ) (out σ +:+ "{") (user σ))
             else scan t' (mkState true false (rb σ) (out σ) (user σ))
      else if Ascii.eqb c "}" then
        if start σ then
          let '(u, w) := format (rb σ) (user σ) in
          scan t' (mkState false (closing σ) EmptyString (out σ +:+ w) u)
        else if closing σ
             then scan t' (mkState false false (rb σ) (out σ +:+ "}") (user σ))
             else scan t' (mkState false true (rb σ) (out σ) (user σ))
      else
        if closing σ then (user σ, inr ErrUnexpectedClose)
        else if start σ
             then scan t' (mkState true false (rb σ +:+ one c) (out σ) (user σ))
             else scan t' (mkState false false (rb σ) (out σ +:+ one c) (user σ))
  end.

(** [interpol.WithFunc(template, format)]: the text, or the error;
    with the captured variables as the callback left them. *)
Definition WithFunc (template : string) (s0 : U) : U * (string + string) :=
  scan template (mkState false false EmptyString EmptyString s0).
End Scanner.

End Interpol.

(** ** encoding/base64 and the cookie sanitizers of net/http *)

Module Enc.
Import Str.

Definition b64_char (n : N) : ascii :=
  ascii_of_N (if n <? 26 then 65 + n else if n <? 52 then 71 + n
              else if n <? 62 then n - 4 else if n =? 62 then 43 else 47)%N.

(** [base64.StdEncoding.EncodeToString]. *)
Fixpoint base64 (s : string) : string :=
  match s with
  | EmptyString => EmptyString
  | String a EmptyString =>
      let x := N_of_ascii a in
      String (b64_char (x / 4)) (String (b64_char ((x mod 4) * 16)) "==")
  | String a (String b EmptyString) =>
      let x := N_of_ascii a in
      let y := N_of_ascii b in
      String (b64_char (x / 4))
        (String (b64_char ((x mod 4) * 16 + y / 16))
           (String (b64_char ((y mod 16) * 4)) "="))
  | String a (String b (String c s')) =>
      let x := N_of_ascii a in
      let y := N_of_ascii b in
      let z := N_of_ascii c in
      String (b64_char (x / 4))
        (String (b64_char ((x mod 4) * 16 + y / 16))
           (String (b64_char ((y mod 16) * 4 + z / 64))
              (String (b64_char (z mod 64)) (base64 s'))))
  end%N.

(** [sanitizeCookieName]: line breaks become dashes. *)
Fixpoint sanitizeCookieName (s : string) : string :=
  match s with
  | EmptyString => EmptyString
  | String c s' =>
      let n := N_of_ascii c in
      String (if ((n =? 10) || (n =? 13))%N then "-"%char else c)
        (sanitizeCookieName s')
  end.

Definition validCookieValueByte (c : ascii) : bool :=
  let n := N_of_ascii c in
  ((32 <=? n) && (n <? 127) && negb (n =? 34) && negb (n =? 59)
   && negb (n =? 92))%N.

Fixpoint keep_valid (s : string) : string :=
  match s with
  | EmptyString => EmptyString
  | String c s' =>
      if validCookieValueByte c then String c (keep_valid s') else keep_valid s'
  end.

(** [sanitizeCookieValue]. *)
Definition sanitizeCookieValue (v : string) : string :=
  let v' := keep_valid v in
  if is_empty v' then v'
  else if contains " " v' || contains "," v' then dq +:+ v' +:+ dq
  else v'.

End Enc.

(** ** The collaborators *)

(** What [Do] and a transport return: a response and an error, either of
    which can be nil. *)
Definition Exchange : Type := Http.Request → option Http.Response * option string.

Inductive Jar := NewJar | UserJar (id : nat).

(** Modelled from the spec: the interface [Client], declared outside
    request.go, a synchronous transport client whose [Do] gives a
    response or an error. It is an [*http.Client], of which the
    transport and the jar matter here, or another implementation. The
    redirect and cookie handling of [http.Client] is left inside the
    transport function. *)
Inductive Client :=
| HTTPClient (Transport : Exchange) (jar : option Jar)
| OtherClient (do : Exchange).

Definition Do (c : Client) : Exchange :=
  match c with
  | HTTPClient t _ => t
  | OtherClient d => d
  end.

(** An [http.Handler], as the function from the request to what it
    answers. *)
Definition Handler : Type := Http.Request → Http.Response.

(** Modelled from the spec: [NewBinder], declared outside request.go,
    the transport that invokes the handler directly. *)
Definition NewBinder (h : Handler) : Exchange := λ req, (Some (h req), None).

Record Conn := mkConn { conn_id : nat }.

(** The error of [Dial]: [websocket.ErrBadHandshake] or any other. *)
Inductive DialError :=
| ErrBadHandshake
| OtherDialError (text : string).

Definition dial_error_text (e : DialError) : string :=
  match e with
  | ErrBadHandshake => "websocket: bad handshake"
  | OtherDialError t => t
  end.

(** Modelled from the spec: the interface [WebsocketDialer], declared
    outside request.go. [Dial(url, header)] gives a connection, a
    response and an error, one of which is the handshake rejection. The URL is passed as the record rather than
    as its text. *)
Record WebsocketDialer := mkDialer {
  Dial : Http.URL → Http.Header → option Conn * option Http.Response * option DialError }.

(** Modelled from the spec: the interface [RequestFactory], declared
    outside request.go: the request it builds and the error it reports.
    When it reports one the chain is failed and no guarded method
    reaches [r.http]; the model keeps a request value then too. *)
Record RequestFactory := mkFactory {
  Factory_NewRequest : string → string → Http.Request * option string }.

(** Modelled from the spec: [Printer], declared outside request.go. A
    printer observes the outgoing request and the result and changes
    nothing; it is known by a number. *)
Definition Printer : Type := nat.

(** A matcher, a callback run on the response; it is known by a
    number. *)
Definition Matcher : Type := nat.

(** Modelled from the spec: the struct [Config], declared outside
    request.go, with the fields request.go uses. The reporter is behind
    the chain. *)
Record Config := mkConfig {
  BaseURL : string;
  cfg_RequestFactory : option RequestFactory;
  cfg_Client : option Client;
  cfg_WebsocketDialer : option WebsocketDialer;
  Printers : list Printer }.

Definition set_Client (c : option Client) (cfg : Config) : Config :=
  mkConfig (BaseURL cfg) (cfg_RequestFactory cfg) c (cfg_WebsocketDialer cfg)
    (Printers cfg).

Definition set_WebsocketDialer (d : option WebsocketDialer) (cfg : Config) : Config :=
  mkConfig (BaseURL cfg) (cfg_RequestFactory cfg) (cfg_Client cfg) d (Printers cfg).

(** What the collaborators are seen to be asked, in order. *)
Inductive event :=
| EvPrinterRequest (p : Printer) (req : Http.Request)
| EvClientDo (req : Http.Request)
| EvDial (u : Http.URL) (h : Http.Header)
| EvPrinterResponse (p : Printer) (resp : Http.Response)
| EvMatcher (m : Matcher).

(** ** Request *)

Import Str Fmt.

(** The struct [Request]. [formbuf] is [None] for the nil pointer and
    otherwise the bytes of the buffer; [multipart] writes into it. *)
Record Request := mkReq {
  config : Config;
  chain : Chain.t;
  http : Http.Request;
  path : string;
  query : option Url.Values;
  form : option Url.Values;
  formbuf : option string;
  multipart : option Multipart.Writer;
  bodySetter : string;
  typeSetter : string;
  forceType : bool;
  wsUpgrade : bool;
  matchers : list Matcher }.

Definition set_config (x : Config) (r : Request) : Request :=
  mkReq x (chain r) (http r) (path r) (query r) (form r) (formbuf r)
    (multipart r) (bodySetter r) (typeSetter r) (forceType r) (wsUpgrade r)
    (matchers r).

Definition set_chain (x : Chain.t) (r : Request) : Request :=
  mkReq (config r) x (http r) (path r) (query r) (form r) (formbuf r)
    (multipart r) (bodySetter r) (typeSetter r) (forceType r) (wsUpgrade r)
    (matchers r).

Definition set_http (x : Http.Request) (r : Request) : Request :=
  mkReq (config r) (chain r) x (path r) (query r) (form r) (formbuf r)
    (multipart r) (bodySetter r) (typeSetter r) (forceType r) (wsUpgrade r)
    (matchers r).

Definition set_path (x : string) (r : Request) : Request :=
  mkReq (config r) (chain r) (http r) x (query r) (form r) (formbuf r)
    (multipart r) (bodySetter r) (typeSetter r) (forceType r) (wsUpgrade r)
    (matchers r).

Definition set_query (x : option Url.Values) (r : Request) : Request :=
  mkReq (config r) (chain r) (http r) (path r) x (form r) (formbuf r)
    (multipart r) (bodySetter r) (typeSetter r) (forceType r) (wsUpgrade r)
    (matchers r).

Definition set_form (x : option Url.Values) (r : Request) : Request :=
  mkReq (config r) (chain r) (http r) (path r) (query r) x (formbuf r)
    (multipart r) (bodySetter r) (typeSetter r) (forceType r) (wsUpgrade r)
    (matchers r).

Definition set_formbuf (x : option string) (r : Request) : Request :=
  mkReq (config r) (chain r) (http r) (path r) (query r) (form r) x
    (multipart r) (bodySetter r) (typeSetter r) (forceType r) (wsUpgrade r)
    (matchers r).

Definition set_multipart (x : option Multipart.Writer) (r : Request) : Request :=
  mkReq (config r) (chain r) (http r) (path r) (query r) (form r) (formbuf r)
    x (bodySetter r) (typeSetter r) (forceType r) (wsUpgrade r)
    (matchers r).

Definition set_bodySetter (x : string) (r : Request) : Request :=
  mkReq (config r) (chain r) (http r) (path r) (query r) (form r) (formbuf r)
    (multipart r) x (typeSetter r) (forceType r) (wsUpgrade r)
    (matchers r).

Definition set_typeSetter (x : string) (r : Request) : Request :=
  mkReq (config r) (chain r) (http r) (path r) (query r) (form r) (formbuf r)
    (multipart r) (bodySetter r) x (forceType r) (wsUpgrade r)
    (matchers r).

Definition set_forceType (x : bool) (r : Request) : Request :=
  mkReq (config r) (chain r) (http r) (path r) (query r) (form r) (formbuf r)
    (multipart r) (bodySetter r) (typeSetter r) x (wsUpgrade r)
    (matchers r).

Definition set_wsUpgrade (x : bool) (r : Request) : Request :=
  mkReq (config r) (chain r) (http r) (path r) (query r) (form r) (formbuf r)
    (multipart r) (bodySetter r) (typeSetter r) (forceType r) x
    (matchers r).

Definition set_matchers (x : list Matcher) (r : Request) : Request :=
  mkReq (config r) (chain r) (http r) (path r) (query r) (form r) (formbuf r)
    (multipart r) (bodySetter r) (typeSetter r) (forceType r) (wsUpgrade r)
    x.

(** [r.chain.fail(msg)]. *)
Definition chain_fail (msg : string) (r : Request) : Request :=
  set_chain (Chain.fail msg (chain r)) r.

(** [r.http.Header = h]. *)
Definition set_header (h : Http.Header) (r : Request) : Request :=
  set_http (Http.set_header h (http r)) r.

Definition header (r : Request) : Http.Header := Http.header (http r).

(** *** The messages *)

Definition ambiguous_type_message (previousType typeSetter newType newSetter : string)
  : string :=
  nl +:+ "ambiguous request " +:+ dq +:+ "Content-Type" +:+ dq
     +:+ " header values:" +:+ nl +:+ " " +:+ quote previousType
     +:+ " (set by " +:+ typeSetter +:+ ")" +:+ nl +:+ nl
     +:+ "and:" +:+ nl +:+ " " +:+ quote newType
     +:+ " (wanted by " +:+ newSetter +:+ ")".

Definition ambiguous_body_message (bodySetter setter : string) : string :=
  nl +:+ "ambiguous request body contents:" +:+ nl +:+ "  set by " +:+ bodySetter
     +:+ nl +:+ "  overwritten by " +:+ setter.

Definition websocket_body_message (bodySetter : string) : string :=
  nl +:+ "webocket request can not have body:" +:+ nl +:+ "  body set by "
     +:+ bodySetter +:+ nl +:+ "  webocket enabled by WithWebsocketUpgrade".

Definition file_requires_multipart_message : string :=
  "WithFile requires WithMultipart to be called first".

Definition nil_pathargs_message (method : string) (pathargs : list value) : string :=
  nl +:+ "unexpected nil argument for url path format string:" +:+ nl
     +:+ " Request(" +:+ dq +:+ method +:+ dq +:+ ", " +:+ Sprint_slice pathargs
     +:+ "...)".

Definition nil_path_value_message (key : string) (v : value) : string :=
  nl +:+ "unexpected nil argument for url path format string:" +:+ nl
     +:+ " WithPath(" +:+ dq +:+ key +:+ dq +:+ ", " +:+ Sprint v +:+ ")".

Definition unexpected_key_message (key : string) (v : value) (path : string) : string :=
  nl +:+ "unexpected key for url path format string:" +:+ nl
     +:+ " WithPath(" +:+ dq +:+ key +:+ dq +:+ ", " +:+ Sprint v +:+ ")"
     +:+ nl +:+ nl +:+ "path:" +:+ nl +:+ " " +:+ quote path.

Definition bad_proto_message (proto : string) : string :=
  nl +:+ "unexpected protocol version " +:+ quote proto +:+ ", expected "
     +:+ dq +:+ "HTTP/{major}.{minor}" +:+ dq.

Definition chunked_proto_message (major minor : Z) : string :=
  "chunked Transfer-Encoding requires at least " +:+ dq +:+ "HTTP/1.1" +:+ dq
     +:+ ",but " +:+ dq +:+ "HTTP/" +:+ itoa major +:+ "." +:+ itoa minor +:+ dq
     +:+ " is enabled".

(** *** setType, setBody, concatPaths *)

Definition setType (newSetter newType : string) (overwrite : bool) (r : Request)
  : Request :=
  if forceType r then r
  else
    let previousType := Http.Get (header r) "Content-Type" in
    if negb overwrite
       && (negb (is_empty previousType) && negb (String.eqb previousType newType))
    then chain_fail
           (ambiguous_type_message previousType (typeSetter r) newType newSetter) r
    else set_header (<["Content-Type" := [newType]]> (header r))
           (set_typeSetter newSetter r).

Definition setBody (setter : string) (reader : option Http.Reader) (len : Z)
    (overwrite : bool) (r : Request) : result Request :=
  if negb overwrite && negb (is_empty (bodySetter r))
  then Ok (chain_fail (ambiguous_body_message (bodySetter r) setter) r)
  else if (len >? 0) && bool_decide (reader = None)
  then Panic "invalid length"
  else
    let h := match reader with
             | None => Http.set_body None 0 (http r)
             | Some rd => Http.set_body (Some rd) len (http r)
             end in
    Ok (set_bodySetter setter (set_http h r)).

Definition concatPaths (a b : string) : string :=
  if is_empty a then b
  else if is_empty b then a
  else trim_suffix_slash a +:+ "/" +:+ trim_prefix_slash b.

(** *** NewRequest *)

Definition new_path_func (method : string) (pathargs : list value)
    (k : string) (st : nat * Chain.t) : (nat * Chain.t) * string :=
  let '(n, ch) := st in
  match pathargs !! n with
  | Some a =>
      if is_nil a
      then ((S n, Chain.fail (nil_pathargs_message method pathargs) ch), EmptyString)
      else ((S n, ch), Sprint a)
  | None => ((S n, ch), "{" +:+ k +:+ "}")
  end.

Definition NewRequest (config : Config) (method path : string)
    (pathargs : list value) : result Request :=
  match cfg_RequestFactory config with
  | None => Panic "config.RequestFactory == nil"
  | Some factory =>
      match cfg_Client config with
      | None => Panic "config.Client == nil"
      | Some _ =>
          let chain := makeChain in
          let '((_, chain), res) :=
            Interpol.WithFunc (new_path_func method pathargs) path (0%nat, chain) in
          let '(path, chain) :=
            match res with
            | inl p => (p, chain)
            | inr e => (EmptyString, Chain.fail e chain)
            end in
          let '(hr, err) := Factory_NewRequest factory method (BaseURL config) in
          let chain := match err with
                       | Some e => Chain.fail e chain
                       | None => chain
                       end in
          Ok (mkReq config chain hr path None None None None
                EmptyString EmptyString false false [])
      end
  end.

(** *** The configuration methods *)

Definition WithMatcher (matcher : Matcher) (r : Request) : Request :=
  set_matchers (matchers r ++ [matcher]) r.

Definition WithClient (client : option Client) (r : Request) : Request :=
  if Chain.failed (chain r) then r
  else match client with
       | None => chain_fail (nl +:+ "unexpected nil client in WithClient") r
       | Some c => set_config (set_Client (Some c) (config r)) r
       end.

(** [WithHandler(handler)]. Go sets the transport of the [*http.Client]
    in place, for whoever else holds that client too; here the request
    keeps its own view of the client. *)
Definition WithHandler (handler : option Handler) (r : Request) : Request :=
  if Chain.failed (chain r) then r
  else match handler with
       | None => chain_fail (nl +:+ "unexpected nil handler in WithHandler") r
       | Some h =>
           match cfg_Client (config r) with
           | Some (HTTPClient _ jar) =>
               set_config (set_Client (Some (HTTPClient (NewBinder h) jar)) (config r)) r
           | _ =>
               set_config
                 (set_Client (Some (HTTPClient (NewBinder h) (Some NewJar))) (config r)) r
           end
       end.

Definition WithWebsocketUpgrade (r : Request) : Request :=
  if Chain.failed (chain r) then r
  else set_wsUpgrade true r.

Definition WithWebsocketDialer (dialer : option WebsocketDialer) (r : Request)
  : Request :=
  if Chain.failed (chain r) then r
  else match dialer with
       | None => chain_fail (nl +:+ "unexpected nil dialer in WithWebsocketDialer") r
       | Some d => set_config (set_WebsocketDialer (Some d) (config r)) r
       end.

(** [strings.EqualFold], on ASCII letters. *)
Fixpoint lower (s : string) : string :=
  match s with
  | EmptyString => EmptyString
  | String c s' => String (Http.to_lower c) (lower s')
  end.

Definition EqualFold (a b : string) : bool := String.eqb (lower a) (lower b).

Definition with_path_func (key : string) (v : value)
    (k : string) (st : bool * Chain.t) : (bool * Chain.t) * string :=
  let '(ok, ch) := st in
  if EqualFold k key then
    if is_nil v
    then ((ok, Chain.fail (nil_path_value_message key v) ch), EmptyString)
    else ((true, ch), Sprint v)
  else ((ok, ch), "{" +:+ k +:+ "}").

Definition WithPath (key : string) (v : value) (r : Request) : Request :=
  if Chain.failed (chain r) then r
  else
    let '((ok, ch), res) :=
      Interpol.WithFunc (with_path_func key v) (path r) (false, chain r) in
    match res with
    | inr e => chain_fail e (set_chain ch r)
    | inl p =>
        let r := set_path p (set_chain ch r) in
        if ok then r
        else chain_fail (unexpected_key_message key v (path r)) r
    end.

(** The argument of [WithPathObject]: nil, a struct with the map that
    [structs] makes of it, or anything else with what [canonMap] makes of
    it. A map is given by its entries in the order the [range] loop
    visits them. *)
Inductive PathObject :=
| PathNil
| PathStruct (m : list (string * value))
| PathOther (m : option (list (string * value))) (why : string).

(** Modelled from the spec: [canonMap], declared outside request.go. It
    flattens the object into key and value pairs; when it cannot, it
    reports [why] through the chain. *)
Definition canonMap (m : option (list (string * value))) (why : string)
    (c : Chain.t) : Chain.t * option (list (string * value)) :=
  match m with
  | Some kv => (c, Some kv)
  | None => (Chain.fail why c, None)
  end.

Definition WithPathObject (object : PathObject) (r : Request) : Request :=
  if Chain.failed (chain r) then r
  else match object with
       | PathNil => r
       | PathStruct m => foldl (λ r kv, WithPath kv.1 kv.2 r) r m
       | PathOther m why =>
           let '(ch, res) := canonMap m why (chain r) in
           match res with
           | None => set_chain ch r
           | Some m => foldl (λ r kv, WithPath kv.1 kv.2 r) (set_chain ch r) m
           end
       end.

Definition WithQuery (key : string) (v : value) (r : Request) : Request :=
  if Chain.failed (chain r) then r
  else set_query (Some (Url.Add key (Sprint v) (default ∅ (query r)))) r.

(** The argument of [WithQueryObject] and of [WithForm]: nil, a struct
    or pointer to struct, or anything else; with what the encoder that
    request.go picks for it returns ([query.Values] for a struct in
    [WithQueryObject], [form.EncodeToValues] otherwise). *)
Inductive Object :=
| ObjNil (encoded : Url.Values + string)
| ObjStruct (encoded : Url.Values + string)
| ObjOther (encoded : Url.Values + string).

Definition encoded_of (o : Object) : Url.Values + string :=
  match o with
  | ObjNil e | ObjStruct e | ObjOther e => e
  end.

Definition WithQueryObject (object : Object) (r : Request) : Request :=
  if Chain.failed (chain r) then r
  else match object with
       | ObjNil _ => r
       | ObjStruct enc | ObjOther enc =>
           match enc with
           | inr e => chain_fail e r
           | inl q => set_query (Some (Url.append_all (default ∅ (query r)) q)) r
           end
       end.

Definition WithQueryString (q : string) (r : Request) : Request :=
  if Chain.failed (chain r) then r
  else
    let '(v, err) := Url.ParseQuery q in
    match err with
    | Some e => chain_fail e r
    | None => set_query (Some (Url.append_all (default ∅ (query r)) v)) r
    end.

(** [WithURL(urlStr)]: [parsed] is what [url.Parse(urlStr)] returns. *)
Definition WithURL (parsed : Http.URL + string) (r : Request) : Request :=
  if Chain.failed (chain r) then r
  else match parsed with
       | inl u => set_http (Http.set_url u (http r)) r
       | inr e => chain_fail e r
       end.

Definition WithHeader (k v : string) (r : Request) : Request :=
  if Chain.failed (chain r) then r
  else
    let key := Http.CanonicalHeaderKey k in
    if String.eqb key "Host" then set_http (Http.set_host v (http r)) r
    else if String.eqb key "Content-Type" then
      let r := if negb (forceType r)
               then set_header (delete "Content-Type" (header r)) r
               else r in
      let r := set_forceType true r in
      let r := set_typeSetter "WithHeader" r in
      set_header (Http.Add k v (header r)) r
    else set_header (Http.Add k v (header r)) r.

(** [WithHeaders(headers)]: the entries of the map in the order the
    [range] loop visits them. *)
Definition WithHeaders (headers : list (string * string)) (r : Request) : Request :=
  if Chain.failed (chain r) then r
  else foldl (λ r kv, WithHeader kv.1 kv.2 r) r headers.

(** [r.http.AddCookie(&http.Cookie{Name: k, Value: v})]. *)
Definition AddCookie (k v : string) (h : Http.Header) : Http.Header :=
  let s := Enc.sanitizeCookieName k +:+ "=" +:+ Enc.sanitizeCookieValue v in
  let c := Http.Get h "Cookie" in
  if negb (is_empty c) then Http.Set_ "Cookie" (c +:+ "; " +:+ s) h
  else Http.Set_ "Cookie" s h.

Definition WithCookie (k v : string) (r : Request) : Request :=
  if Chain.failed (chain r) then r
  else set_header (AddCookie k v (header r)) r.

Definition WithCookies (cookies : list (string * string)) (r : Request) : Request :=
  if Chain.failed (chain r) then r
  else foldl (λ r kv, WithCookie kv.1 kv.2 r) r cookies.

Definition WithBasicAuth (username password : string) (r : Request) : Request :=
  if Chain.failed (chain r) then r
  else set_header
         (Http.Set_ "Authorization"
            ("Basic " +:+ Enc.base64 (username +:+ ":" +:+ password)) (header r)) r.

(** [WithProto(proto)]: [parsed] is what [http.ParseHTTPVersion(proto)]
    returns, the two numbers when it accepts the text. *)
Definition WithProto (proto : string) (parsed : option (Z * Z)) (r : Request)
  : Request :=
  if Chain.failed (chain r) then r
  else match parsed with
       | None => chain_fail (bad_proto_message proto) r
       | Some (major, minor) => set_http (Http.set_proto major minor (http r)) r
       end.

(** *** The body methods *)

Definition WithChunked (reader : option Http.Reader) (r : Request) : result Request :=
  if Chain.failed (chain r) then Ok r
  else if negb (Http.ProtoAtLeast (http r) 1 1)
  then Ok (chain_fail
             (chunked_proto_message (Http.ProtoMajor (http r)) (Http.ProtoMinor (http r))) r)
  else setBody "WithChunked" reader (-1) false r.

(** [WithJSONPretty(object)]: [marshalled] is what [json.MarshalIndent]
    returns for the object, the bytes or the error. *)
Definition WithJSONPretty (marshalled : string + string) (r : Request)
  : result Request :=
  if Chain.failed (chain r) then Ok r
  else match marshalled with
       | inr e => Ok (chain_fail e r)
       | inl b =>
           let r := setType "WithJSON" "application/json; charset=utf-8" false r in
           setBody "WithJSON" (Some (Http.BytesReader b)) (len b) false r
       end.

Definition WithBytes (b : option string) (r : Request) : result Request :=
  if Chain.failed (chain r) then Ok r
  else match b with
       | None => setBody "WithBytes" None 0 false r
       | Some b => setBody "WithBytes" (Some (Http.BytesReader b)) (len b) false r
       end.

Definition WithText (s : string) (r : Request) : result Request :=
  if Chain.failed (chain r) then Ok r
  else
    let r := setType "WithText" "text/plain; charset=utf-8" false r in
    setBody "WithText" (Some (Http.StringsReader s)) (len s) false r.

(** [WithJSON(object)]: [marshalled] is what [json.Marshal] returns. *)
Definition WithJSON (marshalled : string + string) (r : Request) : result Request :=
  if Chain.failed (chain r) then Ok r
  else match marshalled with
       | inr e => Ok (chain_fail e r)
       | inl b =>
           let r := setType "WithJSON" "application/json; charset=utf-8" false r in
           setBody "WithJSON" (Some (Http.BytesReader b)) (len b) false r
       end.

(** A call on [r.multipart], which writes into [r.formbuf]. Both are
    set together by [WithMultipart]; a nil one is a nil dereference. *)
Definition on_multipart (f : Multipart.Writer → string → Multipart.Writer * string)
    (r : Request) : result Request :=
  match multipart r, formbuf r with
  | Some w, Some buf =>
      let '(w', buf') := f w buf in
      Ok (set_formbuf (Some buf') (set_multipart (Some w') r))
  | _, _ => Panic "nil pointer dereference"
  end.

(** [r.multipart.WriteField(k, f[k][0])] for the keys in turn. *)
Fixpoint write_fields (f : Url.Values) (keys : list string) (r : Request)
  : result Request :=
  match keys with
  | [] => Ok r
  | k :: keys' =>
      match Url.get_all f k with
      | [] => Panic "index out of range"
      | v :: _ =>
          r ← on_multipart (Multipart.WriteField k v) r;
          write_fields f keys' r
      end
  end.

Definition add_form (f : Url.Values) (r : Request) : Request :=
  set_form (Some (Url.append_all (default ∅ (form r)) f)) r.

Definition WithForm (object : Object) (r : Request) : result Request :=
  if Chain.failed (chain r) then Ok r
  else match encoded_of object with
       | inr e => Ok (chain_fail e r)
       | inl f =>
           match multipart r with
           | Some _ =>
               let r := setType "WithForm" "multipart/form-data" false r in
               write_fields f (Url.sorted_keys f) r
           | None =>
               let r := setType "WithForm" "application/x-www-form-urlencoded" false r in
               Ok (add_form f r)
           end
       end.

Definition WithFormField (key : string) (v : value) (r : Request) : result Request :=
  if Chain.failed (chain r) then Ok r
  else match multipart r with
       | Some _ =>
           let r := setType "WithFormField" "multipart/form-data" false r in
           on_multipart (Multipart.WriteField key (Sprint v)) r
       | None =>
           let r := setType "WithFormField" "application/x-www-form-urlencoded" false r in
           Ok (set_form
                 (Some (<[key := Url.get_all (default ∅ (form r)) key ++ [Sprint v]]>
                          (default ∅ (form r)))) r)
       end.

(** What [io.Copy] draws from a reader: the bytes, then the error if the
    reader ends on one. *)
Record Stream := mkStream { data : string; read_err : option string }.

(** [WithFile(key, path, reader...)]: [opened] is what [os.Open(path)]
    returns, used when no reader is given. *)
Definition WithFile (key path : string) (reader : list (option Stream))
    (opened : Stream + string) (r : Request) : result Request :=
  if Chain.failed (chain r) then Ok r
  else
    let r := setType "WithFile" "multipart/form-data" false r in
    match multipart r with
    | None => Ok (chain_fail file_requires_multipart_message r)
    | Some _ =>
        r ← on_multipart (Multipart.CreateFormFile key path) r;
        let rd := match reader with
                  | Some s :: _ => inl s
                  | _ => opened
                  end in
        match rd with
        | inr e => Ok (chain_fail e r)
        | inl s =>
            r ← on_multipart (λ w buf, (w, buf +:+ data s)) r;
            match read_err s with
            | Some e => Ok (chain_fail e r)
            | None => Ok r
            end
        end
    end.

Definition WithFileBytes (key path : string) (bytes : string) (r : Request)
  : result Request :=
  if Chain.failed (chain r) then Ok r
  else WithFile key path [Some (mkStream bytes None)] (inr EmptyString) r.

(** [WithMultipart()]: [boundary] is the one [multipart.NewWriter]
    draws. *)
Definition WithMultipart (boundary : string) (r : Request) : result Request :=
  if Chain.failed (chain r) then Ok r
  else
    let r := setType "WithMultipart" "multipart/form-data" false r in
    match multipart r with
    | None =>
        let r := set_formbuf (Some EmptyString) r in
        let r := set_multipart (Some (Multipart.NewWriter boundary)) r in
        setBody "WithMultipart" (Some Http.FormBuf) 0 false r
    | Some _ => Ok r
    end.

(** *** Expect and the round trip *)

(** Modelled from the spec: the struct [Response], declared outside
    request.go. A response is built once per request, from the result of
    a transport exchange or of a websocket handshake, or empty when
    there is none. The elapsed time is left out. *)
Record Response := mkResp {
  resp_config : Config;
  resp_chain : Chain.t;
  response : option Http.Response;
  websocket : option Conn }.

(** Modelled from the spec: [makeResponse], declared outside
    request.go, which builds the response from its options. *)
Definition makeResponse (cfg : Config) (c : Chain.t)
    (resp : option Http.Response) (ws : option Conn) : Response :=
  mkResp cfg c resp ws.

Definition set_url_of (f : Http.URL → Http.URL) (r : Request) : Request :=
  set_http (Http.set_url (f (Http.url (http r))) (http r)) r.

Definition encodeRequest (r : Request) : result (Request * bool) :=
  if Chain.failed (chain r) then Ok (r, false)
  else
    let r := set_url_of
               (λ u, Http.set_path (concatPaths (Http.Path u) (path r)) u) r in
    let r := match query r with
             | Some q => set_url_of (Http.set_rawquery (Url.Encode q)) r
             | None => r
             end in
    match multipart r with
    | Some _ =>
        r ← on_multipart Multipart.Close r;
        match multipart r, formbuf r with
        | Some w, Some buf =>
            let r := setType "Expect" (Multipart.FormDataContentType w) true r in
            r ← setBody "Expect" (Some Http.FormBuf) (len buf) true r;
            Ok (r, true)
        | _, _ => Panic "nil pointer dereference"
        end
    | None =>
        match form r with
        | Some f =>
            let s := Url.Encode f in
            r ← setBody "WithForm or WithFormField" (Some (Http.StringsReader s))
                  (len s) false r;
            Ok (r, true)
        | None => Ok (r, true)
        end
    end.

Definition encodeWebsocketRequest (r : Request) : Request * bool :=
  if Chain.failed (chain r) then (r, false)
  else if negb (is_empty (bodySetter r))
  then (chain_fail (websocket_body_message (bodySetter r)) r, false)
  else
    let scheme := if String.eqb (Http.Scheme (Http.url (http r))) "https"
                  then "wss" else "ws" in
    (set_url_of (Http.set_scheme scheme) r, true).

Definition sendRequest (r : Request)
  : result (Request * option Http.Response * list event) :=
  if Chain.failed (chain r) then Ok (r, None, [])
  else match cfg_Client (config r) with
       | None => Panic "nil pointer dereference"
       | Some c =>
           let '(resp, err) := Do c (http r) in
           match err with
           | Some e => Ok (chain_fail e r, None, [EvClientDo (http r)])
           | None => Ok (r, resp, [EvClientDo (http r)])
           end
       end.

Definition sendWebsocketRequest (r : Request)
  : result (Request * (option Http.Response * option Conn) * list event) :=
  if Chain.failed (chain r) then Ok (r, (None, None), [])
  else match cfg_WebsocketDialer (config r) with
       | None => Panic "nil pointer dereference"
       | Some d =>
           let ev := [EvDial (Http.url (http r)) (header r)] in
           let '(conn, resp, err) := Dial d (Http.url (http r)) (header r) in
           match err with
           | Some ErrBadHandshake | None => Ok (r, (resp, conn), ev)
           | Some e => Ok (chain_fail (dial_error_text e) r, (None, None), ev)
           end
       end.

Definition roundTrip (r : Request)
  : result (Request * option Response * list event) :=
  '(r, ok) ← encodeRequest r;
  if negb ok then Ok (r, None, [])
  else
    let '(r, ok) := if wsUpgrade r then encodeWebsocketRequest r else (r, true) in
    if negb ok then Ok (r, None, [])
    else
      let ev1 := map (λ p, EvPrinterRequest p (http r)) (Printers (config r)) in
      '(r, (httpResp, websock), ev2) ←
        (if wsUpgrade r then sendWebsocketRequest r
         else '(r, resp, ev) ← sendRequest r; Ok (r, (resp, None), ev));
      match httpResp with
      | None => Ok (r, None, ev1 ++ ev2)
      | Some hr =>
          let ev3 := map (λ p, EvPrinterResponse p hr) (Printers (config r)) in
          Ok (r, Some (makeResponse (config r) (chain r) (Some hr) websock),
              ev1 ++ ev2 ++ ev3)
      end.

Definition Expect (r : Request) : result (Request * Response * list event) :=
  '(r, resp, ev) ← roundTrip r;
  match resp with
  | None => Ok (r, makeResponse (config r) (chain r) None None, ev)
  | Some resp => Ok (r, resp, ev ++ map EvMatcher (matchers r))
  end.

(** *** The calls of a test, as data *)

Inductive op :=
| OpWithMatcher (matcher : Matcher)
| OpWithClient (client : option Client)
| OpWithHandler (handler : option Handler)
| OpWithWebsocketUpgrade
| OpWithWebsocketDialer (dialer : option WebsocketDialer)
| OpWithPath (key : string) (v : value)
| OpWithPathObject (object : PathObject)
| OpWithQuery (key : string) (v : value)
| OpWithQueryObject (object : Object)
| OpWithQueryString (q : string)
| OpWithURL (parsed : Http.URL + string)
| OpWithHeaders (headers : list (string * string))
| OpWithHeader (k v : string)
| OpWithCookies (cookies : list (string * string))
| OpWithCookie (k v : string)
| OpWithBasicAuth (username password : string)
| OpWithProto (proto : string) (parsed : option (Z * Z))
| OpWithChunked (reader : option Http.Reader)
| OpWithJSONPretty (marshalled : string + string)
| OpWithBytes (b : option string)
| OpWithText (s : string)
| OpWithJSON (marshalled : string + string)
| OpWithForm (object : Object)
| OpWithFormField (key : string) (v : value)
| OpWithFile (key path : string) (reader : list (option Stream))
    (opened : Stream + string)
| OpWithFileBytes (key path : string) (bytes : string)
| OpWithMultipart (boundary : string).

Definition step (o : op) (r : Request) : result Request :=
  match o with
  | OpWithMatcher m => Ok (WithMatcher m r)
  | OpWithClient c => Ok (WithClient c r)
  | OpWithHandler h => Ok (WithHandler h r)
  | OpWithWebsocketUpgrade => Ok (WithWebsocketUpgrade r)
  | OpWithWebsocketDialer d => Ok (WithWebsocketDialer d r)
  | OpWithPath k v => Ok (WithPath k v r)
  | OpWithPathObject o => Ok (WithPathObject o r)
  | OpWithQuery k v => Ok (WithQuery k v r)
  | OpWithQueryObject o => Ok (WithQueryObject o r)
  | OpWithQueryString q => Ok (WithQueryString q r)
  | OpWithURL u => Ok (WithURL u r)
  | OpWithHeaders hs => Ok (WithHeaders hs r)
  | OpWithHeader k v => Ok (WithHeader k v r)
  | OpWithCookies cs => Ok (WithCookies cs r)
  | OpWithCookie k v => Ok (WithCookie k v r)
  | OpWithBasicAuth u p => Ok (WithBasicAuth u p r)
  | OpWithProto p parsed => Ok (WithProto p parsed r)
  | OpWithChunked rd => WithChunked rd r
  | OpWithJSONPretty m => WithJSONPretty m r
  | OpWithBytes b => WithBytes b r
  | OpWithText s => WithText s r
  | OpWithJSON m => WithJSON m r
  | OpWithForm o => WithForm o r
  | OpWithFormField k v => WithFormField k v r
  | OpWithFile k p rd opened => WithFile k p rd opened r
  | OpWithFileBytes k p b => WithFileBytes k p b r
  | OpWithMultipart b => WithMultipart b r
  end.

(** A sequence of calls on the same request. *)
Fixpoint run (ops : list op) (r : Request) : result Request :=
  match ops with
  | [] => Ok r
  | o :: ops' => r ← step o r; run ops' r
  end.

(** * What the properties are stated with *)

(** ** A configuration to run the examples on *)

Definition example_http (method : string) : Http.Request :=
  Http.mkRequest method
    (Http.mkURL "http" "example.com" EmptyString EmptyString)
    1 1 ∅ None 0 EmptyString.

Definition example_factory : RequestFactory :=
  mkFactory (λ method _, (example_http method, None)).

Definition example_client : Client :=
  OtherClient (λ _, (Some (Http.mkResponse 200 ∅ "ok"), None)).

(** A dialer whose peer refuses the upgrade. *)
Definition example_dialer : WebsocketDialer :=
  mkDialer (λ _ _, (None, Some (Http.mkResponse 403 ∅ "no"), Some ErrBadHandshake)).

Definition example_config : Config :=
  mkConfig "http://example.com" (Some example_factory) (Some example_client)
    (Some example_dialer) [].

(** [NewRequest(config, "GET", path)] followed by the calls [ops]. *)
Definition example (path : string) (ops : list op) : result Request :=
  r ← NewRequest example_config "GET" path []; run ops r.

(** ** Views of a request *)

(** The part of a request that says what its body is. *)
Definition body_slot (r : Request) : string * option Http.Reader * Z :=
  (bodySetter r, Http.Body (http r), Http.ContentLength (http r)).

(** The number of times the writer of the request has been closed. *)
Definition closes_of (r : Request) : nat :=
  match multipart r with
  | Some w => Multipart.closes w
  | None => 0%nat
  end.

(** The writer and its buffer are there together. *)
Definition wf (r : Request) : Prop :=
  is_Some (multipart r) ↔ is_Some (formbuf r).

Definition mp_view (r : Request) : option Multipart.Writer * option string :=
  (multipart r, formbuf r).

(** What a call has to keep of the writer: how often it was closed, and
    that it comes with its buffer. *)
Definition mp_kept (r r' : Request) : Prop :=
  closes_of r' = closes_of r ∧ (wf r → wf r').

(** A request whose chain has failed: the path argument is nil. *)
Definition failed_example : result Request :=
  NewRequest example_config "GET" "/{a}" [VNil].

(** The calls that infer a content type for the body they set. *)
Definition infers_type (o : op) : bool :=
  match o with
  | OpWithJSONPretty _ | OpWithText _ | OpWithJSON _ | OpWithForm _
  | OpWithFormField _ _ | OpWithFile _ _ _ _ | OpWithFileBytes _ _ _
  | OpWithMultipart _ => true
  | _ => false
  end.

(** The first step of [encodeRequest]: the path is joined to the URL and
    the query, if any, is serialized. *)
Definition encode_url (r : Request) : Request :=
  let r := set_url_of
             (λ u, Http.set_path (concatPaths (Http.Path u) (path r)) u) r in
  match query r with
  | Some q => set_url_of (Http.set_rawquery (Url.Encode q)) r
  | None => r
  end.

(** The second step when a multipart writer is open. *)
Definition encode_multipart (w : Multipart.Writer) (buf : string) (r : Request)
  : Request :=
  let r := set_formbuf (Some (Multipart.Close w buf).2)
             (set_multipart (Some (Multipart.Close w buf).1) r) in
  let r := setType "Expect"
             (Multipart.FormDataContentType (Multipart.Close w buf).1) true r in
  set_bodySetter "Expect"
    (set_http (Http.set_body (Some Http.FormBuf) (len (Multipart.Close w buf).2)
                 (http r)) r).

(** A request with an open multipart writer and one field written. *)
Definition multipart_example : Request :=
  mkReq example_config makeChain
    (Http.mkRequest "GET" (Http.mkURL "http" "example.com" EmptyString EmptyString)
       1 1 (<["Content-Type" := ["multipart/form-data"]]> ∅)
       (Some Http.FormBuf) 0 EmptyString)
    "/" None None
    (Some (Multipart.WriteField "a" "1" (Multipart.NewWriter "xyz") EmptyString).2)
    (Some (Multipart.WriteField "a" "1" (Multipart.NewWriter "xyz") EmptyString).1)
    "WithMultipart" "WithFormField" false false [].

(** A request with the upgrade enabled and a JSON body. *)
Definition websocket_example : Request :=
  mkReq example_config makeChain
    (Http.mkRequest "GET" (Http.mkURL "http" "example.com" EmptyString EmptyString)
       1 1 (<["Content-Type" := ["application/json; charset=utf-8"]]> ∅)
       (Some (Http.BytesReader "{}")) 2 EmptyString)
    "/" None None None None "WithJSON" "WithJSON" false true [].

(** A request with the upgrade enabled and no body, as encoded. *)
Definition upgrade_example : Request :=
  mkReq example_config makeChain
    (Http.mkRequest "GET" (Http.mkURL "ws" "example.com" "/" EmptyString)
       1 1 ∅ None 0 EmptyString)
    "/" None None None None EmptyString EmptyString false true [].

(** The values that the pending query holds for a key. *)
Definition query_values (r : Request) (k : string) : list string :=
  Url.get_all (default ∅ (query r)) k.

(** The bytes left in an escaped text: letters, digits, the four marks,
    the plus sign and the percent sign. *)
Fixpoint escaped (s : string) : bool :=
  match s with
  | EmptyString => true
  | String c s' =>
      (Url.unreserved c || Ascii.eqb c "+" || Ascii.eqb c "%") && escaped s'
  end.

(** A request with three query values added. *)
Definition query_example : Request :=
  mkReq example_config makeChain (example_http "GET") "/p"
    (Some (<["b" := ["2"]]> (<["a" := ["1"; "x y"]]> ∅)))
    None None None EmptyString EmptyString false false [].

(** ** Path templates as pieces *)

(** A template as its pieces: literal text and placeholders. *)
Inductive segment :=
| Lit (s : string)
| Hole (name : string).

Definition render_segment (x : segment) : string :=
  match x with
  | Lit s => s
  | Hole name => "{" +:+ name +:+ "}"
  end.

(** The text of a template. *)
Fixpoint render (t : list segment) : string :=
  match t with
  | [] => EmptyString
  | x :: t' => render_segment x +:+ render t'
  end.

Fixpoint no_brace (s : string) : bool :=
  match s with
  | EmptyString => true
  | String c s' => negb (Ascii.eqb c "{") && negb (Ascii.eqb c "}") && no_brace s'
  end.

(** The pieces hold no brace of their own. *)
Definition well_formed (t : list segment) : Prop :=
  Forall (λ x, match x with Lit s | Hole s => no_brace s = true end) t.

(** The names of the placeholders, one per occurrence, left to right. *)
Fixpoint holes (t : list segment) : list string :=
  match t with
  | [] => []
  | Lit _ :: t' => holes t'
  | Hole name :: t' => name :: holes t'
  end.

(** What the interpolator computes on the pieces. *)
Fixpoint interpolate {U} (format : string → U → U * string)
    (t : list segment) (u : U) (out : string) : U * string :=
  match t with
  | [] => (u, out)
  | Lit s :: t' => interpolate format t' u (out +:+ s)
  | Hole name :: t' =>
      let '(u', w) := format name u in
      interpolate format t' u' (out +:+ w)
  end.

(** What [NewRequest] makes of the pieces: the placeholder occurrences
    are counted from [n], and the one counted [i] takes the argument at
    [i], written as text (nothing is written for nil), while there is
    one; the others stay as they are. *)
Fixpoint fill (args : list value) (n : nat) (t : list segment) : list segment :=
  match t with
  | [] => []
  | Lit s :: t' => Lit s :: fill args n t'
  | Hole name :: t' =>
      match args !! n with
      | Some a => Lit (if is_nil a then EmptyString else Sprint a)
      | None => Hole name
      end :: fill args (S n) t'
  end.

(** Whether one of the [m] arguments from [n] on is nil. *)
Definition nil_given (args : list value) (n m : nat) : bool :=
  existsb is_nil (take m (drop n args)).

(** Following the words of the spec: the distinct placeholder names are
    taken in the order of their first appearance, the name at place [i]
    stands for the argument at [i] while there is one, and a
    placeholder is replaced by the argument of its name or left as it
    is. *)
Fixpoint first_appearances (seen names : list string) : list string :=
  match names with
  | [] => []
  | x :: names' =>
      if bool_decide (x ∈ seen) then first_appearances seen names'
      else x :: first_appearances (x :: seen) names'
  end.

Fixpoint index_of (x : string) (l : list string) : option nat :=
  match l with
  | [] => None
  | y :: l' => if bool_decide (x = y) then Some 0%nat else S <$> index_of x l'
  end.

Definition spec_fill (args : list value) (t : list segment) : list segment :=
  let names := first_appearances [] (holes t) in
  map (λ x, match x with
            | Lit s => Lit s
            | Hole name =>
                match index_of name names ≫= (λ i, args !! i) with
                | Some a => Lit (Sprint a)
                | None => Hole name
                end
            end) t.

(** A request with a JSON body. *)
Definition json_example : Request :=
  mkReq example_config makeChain
    (Http.mkRequest "GET" (Http.mkURL "http" "example.com" EmptyString EmptyString)
       1 1 (<["Content-Type" := ["application/json; charset=utf-8"]]> ∅)
       (Some (Http.BytesReader "{}")) 2 EmptyString)
    "/" None None None None "WithJSON" "WithJSON" false false [].

(** A request as [NewRequest] leaves it, with the path [/]. *)
Definition fresh_example : Request :=
  mkReq example_config makeChain (example_http "GET") "/" None None None None
    EmptyString EmptyString false false [].

(** ** Named path parameters on the pieces *)








(** ** Forms *)

(** The content type [ty] can be inferred without a conflict: the type
    is forced, unset, or this one already. *)
Definition type_free (ty : string) (r : Request) : Prop :=
  forceType r = true
  ∨ Http.Get (header r) "Content-Type" = EmptyString
  ∨ Http.Get (header r) "Content-Type" = ty.

(** The request has no multipart writer and the content type can be
    set to the URL-encoded one. *)
Definition urlencoded_ready (r : Request) : Prop :=
  Chain.failed (chain r) = false
  ∧ multipart r = None
  ∧ type_free "application/x-www-form-urlencoded" r.

(** What a form call in URL-encoded mode leaves: the values [added]
    come after the ones each key had, the body slot and the chain are as
    before, and encoding makes the form the body when the slot is
    free. *)
Definition form_added (added : string → list string) (r r1 : Request) : Prop :=
  (∀ k, Url.get_all (default ∅ (form r1)) k
        = Url.get_all (default ∅ (form r)) k ++ added k)
  ∧ body_slot r1 = body_slot r
  ∧ urlencoded_ready r1
  ∧ (bodySetter r = EmptyString →
     ∃ f r2, form r1 = Some f
       ∧ encodeRequest r1 = Ok (r2, true)
       ∧ body_slot r2
         = ("WithForm or WithFormField",
            Some (Http.StringsReader (Url.Encode f)), len (Url.Encode f))
       ∧ chain r2 = chain r).

(** ** Multipart forms *)

(** The request has its multipart writer and the content type can be
    set to the multipart one. *)
Definition multipart_ready (r : Request) : Prop :=
  Chain.failed (chain r) = false
  ∧ is_Some (multipart r) ∧ is_Some (formbuf r)
  ∧ type_free "multipart/form-data" r.

(** One [WithFormField] call per key, in the order of the sorted keys,
    with the first value of the key. *)
Definition first_value_fields (f : Url.Values) : list op :=
  map (λ k, OpWithFormField k (VString (hd EmptyString (Url.get_all f k))))
    (Url.sorted_keys f).

(** Where [WithFile] reads the content from: the first reader given, if
    there is one and it is not nil, and the file opened otherwise. *)
Definition file_source (reader : list (option Stream)) (opened : Stream + string)
  : Stream + string :=
  match reader with
  | Some s :: _ => inl s
  | _ => opened
  end.

(** A request on which [WithMultipart] has been called, with the
    boundary [xyz]. *)
Definition multipart_fresh_example : Request :=
  mkReq example_config makeChain
    (Http.mkRequest "GET" (Http.mkURL "http" "example.com" EmptyString EmptyString)
       1 1 (<["Content-Type" := ["multipart/form-data"]]> ∅)
       (Some Http.FormBuf) 0 EmptyString)
    "/" None None (Some EmptyString) (Some (Multipart.NewWriter "xyz"))
    "WithMultipart" "WithMultipart" false false [].

(** ** The round trip *)

(** Encoding will not find the body slot taken when it makes the
    URL-encoded form the body. *)
Definition no_form_conflict (r : Request) : Prop :=
  is_Some (multipart r) ∨ form r = None ∨ bodySetter r = EmptyString.

(** The calls of the printers for the request and for a response. *)
Definition request_events (r : Request) : list event :=
  map (λ p, EvPrinterRequest p (http r)) (Printers (config r)).

Definition response_events (r : Request) (hr : Http.Response) : list event :=
  map (λ p, EvPrinterResponse p hr) (Printers (config r)).

(** The matchers that a sequence of calls attaches. *)
Definition matchers_of (ops : list op) : list Matcher :=
  omap (λ o, match o with OpWithMatcher m => Some m | _ => None end) ops.

(** A configuration with two printers, and a request made with it that
    has two matchers attached. *)
Definition printing_config : Config :=
  mkConfig "http://example.com" (Some example_factory) (Some example_client)
    (Some example_dialer) [0%nat; 1%nat].

Definition printing_example : Request :=
  mkReq printing_config makeChain (example_http "GET") "/users" None None None None
    EmptyString EmptyString false false [7%nat; 8%nat].

(** A request with a body given as bytes and a form field pending. *)
Definition form_conflict_example : Request :=
  mkReq example_config makeChain
    (Http.mkRequest "GET" (Http.mkURL "http" "example.com" EmptyString EmptyString)
       1 1 (<["Content-Type" := ["application/x-www-form-urlencoded"]]> ∅)
       (Some (Http.BytesReader "x")) 1 EmptyString)
    "/" None (Some (<["a" := ["1"]]> ∅)) None None
    "WithBytes" "WithFormField" false false [].

(** ** The websocket scheme *)

(** The scheme that [encodeWebsocketRequest] sets. *)
Definition ws_scheme (u : Http.URL) : string :=
  if String.eqb (Http.Scheme u) "https" then "wss" else "ws".

(** A request to an https address with the upgrade enabled. *)
Definition secure_upgrade_example : Request :=
  mkReq printing_config makeChain
    (Http.mkRequest "GET" (Http.mkURL "https" "example.com" EmptyString EmptyString)
       1 1 ∅ None 0 EmptyString)
    "/chat" None None None None EmptyString EmptyString false true [].

(** ** Calls that return *)


(** ** What the client is sent *)

(** [Expect] shows the printers and then the client a request with this
    body, content length and content type. *)
Definition sends (r : Request) (body : option Http.Reader) (n : Z) (ty : string)
  : Prop :=
  ∃ r' resp tail,
    Expect r = Ok (r', resp, request_events r' ++ EvClientDo (http r') :: tail)
    ∧ Http.Body (http r') = body
    ∧ Http.ContentLength (http r') = n
    ∧ Http.Get (header r') "Content-Type" = ty.

(** ** Texts without a given byte *)

Fixpoint lacks (c : ascii) (s : string) : bool :=
  match s with
  | EmptyString => true
  | String d s' => negb (Ascii.eqb d c) && lacks c s'
  end.

(** ** The multipart body as text *)

(** One field as [WriteField] writes it: the boundary line, after a
    line break when a part came before, the header of the part, an
    empty line and the value. *)
Definition field_part (b : string) (opened : bool) (k v : string) : string :=
  (if opened then crlf +:+ "--" +:+ b +:+ crlf else "--" +:+ b +:+ crlf)
  +:+ Multipart.header_line
        ("Content-Disposition",
         "form-data; name=" +:+ dq +:+ Multipart.escapeQuotes k +:+ dq)
  +:+ crlf +:+ v.

Fixpoint form_parts (b : string) (opened : bool) (fields : list (string * value))
  : string :=
  match fields with
  | [] => EmptyString
  | (k, v) :: fields' => field_part b opened k (Sprint v) +:+ form_parts b true fields'
  end.

(** The line that closes the body. *)
Definition closing_line (b : string) : string :=
  crlf +:+ "--" +:+ b +:+ "--" +:+ crlf.

(** ** Clients behind pointers *)


Abbreviation ClientStore := (gmap nat (Exchange * option Jar)).



(** ** Cookies *)

(** The text of one cookie in the Cookie header. *)
Definition cookie_pair (kv : string * string) : string :=
  Enc.sanitizeCookieName kv.1 +:+ "=" +:+ Enc.sanitizeCookieValue kv.2.

(** The cookies that follow the first one, each after a semicolon and
    a space. *)
Definition more_cookies (xs : list string) : string :=
  foldr (λ y acc, "; " +:+ y +:+ acc) EmptyString xs.

(** * Properties *)

(** ** The library models on examples *)

Example quote_ex : Fmt.quote "text/plain" = Str.dq +:+ "text/plain" +:+ Str.dq.
Proof. reflexivity. Qed.

Example ParseQuery_ex :
  Url.ParseQuery "b=2&c=x+y%21&b=3" =
    (<["c" := ["x y!"]]> (<["b" := ["2"; "3"]]> ∅), None).
Proof. vm_compute. reflexivity. Qed.

Example Encode_ex :
  Url.Encode (<["c" := ["x y!"]]> (<["b" := ["2"; "3"]]> (<["a" := ["1"]]> ∅)))
  = "a=1&b=2&b=3&c=x+y%21".
Proof. vm_compute. reflexivity. Qed.

Example CanonicalHeaderKey_ex :
  Http.CanonicalHeaderKey "content-type" = "Content-Type"
  ∧ Http.CanonicalHeaderKey "HOST" = "Host"
  ∧ Http.CanonicalHeaderKey "a b" = "a b".
Proof. repeat split; reflexivity. Qed.

Example base64_ex : Enc.base64 "john:secret" = "am9objpzZWNyZXQ=".
Proof. reflexivity. Qed.

(** ** Strings and messages *)

Lemma append_cons (x : ascii) (a b : string) :
  String x a +:+ b = String x (a +:+ b).
Proof. reflexivity. Qed.

Lemma append_nil (b : string) : EmptyString +:+ b = b.
Proof. reflexivity. Qed.

Lemma append_assoc (a b c : string) : (a +:+ b) +:+ c = a +:+ b +:+ c.
Proof.
  induction a as [|x a IH]; [done |].
  by rewrite !append_cons, IH.
Qed.

Lemma append_empty_r (a : string) : a +:+ EmptyString = a.
Proof.
  induction a as [|x a IH]; [done |].
  by rewrite append_cons, IH.
Qed.

Lemma prefix_append (a b : string) : String.prefix a (a +:+ b) = true.
Proof.
  induction a as [|x a IH]; [by destruct b |].
  rewrite append_cons. simpl.
  destruct (ascii_dec x x); [done | congruence].
Qed.

Lemma prefix_split (a s : string) :
  String.prefix a s = true → ∃ post, s = a +:+ post.
Proof.
  revert s. induction a as [|x a IH]; intros s; simpl.
  - intros _. by exists s.
  - destruct s as [|y s]; simpl; [done |].
    destruct (ascii_dec x y) as [-> |]; [| done].
    intros H. destruct (IH _ H) as [post ->]. by exists post.
Qed.

Lemma contains_prefix (sub s : string) :
  String.prefix sub s = true → contains sub s = true.
Proof. intros H. destruct s; cbn [contains]; by rewrite H. Qed.

Lemma contains_append (sub pre post : string) :
  contains sub (pre +:+ sub +:+ post) = true.
Proof.
  induction pre as [|x pre IH].
  - rewrite append_nil. apply contains_prefix, prefix_append.
  - rewrite append_cons. cbn [contains]. rewrite IH. by destruct (String.prefix sub _).
Qed.

(** [contains] decides [occurs_in]. *)
Lemma occurs_in_contains (sub s : string) :
  occurs_in sub s ↔ contains sub s = true.
Proof.
  split.
  - intros (pre & post & ->). apply contains_append.
  - induction s as [|x s IH]; cbn [contains];
      destruct (String.prefix sub _) eqn:E.
    + intros _. destruct (prefix_split _ _ E) as [post ->].
      by exists EmptyString, post.
    + done.
    + intros _. destruct (prefix_split _ _ E) as [post Hs].
      exists EmptyString, post. by rewrite Hs.
    + intros H. destruct (IH H) as (pre & post & ->).
      by exists (String x pre), post.
Qed.

Lemma not_occurs_in (sub s : string) :
  contains sub s = false → ¬ occurs_in sub s.
Proof. rewrite occurs_in_contains. congruence. Qed.

Lemma occurs_in_mid (pre x post : string) : occurs_in x (pre +:+ x +:+ post).
Proof. by exists pre, post. Qed.

Lemma occurs_in_end (pre x : string) : occurs_in x (pre +:+ x).
Proof. exists pre, EmptyString. by rewrite append_empty_r. Qed.

Lemma occurs_in_append_l (x a b : string) : occurs_in x a → occurs_in x (a +:+ b).
Proof.
  intros (pre & post & ->). exists pre, (post +:+ b).
  by rewrite !append_assoc.
Qed.

Lemma occurs_in_append_r (x a b : string) : occurs_in x b → occurs_in x (a +:+ b).
Proof.
  intros (pre & post & ->). exists (a +:+ pre), post.
  by rewrite !append_assoc.
Qed.

Create HintDb names.
#[local] Hint Resolve occurs_in_mid occurs_in_end occurs_in_append_l
  occurs_in_append_r : names.

Lemma body_message_names (old new : string) :
  occurs_in old (ambiguous_body_message old new)
  ∧ occurs_in new (ambiguous_body_message old new).
Proof. unfold ambiguous_body_message. split; eauto 12 with names. Qed.

Lemma websocket_message_names (setter : string) :
  occurs_in setter (websocket_body_message setter)
  ∧ occurs_in "WithWebsocketUpgrade" (websocket_body_message setter).
Proof.
  unfold websocket_body_message. split; [eauto 12 with names |].
  do 6 apply occurs_in_append_r.
  exists "  webocket enabled by ", EmptyString. reflexivity.
Qed.

Lemma is_empty_true (s : string) : is_empty s = true ↔ s = EmptyString.
Proof. by destruct s. Qed.

Lemma is_empty_false (s : string) : is_empty s = false ↔ s ≠ EmptyString.
Proof. by destruct s. Qed.

(** ** The body slot *)

Lemma chain_fail_failed (msg : string) (r : Request) :
  Chain.failed (chain (chain_fail msg r)) = true.
Proof.
  unfold chain_fail, Chain.fail, Chain.failed. simpl.
  by destruct (Chain.failbit (chain r)) eqn:E.
Qed.

Lemma chain_fail_fresh (msg : string) (r : Request) :
  Chain.failed (chain r) = false →
  Chain.message (chain (chain_fail msg r)) = Some msg.
Proof. unfold chain_fail, Chain.fail, Chain.failed. simpl. by intros ->. Qed.

Lemma chain_fail_sticky (msg : string) (r : Request) :
  Chain.failed (chain r) = true → chain_fail msg r = r.
Proof.
  unfold chain_fail, Chain.fail, Chain.failed. intros ->. by destruct r.
Qed.

(** What [setBody] does when the slot is taken and no override is asked
    for. *)
Lemma setBody_taken (setter : string) (reader : option Http.Reader) (n : Z)
    (r : Request) :
  bodySetter r ≠ EmptyString →
  setBody setter reader n false r
  = Ok (chain_fail (ambiguous_body_message (bodySetter r) setter) r).
Proof.
  intros H. unfold setBody. apply is_empty_false in H. by rewrite H.
Qed.

(** C1, as amended. When the body slot is owned by a setter, [setBody]
    with another label and without the override flag returns, leaves the
    body, the content length, the multipart buffer and the owner as they
    were, and leaves the chain failed. If no failure was recorded
    before, the message recorded is the body conflict, which names the
    owner and the new setter; if one was, the chain keeps it. *)
Theorem setBody_conflict_keeps_body (r : Request) (setter : string)
    (reader : option Http.Reader) (n : Z) :
  bodySetter r ≠ EmptyString →
  ∃ r', setBody setter reader n false r = Ok r'
    ∧ Http.Body (http r') = Http.Body (http r)
    ∧ Http.ContentLength (http r') = Http.ContentLength (http r)
    ∧ http r' = http r
    ∧ formbuf r' = formbuf r
    ∧ bodySetter r' = bodySetter r
    ∧ Chain.failed (chain r') = true
    ∧ (Chain.failed (chain r) = false →
       Chain.message (chain r')
       = Some (ambiguous_body_message (bodySetter r) setter)
       ∧ occurs_in (bodySetter r) (ambiguous_body_message (bodySetter r) setter)
       ∧ occurs_in setter (ambiguous_body_message (bodySetter r) setter))
    ∧ (Chain.failed (chain r) = true → chain r' = chain r).
Proof.
  intros H. eexists. split; [by apply setBody_taken |].
  repeat split; try reflexivity.
  - apply chain_fail_failed.
  - by apply chain_fail_fresh.
  - apply body_message_names.
  - apply body_message_names.
  - intros Hf. by rewrite chain_fail_sticky.
Qed.

Lemma setBody_conflict_keeps_body_witness :
  let r := mkReq example_config makeChain (example_http "GET") "/" None None
             None None "WithJSON" "WithJSON" false false [] in
  bodySetter r ≠ EmptyString
  ∧ ∃ r', setBody "WithText" (Some (Http.StringsReader "x")) 1 false r = Ok r'
      ∧ Http.Body (http r') = Http.Body (http r)
      ∧ Chain.message (chain r')
        = Some (ambiguous_body_message "WithJSON" "WithText").
Proof.
  intros r. split; [discriminate |].
  destruct (setBody_conflict_keeps_body r "WithText"
              (Some (Http.StringsReader "x")) 1)
    as (r' & H1 & H2 & _ & _ & _ & _ & _ & H3 & _); [discriminate |].
  exists r'. split; [exact H1 |]. split; [exact H2 |].
  apply H3. reflexivity.
Defined.

(** C1, the counterexample. [WithMultipart] owns the body and
    [WithFormField] takes over the content type. [WithText] then fails
    on the content type first, so the body conflict that [setBody]
    reports is not recorded: the message kept does not name
    [WithMultipart], the owner of the body. *)
Lemma setBody_conflict_unnamed_owner :
  (r ← example "/" [OpWithMultipart "b"; OpWithFormField "a" (VString "1")];
   r' ← setBody "WithText" (Some (Http.StringsReader "x")) 1 false
          (setType "WithText" "text/plain; charset=utf-8" false r);
   r'' ← WithText "x" r;
   Ok (Chain.failed (chain r), bodySetter r,
       Chain.message (chain r'), Chain.message (chain r'')))
  = Ok (false, "WithMultipart",
        Some (ambiguous_type_message "multipart/form-data" "WithFormField"
                "text/plain; charset=utf-8" "WithText"),
        Some (ambiguous_type_message "multipart/form-data" "WithFormField"
                "text/plain; charset=utf-8" "WithText"))
  ∧ ¬ occurs_in "WithMultipart"
        (ambiguous_type_message "multipart/form-data" "WithFormField"
           "text/plain; charset=utf-8" "WithText").
Proof.
  split; [vm_compute; reflexivity |].
  apply not_occurs_in. vm_compute. reflexivity.
Qed.

(** ** What the calls leave alone *)

Lemma foldl_preserves {A B} (P : A → Prop) (f : A → B → A) (l : list B) (a : A) :
  (∀ a b, P a → P (f a b)) → P a → P (foldl f a l).
Proof. intros Hf. revert a. induction l as [|b l IH]; simpl; auto. Qed.

Ltac unfold_calls :=
  unfold WithMatcher, WithClient, WithHandler, WithWebsocketUpgrade,
    WithWebsocketDialer, WithPath, WithQuery, WithQueryObject,
    WithQueryString, WithURL, WithHeader, WithCookie, WithBasicAuth,
    WithProto, WithChunked, WithJSONPretty, WithBytes, WithText, WithJSON,
    WithForm, WithFormField, WithFileBytes, WithFile, WithMultipart, add_form,
    on_multipart, canonMap, setBody, setType, chain_fail, set_header,
    set_url_of, header in *.

#[local] Arguments Multipart.WriteField : simpl never.
#[local] Arguments Multipart.CreateFormFile : simpl never.
#[local] Arguments Multipart.Close : simpl never.
#[local] Arguments Multipart.FormDataContentType : simpl never.
#[local] Arguments Url.Encode : simpl never.
#[local] Arguments Url.ParseQuery : simpl never.
#[local] Arguments Interpol.WithFunc : simpl never.
#[local] Arguments Http.CanonicalHeaderKey : simpl never.
#[local] Arguments Http.Get : simpl never.
#[local] Arguments Http.Add : simpl never.
#[local] Arguments Http.Set_ : simpl never.
#[local] Arguments AddCookie : simpl never.
#[local] Arguments String.eqb : simpl never.
#[local] Arguments ambiguous_type_message : simpl never.
#[local] Arguments ambiguous_body_message : simpl never.

Ltac break_calls :=
  repeat (simpl in *; intros; simplify_eq; try case_match).

Lemma WithHeader_body_slot k v r : body_slot (WithHeader k v r) = body_slot r.
Proof. unfold_calls. by break_calls. Qed.

Lemma WithCookie_body_slot k v r : body_slot (WithCookie k v r) = body_slot r.
Proof. unfold_calls. by break_calls. Qed.

Lemma WithPath_body_slot k v r : body_slot (WithPath k v r) = body_slot r.
Proof. unfold_calls. by break_calls. Qed.

Lemma write_fields_body_slot f keys r r' :
  write_fields f keys r = Ok r' → body_slot r' = body_slot r.
Proof.
  revert r. induction keys as [|k keys IH]; intros r; simpl.
  - by intros [= ->].
  - destruct (Url.get_all f k); [done |].
    destruct (on_multipart _ r) as [r1|] eqn:E; simpl; [| done].
    intros H. rewrite (IH _ H). revert E. unfold_calls. by break_calls.
Qed.

Lemma foldl_body_slot {B} (f : Request → B → Request) (l : list B) (r : Request) :
  (∀ a b, body_slot (f a b) = body_slot a) →
  body_slot (foldl f r l) = body_slot r.
Proof.
  intros Hf. apply (foldl_preserves (λ x, body_slot x = body_slot r)); [| done].
  intros a b <-. apply Hf.
Qed.

Lemma WithPathObject_body_slot o r : body_slot (WithPathObject o r) = body_slot r.
Proof.
  unfold WithPathObject. destruct (Chain.failed _); [done |].
  destruct o as [|m|[m|] why]; simpl; try done.
  - apply foldl_body_slot. intros. apply WithPath_body_slot.
  - rewrite foldl_body_slot; [done |]. intros. apply WithPath_body_slot.
Qed.

Lemma WithHeaders_body_slot hs r : body_slot (WithHeaders hs r) = body_slot r.
Proof.
  unfold WithHeaders. destruct (Chain.failed _); [done |].
  apply foldl_body_slot. intros. apply WithHeader_body_slot.
Qed.

Lemma WithCookies_body_slot cs r : body_slot (WithCookies cs r) = body_slot r.
Proof.
  unfold WithCookies. destruct (Chain.failed _); [done |].
  apply foldl_body_slot. intros. apply WithCookie_body_slot.
Qed.

Lemma setType_body_slot s ty ow r : body_slot (setType s ty ow r) = body_slot r.
Proof. unfold_calls. by break_calls. Qed.

Lemma setType_bodySetter s ty ow r : bodySetter (setType s ty ow r) = bodySetter r.
Proof. unfold_calls. by break_calls. Qed.

Lemma setBody_taken_slot setter rd n r r' :
  bodySetter r ≠ EmptyString →
  setBody setter rd n false r = Ok r' → body_slot r' = body_slot r.
Proof. intros H. rewrite setBody_taken by done. by intros [= <-]. Qed.

Lemma setType_then_setBody_slot s ty ow setter rd n r r' :
  bodySetter r ≠ EmptyString →
  setBody setter rd n false (setType s ty ow r) = Ok r' →
  body_slot r' = body_slot r.
Proof.
  intros Hb H. apply setBody_taken_slot in H.
  - by rewrite H, setType_body_slot.
  - by rewrite setType_bodySetter.
Qed.

(** Once a setter owns the body, no call changes the owner, the reader
    or the content length. *)
Lemma step_keeps_body_slot (o : op) (r r' : Request) :
  bodySetter r ≠ EmptyString → step o r = Ok r' → body_slot r' = body_slot r.
Proof.
  intros Hb. destruct o; simpl.
  all: try (intros [= <-]).
  all: auto using WithPathObject_body_slot, WithHeaders_body_slot,
         WithCookies_body_slot.
  all: try (unfold_calls; by break_calls).
  - unfold WithChunked. repeat case_match; try by intros [= <-].
    by apply setBody_taken_slot.
  - unfold WithJSONPretty. repeat case_match; try by intros [= <-].
    by apply setType_then_setBody_slot.
  - unfold WithBytes. repeat case_match; try by intros [= <-].
    all: by apply setBody_taken_slot.
  - unfold WithText. repeat case_match; try by intros [= <-].
    by apply setType_then_setBody_slot.
  - unfold WithJSON. repeat case_match; try by intros [= <-].
    by apply setType_then_setBody_slot.
  - unfold WithForm. repeat case_match; try by intros [= <-].
    + intros Hw%write_fields_body_slot. by rewrite Hw, setType_body_slot.
    + intros [= <-]. unfold add_form. simpl. apply setType_body_slot.
  - unfold WithMultipart. repeat case_match; try by intros [= <-].
    + intros [= <-]. apply setType_body_slot.
    + intros Hs%setBody_taken_slot; [| simpl; by rewrite setType_bodySetter].
      rewrite Hs. apply setType_body_slot.
Qed.

Lemma run_keeps_body_slot (ops : list op) (r r' : Request) :
  bodySetter r ≠ EmptyString → run ops r = Ok r' → body_slot r' = body_slot r.
Proof.
  revert r. induction ops as [|o ops IH]; intros r Hb; simpl.
  - by intros [= <-].
  - destruct (step o r) as [r1|] eqn:E; simpl; [| done].
    pose proof (step_keeps_body_slot _ _ _ Hb E) as H1.
    intros H2. rewrite <- H1. apply IH; [| done].
    injection H1 as -> _ _. done.
Qed.

(** A call on a failed chain returns its receiver as it is; [WithMatcher]
    is the one method without the check. *)
Lemma step_failed (o : op) (r : Request) :
  Chain.failed (chain r) = true →
  (∀ m, o ≠ OpWithMatcher m) →
  step o r = Ok r.
Proof.
  intros Hf Hm. destruct o; simpl.
  all: try by (unfold_calls; unfold WithPathObject, WithHeaders, WithCookies;
               rewrite ?Hf).
  by destruct (Hm matcher).
Qed.

(** The forced flag is never reset. *)
Lemma setType_forceType s ty ow r : forceType (setType s ty ow r) = forceType r.
Proof. unfold_calls. by break_calls. Qed.

Lemma WithHeader_forceType k v r :
  forceType r = true → forceType (WithHeader k v r) = true.
Proof. unfold_calls. by break_calls. Qed.

Lemma WithCookie_forceType k v r : forceType (WithCookie k v r) = forceType r.
Proof. unfold_calls. by break_calls. Qed.

Lemma WithPath_forceType k v r : forceType (WithPath k v r) = forceType r.
Proof. unfold_calls. by break_calls. Qed.

Lemma on_multipart_forceType f r r' :
  on_multipart f r = Ok r' → forceType r' = forceType r.
Proof. unfold_calls. by break_calls. Qed.

Lemma setBody_forceType setter rd n ow r r' :
  setBody setter rd n ow r = Ok r' → forceType r' = forceType r.
Proof. unfold_calls. by break_calls. Qed.

Lemma write_fields_forceType f keys r r' :
  write_fields f keys r = Ok r' → forceType r' = forceType r.
Proof.
  revert r. induction keys as [|k keys IH]; intros r; simpl.
  - by intros [= ->].
  - destruct (Url.get_all f k); [done |].
    destruct (on_multipart _ r) as [r1|] eqn:E; simpl; [| done].
    intros H. by rewrite (IH _ H), (on_multipart_forceType _ _ _ E).
Qed.

Lemma step_forceType (o : op) (r r' : Request) :
  forceType r = true → step o r = Ok r' → forceType r' = true.
Proof.
  intros Hb. destruct o; simpl.
  all: try (intros [= <-]).
  all: try (unfold_calls; by break_calls).
  - unfold WithPathObject. repeat case_match; try done.
    all: apply (foldl_preserves (λ x, forceType x = true)); [| done].
    all: intros a b <-; apply WithPath_forceType.
  - unfold WithHeaders. case_match; [done |].
    apply (foldl_preserves (λ x, forceType x = true)); [| done].
    intros a b ?. by apply WithHeader_forceType.
  - unfold WithCookies. case_match; [done |].
    apply (foldl_preserves (λ x, forceType x = true)); [| done].
    intros a b <-. apply WithCookie_forceType.
  - unfold WithForm. repeat case_match; try by intros [= <-].
    + intros Hw%write_fields_forceType. by rewrite Hw, setType_forceType.
    + intros [= <-]. unfold add_form. simpl. by rewrite setType_forceType.
Qed.

Lemma run_forceType (ops : list op) (r r' : Request) :
  forceType r = true → run ops r = Ok r' → forceType r' = true.
Proof.
  revert r. induction ops as [|o ops IH]; intros r Hb; simpl.
  - by intros [= <-].
  - destruct (step o r) as [r1|] eqn:E; simpl; [| done].
    apply IH. by apply (step_forceType o r).
Qed.

(** ** The multipart writer and its buffer *)

Lemma on_multipart_inv f r r' :
  on_multipart f r = Ok r' →
  ∃ w buf, multipart r = Some w ∧ formbuf r = Some buf
    ∧ r' = set_formbuf (Some (f w buf).2) (set_multipart (Some (f w buf).1) r).
Proof.
  unfold on_multipart. destruct (multipart r) as [w|]; [| done].
  destruct (formbuf r) as [buf|]; [| done].
  destruct (f w buf) as [w' buf'] eqn:E. intros [= <-].
  exists w, buf. by rewrite E.
Qed.


Lemma WriteField_closes k v w buf :
  Multipart.closes (Multipart.WriteField k v w buf).1 = Multipart.closes w.
Proof. reflexivity. Qed.

Lemma CreateFormFile_closes k p w buf :
  Multipart.closes (Multipart.CreateFormFile k p w buf).1 = Multipart.closes w.
Proof. reflexivity. Qed.

Lemma Close_closes w buf :
  Multipart.closes (Multipart.Close w buf).1 = S (Multipart.closes w).
Proof. reflexivity. Qed.

Lemma on_multipart_closes f r r' :
  (∀ w buf, Multipart.closes (f w buf).1 = Multipart.closes w) →
  on_multipart f r = Ok r' → closes_of r' = closes_of r.
Proof.
  intros Hf (w & buf & Hw & Hb & ->)%on_multipart_inv.
  unfold closes_of. simpl. by rewrite Hw, Hf.
Qed.

Lemma on_multipart_wf f r r' : on_multipart f r = Ok r' → wf r'.
Proof.
  intros (w & buf & Hw & Hb & ->)%on_multipart_inv. unfold wf. simpl.
  split; eauto.
Qed.

Lemma setType_closes s ty ow r : closes_of (setType s ty ow r) = closes_of r.
Proof. unfold_calls. by break_calls. Qed.

Lemma setType_multipart s ty ow r : multipart (setType s ty ow r) = multipart r.
Proof. unfold_calls. by break_calls. Qed.

Lemma setType_formbuf s ty ow r : formbuf (setType s ty ow r) = formbuf r.
Proof. unfold_calls. by break_calls. Qed.

Lemma setType_wf s ty ow r : wf r → wf (setType s ty ow r).
Proof. unfold wf. by rewrite setType_multipart, setType_formbuf. Qed.

Lemma setBody_closes setter rd n ow r r' :
  setBody setter rd n ow r = Ok r' → closes_of r' = closes_of r.
Proof. unfold_calls. by break_calls. Qed.

Lemma setBody_wf setter rd n ow r r' :
  setBody setter rd n ow r = Ok r' → wf r → wf r'.
Proof. unfold wf. unfold_calls. by break_calls. Qed.

Lemma write_fields_closes f keys r r' :
  write_fields f keys r = Ok r' → closes_of r' = closes_of r.
Proof.
  revert r. induction keys as [|k keys IH]; intros r; simpl.
  - by intros [= ->].
  - destruct (Url.get_all f k); [done |].
    destruct (on_multipart _ r) as [r1|] eqn:E; simpl; [| done].
    intros H. rewrite (IH _ H).
    by apply (on_multipart_closes _ _ _ (WriteField_closes _ _) E).
Qed.

Lemma write_fields_wf f keys r r' :
  write_fields f keys r = Ok r' → wf r → wf r'.
Proof.
  revert r. induction keys as [|k keys IH]; intros r; simpl.
  - by intros [= ->].
  - destruct (Url.get_all f k); [done |].
    destruct (on_multipart _ r) as [r1|] eqn:E; simpl; [| done].
    intros H _. apply (IH _ H). by apply on_multipart_wf in E.
Qed.

Lemma closes_of_view r r' : mp_view r' = mp_view r → closes_of r' = closes_of r.
Proof. unfold mp_view, closes_of. by intros [= -> _]. Qed.

Lemma wf_view r r' : mp_view r' = mp_view r → wf r → wf r'.
Proof. unfold mp_view, wf. by intros [= -> ->]. Qed.

Lemma WithHeader_mp_view k v r : mp_view (WithHeader k v r) = mp_view r.
Proof. unfold_calls. by break_calls. Qed.

Lemma WithCookie_mp_view k v r : mp_view (WithCookie k v r) = mp_view r.
Proof. unfold_calls. by break_calls. Qed.

Lemma WithPath_mp_view k v r : mp_view (WithPath k v r) = mp_view r.
Proof. unfold_calls. by break_calls. Qed.

Lemma foldl_mp_view {B} (f : Request → B → Request) (l : list B) (r : Request) :
  (∀ a b, mp_view (f a b) = mp_view a) → mp_view (foldl f r l) = mp_view r.
Proof.
  intros Hf. apply (foldl_preserves (λ x, mp_view x = mp_view r)); [| done].
  intros a b <-. apply Hf.
Qed.

Lemma WithPathObject_mp_view o r : mp_view (WithPathObject o r) = mp_view r.
Proof.
  unfold WithPathObject. destruct (Chain.failed _); [done |].
  destruct o as [|m|[m|] why]; simpl; try done.
  - apply foldl_mp_view. intros. apply WithPath_mp_view.
  - rewrite foldl_mp_view; [done |]. intros. apply WithPath_mp_view.
Qed.

Lemma WithHeaders_mp_view hs r : mp_view (WithHeaders hs r) = mp_view r.
Proof.
  unfold WithHeaders. destruct (Chain.failed _); [done |].
  apply foldl_mp_view. intros. apply WithHeader_mp_view.
Qed.

Lemma WithCookies_mp_view cs r : mp_view (WithCookies cs r) = mp_view r.
Proof.
  unfold WithCookies. destruct (Chain.failed _); [done |].
  apply foldl_mp_view. intros. apply WithCookie_mp_view.
Qed.

Lemma mp_kept_refl r : mp_kept r r.
Proof. by split. Qed.

Lemma mp_kept_trans r1 r2 r3 : mp_kept r1 r2 → mp_kept r2 r3 → mp_kept r1 r3.
Proof. intros [H1 H2] [H3 H4]. split; [congruence | auto]. Qed.

Lemma mp_kept_view r r' : mp_view r' = mp_view r → mp_kept r r'.
Proof. intros H. split; [by apply closes_of_view | by apply wf_view]. Qed.

Lemma mp_kept_setType s ty ow r : mp_kept r (setType s ty ow r).
Proof. split; [apply setType_closes | apply setType_wf]. Qed.

Lemma mp_kept_chain_fail msg r : mp_kept r (chain_fail msg r).
Proof. by apply mp_kept_view. Qed.

Lemma mp_kept_setBody setter rd n ow r r' :
  setBody setter rd n ow r = Ok r' → mp_kept r r'.
Proof.
  intros H. split; [by apply setBody_closes in H |].
  by apply (setBody_wf _ _ _ _ _ _ H).
Qed.

Lemma mp_kept_on_multipart f r r' :
  (∀ w buf, Multipart.closes (f w buf).1 = Multipart.closes w) →
  on_multipart f r = Ok r' → mp_kept r r'.
Proof.
  intros Hf H. split; [by apply (on_multipart_closes f) |].
  intros _. by apply on_multipart_wf in H.
Qed.

Lemma mp_kept_write_fields f keys r r' :
  write_fields f keys r = Ok r' → mp_kept r r'.
Proof.
  intros H. split; [by apply write_fields_closes in H |].
  by apply (write_fields_wf _ _ _ _ H).
Qed.

#[local] Hint Resolve mp_kept_refl mp_kept_setType mp_kept_chain_fail
  mp_kept_setBody mp_kept_write_fields : core.

Lemma mp_kept_WithFile key path reader opened r r' :
  WithFile key path reader opened r = Ok r' → mp_kept r r'.
Proof.
  unfold WithFile. destruct (Chain.failed _); [by intros [= <-] |].
  destruct (multipart (setType _ _ _ r)).
  2:{ intros [= <-]. eapply mp_kept_trans; [apply mp_kept_setType | done]. }
  destruct (on_multipart _ (setType _ _ _ r)) as [r1|] eqn:E1; simpl; [| done].
  apply (mp_kept_on_multipart _ _ _ (CreateFormFile_closes _ _)) in E1.
  assert (mp_kept r r1) as H1
    by (eapply mp_kept_trans; [apply mp_kept_setType | done]).
  match goal with |- context [match ?x with inl _ => _ | inr _ => _ end] =>
    destruct x as [s|e] end.
  2:{ intros [= <-]. eapply mp_kept_trans; [exact H1 | done]. }
  destruct (on_multipart _ r1) as [r2|] eqn:E2; simpl; [| done].
  apply mp_kept_on_multipart in E2; [| done].
  assert (mp_kept r r2) as H2 by (by eapply mp_kept_trans).
  destruct (read_err s); intros [= <-]; [| done].
  eapply mp_kept_trans; [exact H2 | done].
Qed.

Lemma mp_kept_WithMultipart boundary r r' :
  WithMultipart boundary r = Ok r' → mp_kept r r'.
Proof.
  unfold WithMultipart. destruct (Chain.failed _); [by intros [= <-] |].
  destruct (multipart (setType _ _ _ r)) eqn:E.
  { intros [= <-]. apply mp_kept_setType. }
  rewrite setType_multipart in E.
  intros [Hc Hw]%mp_kept_setBody. split.
  - rewrite Hc. unfold closes_of. simpl. by rewrite E.
  - intros _. apply Hw. unfold wf. simpl. split; eauto.
Qed.

(** No call closes the multipart writer, and every call keeps the writer
    and its buffer together. *)
Lemma step_multipart (o : op) (r r' : Request) :
  step o r = Ok r' → mp_kept r r'.
Proof.
  destruct o; simpl; intros H.
  all: try (injection H as <-; apply mp_kept_view;
            first [ apply WithPathObject_mp_view | apply WithHeaders_mp_view
                  | apply WithCookies_mp_view | unfold_calls; by break_calls ]).
  - revert H. unfold WithChunked. repeat case_match; try (intros [= <-]); eauto.
  - revert H. unfold WithJSONPretty. repeat case_match; try (intros [= <-]); eauto.
    intros Hs. eapply mp_kept_trans; [apply mp_kept_setType | by eapply mp_kept_setBody].
  - revert H. unfold WithBytes. repeat case_match; try (intros [= <-]); eauto.
  - revert H. unfold WithText. repeat case_match; try (intros [= <-]); eauto.
    intros Hs. eapply mp_kept_trans; [apply mp_kept_setType | by eapply mp_kept_setBody].
  - revert H. unfold WithJSON. repeat case_match; try (intros [= <-]); eauto.
    intros Hs. eapply mp_kept_trans; [apply mp_kept_setType | by eapply mp_kept_setBody].
  - revert H. unfold WithForm. repeat case_match; try (intros [= <-]); eauto.
    + intros Hs. eapply mp_kept_trans; [apply mp_kept_setType | by eapply mp_kept_write_fields].
    + eapply mp_kept_trans; [apply mp_kept_setType |]. by apply mp_kept_view.
  - revert H. unfold WithFormField. repeat case_match; try (intros [= <-]); eauto.
    + intros Hs. eapply mp_kept_trans; [apply mp_kept_setType |].
      by apply (mp_kept_on_multipart _ _ _ (WriteField_closes _ _)) in Hs.
    + eapply mp_kept_trans; [apply mp_kept_setType |]. by apply mp_kept_view.
  - by apply mp_kept_WithFile in H.
  - revert H. unfold WithFileBytes. case_match; [by intros [= <-] |].
    apply mp_kept_WithFile.
  - by apply mp_kept_WithMultipart in H.
Qed.

Lemma run_multipart (ops : list op) (r r' : Request) :
  run ops r = Ok r' → mp_kept r r'.
Proof.
  revert r. induction ops as [|o ops IH]; intros r; simpl.
  - by intros [= <-].
  - destruct (step o r) as [r1|] eqn:E; simpl; [| done].
    intros H. eapply mp_kept_trans; [by apply (step_multipart o) | by apply IH].
Qed.



(** ** The sticky chain and WithMatcher *)

(** C3. [WithMatcher] has no check of the chain: on a request whose
    chain has failed it still appends the matcher, so the request it
    returns is not the receiver as it was. *)
Theorem WithMatcher_on_failed_chain (matcher : Matcher) (r : Request) :
  Chain.failed (chain r) = true →
  matchers (WithMatcher matcher r) = matchers r ++ [matcher]
  ∧ WithMatcher matcher r ≠ r
  ∧ chain (WithMatcher matcher r) = chain r.
Proof.
  intros _. repeat split.
  intros H%(f_equal matchers). simpl in H.
  apply (f_equal length) in H. rewrite length_app in H. simpl in H. lia.
Qed.

Lemma WithMatcher_on_failed_chain_witness :
  ∃ r, failed_example = Ok r
    ∧ Chain.failed (chain r) = true
    ∧ matchers r = []
    ∧ matchers (WithMatcher 7%nat r) = [7%nat].
Proof.
  eexists. split; [reflexivity |]. split; [reflexivity |].
  split; [reflexivity |].
  refine (proj1 (WithMatcher_on_failed_chain 7%nat _ _)). reflexivity.
Defined.

(** ** WithFile before WithMultipart *)

Lemma setType_unforced s ty r :
  forceType r = false →
  Http.Get (header r) "Content-Type" ≠ EmptyString →
  Http.Get (header r) "Content-Type" ≠ ty →
  setType s ty false r
  = chain_fail (ambiguous_type_message (Http.Get (header r) "Content-Type")
                  (typeSetter r) ty s) r.
Proof.
  intros Hf H1%is_empty_false H2%String.eqb_neq. unfold setType.
  by rewrite Hf, H1, H2.
Qed.

Lemma setType_forced s ty ow r : forceType r = true → setType s ty ow r = r.
Proof. intros Hf. unfold setType. by rewrite Hf. Qed.

Lemma setType_chain_ok s ty r :
  forceType r = true ∨ Http.Get (header r) "Content-Type" = EmptyString
  ∨ Http.Get (header r) "Content-Type" = ty →
  chain (setType s ty false r) = chain r.
Proof.
  unfold setType. destruct (forceType r); [done |].
  intros [| [-> | ->]]; [done | done |]. simpl.
  rewrite String.eqb_refl. simpl. by rewrite andb_false_r.
Qed.

(** C9, as amended. [WithFile] on a request with no failure recorded and
    no multipart writer returns, leaves the chain failed, and adds
    nothing: the buffer, the writer and the body are as before. The
    message names [WithMultipart] when the content type inferred for the
    file did not clash (it was forced, or unset, or multipart already);
    when it clashed, the message kept is the content-type conflict. *)
Theorem WithFile_without_multipart (key path : string)
    (reader : list (option Stream)) (opened : Stream + string) (r : Request) :
  Chain.failed (chain r) = false →
  multipart r = None →
  ∃ r', WithFile key path reader opened r = Ok r'
    ∧ Chain.failed (chain r') = true
    ∧ formbuf r' = formbuf r
    ∧ multipart r' = None
    ∧ body_slot r' = body_slot r
    ∧ (forceType r = true ∨ Http.Get (header r) "Content-Type" = EmptyString
       ∨ Http.Get (header r) "Content-Type" = "multipart/form-data" →
       Chain.message (chain r') = Some file_requires_multipart_message
       ∧ occurs_in "WithMultipart" file_requires_multipart_message)
    ∧ (forceType r = false →
       Http.Get (header r) "Content-Type" ≠ EmptyString →
       Http.Get (header r) "Content-Type" ≠ "multipart/form-data" →
       Chain.message (chain r')
       = Some (ambiguous_type_message (Http.Get (header r) "Content-Type")
                 (typeSetter r) "multipart/form-data" "WithFile")).
Proof.
  intros Hf Hm. unfold WithFile. rewrite Hf, setType_multipart, Hm.
  eexists. split; [reflexivity |].
  split; [apply chain_fail_failed |].
  split; [apply setType_formbuf |].
  split; [by rewrite <- Hm, <- (setType_multipart "WithFile" "multipart/form-data" false r) |].
  split; [apply setType_body_slot |].
  split.
  - intros H. split.
    + apply chain_fail_fresh. by rewrite setType_chain_ok.
    + apply occurs_in_contains. reflexivity.
  - intros H1 H2 H3. rewrite setType_unforced by done.
    rewrite chain_fail_sticky by apply chain_fail_failed.
    by apply chain_fail_fresh.
Qed.

Lemma WithFile_without_multipart_witness :
  ∃ r r', example "/" [] = Ok r
    ∧ WithFile "avatar" "./john.png" [] (inr "no such file") r = Ok r'
    ∧ Chain.message (chain r') = Some file_requires_multipart_message.
Proof.
  eexists. 
  destruct (WithFile_without_multipart "avatar" "./john.png" []
              (inr "no such file")
              (mkReq example_config makeChain (example_http "GET") "/" None None
                 None None EmptyString EmptyString false false []))
    as (r' & H1 & _ & _ & _ & _ & H2 & _); [reflexivity | reflexivity |].
  exists r'. split; [reflexivity |]. split; [exact H1 |].
  apply H2. right. left. reflexivity.
Defined.

(** C9, the counterexample. After [WithJSON] the content type is owned
    by [WithJSON]; [WithFile] without [WithMultipart] then fails on the
    content type first, and the message kept does not name
    [WithMultipart]. *)
Lemma WithFile_without_multipart_unnamed :
  (r ← example "/" [OpWithJSON (inl "{}")];
   r' ← WithFile "avatar" "./john.png" [] (inr "no such file") r;
   Ok (Chain.failed (chain r), multipart r, Chain.message (chain r')))
  = Ok (false, None,
        Some (ambiguous_type_message "application/json; charset=utf-8" "WithJSON"
                "multipart/form-data" "WithFile"))
  ∧ ¬ occurs_in "WithMultipart"
        (ambiguous_type_message "application/json; charset=utf-8" "WithJSON"
           "multipart/form-data" "WithFile").
Proof.
  split; [vm_compute; reflexivity |].
  apply not_occurs_in. vm_compute. reflexivity.
Qed.

(** ** WithBytes with a nil slice *)

(** C10, as amended. On a request with no failure recorded and a free
    body slot, [WithBytes(nil)] returns, records no failure, leaves no
    body reader and a content length of zero, and takes the body slot
    under the label WithBytes. After any further calls the slot is still
    so, and [setBody] under any label without the override flag returns,
    leaves the slot as it is and the chain failed; the message recorded
    is the body conflict naming WithBytes and the new label, if no
    failure was recorded before that call. *)
Theorem WithBytes_nil_claims_body (r : Request) :
  Chain.failed (chain r) = false →
  bodySetter r = EmptyString →
  ∃ r', WithBytes None r = Ok r'
    ∧ Http.Body (http r') = None
    ∧ Http.ContentLength (http r') = 0
    ∧ bodySetter r' = "WithBytes"
    ∧ chain r' = chain r
    ∧ ∀ ops r2, run ops r' = Ok r2 →
        body_slot r2 = ("WithBytes", None, 0)
        ∧ ∀ setter reader n,
            ∃ r3, setBody setter reader n false r2 = Ok r3
              ∧ body_slot r3 = ("WithBytes", None, 0)
              ∧ Chain.failed (chain r3) = true
              ∧ (Chain.failed (chain r2) = false →
                 Chain.message (chain r3)
                 = Some (ambiguous_body_message "WithBytes" setter)
                 ∧ occurs_in "WithBytes" (ambiguous_body_message "WithBytes" setter)
                 ∧ occurs_in setter (ambiguous_body_message "WithBytes" setter)).
Proof.
  intros Hf Hb.
  assert (WithBytes None r
          = Ok (set_bodySetter "WithBytes"
                  (set_http (Http.set_body None 0 (http r)) r))) as ->
    by (unfold WithBytes, setBody; by rewrite Hf, Hb).
  eexists. split; [reflexivity |]. do 4 (split; [reflexivity |]).
  intros ops r2 Hrun. apply run_keeps_body_slot in Hrun; [| done].
  split; [exact Hrun |].
  intros setter reader n.
  assert (bodySetter r2 = "WithBytes") as Hb2 by (by injection Hrun).
  rewrite setBody_taken by (by rewrite Hb2).
  eexists. split; [reflexivity |]. split; [exact Hrun |].
  split; [apply chain_fail_failed |].
  intros Hf2. rewrite Hb2. split; [by apply chain_fail_fresh |].
  apply body_message_names.
Qed.

Lemma WithBytes_nil_claims_body_witness :
  ∃ r r', example "/" [] = Ok r
    ∧ WithBytes None r = Ok r'
    ∧ bodySetter r' = "WithBytes"
    ∧ Http.Body (http r') = None.
Proof.
  eexists.
  destruct (WithBytes_nil_claims_body
              (mkReq example_config makeChain (example_http "GET") "/" None None
                 None None EmptyString EmptyString false false []))
    as (r' & H1 & H2 & _ & H3 & _); [reflexivity | reflexivity |].
  exists r'. split; [reflexivity |]. split; [exact H1 |].
  split; [exact H3 | exact H2].
Defined.

(** C10, the counterexample. [WithFormField] claims the content type,
    [WithBytes(nil)] then takes the free body slot, and [WithText], a
    body-setting call under another label, fails on the content type:
    the message kept does not name WithBytes. *)
Lemma WithBytes_nil_conflict_unnamed :
  (r ← example "/" [OpWithFormField "a" (VInt 1)];
   r1 ← WithBytes None r;
   r2 ← WithText "x" r1;
   Ok (Chain.failed (chain r), bodySetter r, bodySetter r1,
       Chain.failed (chain r1), Chain.message (chain r2)))
  = Ok (false, EmptyString, "WithBytes", false,
        Some (ambiguous_type_message "application/x-www-form-urlencoded"
                "WithFormField" "text/plain; charset=utf-8" "WithText"))
  ∧ ¬ occurs_in "WithBytes"
        (ambiguous_type_message "application/x-www-form-urlencoded"
           "WithFormField" "text/plain; charset=utf-8" "WithText").
Proof.
  split; [vm_compute; reflexivity |].
  apply not_occurs_in. vm_compute. reflexivity.
Qed.

(** ** The forced content type *)

Lemma setBody_header setter rd n ow r r' :
  setBody setter rd n ow r = Ok r' → header r' = header r.
Proof. unfold_calls. by break_calls. Qed.

Lemma on_multipart_header f r r' :
  on_multipart f r = Ok r' → header r' = header r.
Proof. by intros (w & buf & _ & _ & ->)%on_multipart_inv. Qed.

Lemma write_fields_header f keys r r' :
  write_fields f keys r = Ok r' → header r' = header r.
Proof.
  revert r. induction keys as [|k keys IH]; intros r; simpl.
  - by intros [= ->].
  - destruct (Url.get_all f k); [done |].
    destruct (on_multipart _ r) as [r1|] eqn:E; simpl; [| done].
    intros H. by rewrite (IH _ H), (on_multipart_header _ _ _ E).
Qed.

Lemma WithFile_forced_header key path reader opened r r' :
  forceType r = true →
  WithFile key path reader opened r = Ok r' → header r' = header r.
Proof.
  intros Hf. unfold WithFile. rewrite setType_forced by done.
  destruct (Chain.failed _); [by intros [= <-] |].
  destruct (multipart r); [| by intros [= <-]].
  destruct (on_multipart _ r) as [r1|] eqn:E1; simpl; [| done].
  apply on_multipart_header in E1.
  match goal with |- context [match ?x with inl _ => _ | inr _ => _ end] =>
    destruct x as [s|e] end; [| by intros [= <-]].
  destruct (on_multipart _ r1) as [r2|] eqn:E2; simpl; [| done].
  apply on_multipart_header in E2.
  destruct (read_err s); intros [= <-]; change (header r2 = header r); congruence.
Qed.

(** With the content type forced, a call that infers one leaves the
    headers as they are. *)
Lemma forced_header_kept (o : op) (r r' : Request) :
  forceType r = true → infers_type o = true →
  step o r = Ok r' → header r' = header r.
Proof.
  intros Hf Ho. destruct o; try done; simpl.
  - unfold WithJSONPretty. rewrite setType_forced by done.
    repeat case_match; try by intros [= <-]. apply setBody_header.
  - unfold WithText. rewrite setType_forced by done.
    repeat case_match; try by intros [= <-]. apply setBody_header.
  - unfold WithJSON. rewrite setType_forced by done.
    repeat case_match; try by intros [= <-]. apply setBody_header.
  - unfold WithForm. rewrite !setType_forced by done.
    repeat case_match; try by intros [= <-]. apply write_fields_header.
  - unfold WithFormField. rewrite !setType_forced by done.
    repeat case_match; try by intros [= <-]. apply on_multipart_header.
  - by apply WithFile_forced_header.
  - unfold WithFileBytes. case_match; [by intros [= <-] |].
    by apply WithFile_forced_header.
  - unfold WithMultipart. rewrite setType_forced by done.
    repeat case_match; try by intros [= <-].
    intros Hs%setBody_header. exact Hs.
Qed.

(** C2, as amended. On a request with no failure recorded, [WithHeader]
    with a key that is Content-Type records no failure, sets the forced
    flag and makes WithHeader the owner of the content type. If the flag
    was not set before, the values the header had are dropped and [v] is
    the only one; if it was set, [v] is added after the values already
    there. From then on, after any further calls, the flag is still set,
    [setType] returns the request as it is (no failure, no change of the
    header), and a call that infers a content type for its body leaves
    the headers as they are. *)
Theorem WithHeader_content_type_forces (k v : string) (r : Request) :
  Chain.failed (chain r) = false →
  Http.CanonicalHeaderKey k = "Content-Type" →
  chain (WithHeader k v r) = chain r
  ∧ forceType (WithHeader k v r) = true
  ∧ typeSetter (WithHeader k v r) = "WithHeader"
  ∧ header (WithHeader k v r) !! "Content-Type"
    = Some ((if forceType r then default [] (header r !! "Content-Type") else [])
            ++ [v])
  ∧ (forceType r = false → Http.Get (header (WithHeader k v r)) "Content-Type" = v)
  ∧ ∀ ops r2, run ops (WithHeader k v r) = Ok r2 →
      forceType r2 = true
      ∧ (∀ setter ty ow, setType setter ty ow r2 = r2)
      ∧ ∀ o r3, infers_type o = true → step o r2 = Ok r3 →
          header r3 = header r2.
Proof.
  intros Hf Hk.
  assert (header (WithHeader k v r) !! "Content-Type"
    = Some ((if forceType r then default [] (header r !! "Content-Type") else [])
            ++ [v])) as Hh.
  { unfold WithHeader, Http.Add. rewrite Hf, Hk. simpl.
    destruct (forceType r); unfold header, set_header; simpl.
    - by rewrite lookup_insert_eq.
    - by rewrite lookup_insert_eq, lookup_delete_eq. }
  assert (forceType (WithHeader k v r) = true) as Hforce
    by (unfold WithHeader; by rewrite Hf, Hk).
  split; [unfold WithHeader; rewrite Hf, Hk; by destruct (forceType r) |].
  split; [exact Hforce |].
  split; [unfold WithHeader; by rewrite Hf, Hk |].
  split; [exact Hh |].
  split.
  - intros Hu. unfold Http.Get.
    change (Http.CanonicalHeaderKey "Content-Type") with "Content-Type".
    by rewrite Hh, Hu.
  - intros ops r2 Hrun. pose proof (run_forceType _ _ _ Hforce Hrun) as H2.
    split; [exact H2 |].
    split; [intros; by apply setType_forced |].
    intros o r3. by apply forced_header_kept.
Qed.

Lemma WithHeader_content_type_forces_witness :
  ∃ r, example "/" [OpWithJSON (inl "{}")] = Ok r
    ∧ Http.Get (header r) "Content-Type" = "application/json; charset=utf-8"
    ∧ Http.Get (header (WithHeader "content-type" "text/xml" r)) "Content-Type"
      = "text/xml"
    ∧ forceType (WithHeader "content-type" "text/xml" r) = true.
Proof.
  eexists. split; [reflexivity |]. split; [reflexivity |].
  match goal with |- Http.Get (header (WithHeader _ _ ?r)) _ = _ ∧ _ =>
    destruct (WithHeader_content_type_forces "content-type" "text/xml" r)
      as (_ & H1 & _ & _ & H2 & _); [reflexivity | reflexivity |]
  end.
  split; [apply H2; reflexivity | exact H1].
Defined.

(** C2, the counterexample. A second explicit Content-Type header does
    not overwrite the first: it is added after it, and the value the
    header reads as is still the first. *)
Lemma WithHeader_content_type_not_overwritten :
  (r ← example "/" [OpWithHeader "Content-Type" "text/a"];
   Ok (Chain.failed (chain r),
       Http.Get (header r) "Content-Type",
       header (WithHeader "Content-Type" "text/b" r) !! "Content-Type",
       Http.Get (header (WithHeader "Content-Type" "text/b" r)) "Content-Type"))
  = Ok (false, "text/a", Some ["text/a"; "text/b"], "text/a").
Proof. vm_compute. reflexivity. Qed.

(** ** Encoding *)

Lemma encode_url_frame r :
  chain (encode_url r) = chain r ∧ config (encode_url r) = config r
  ∧ multipart (encode_url r) = multipart r ∧ formbuf (encode_url r) = formbuf r
  ∧ form (encode_url r) = form r ∧ query (encode_url r) = query r
  ∧ bodySetter (encode_url r) = bodySetter r
  ∧ typeSetter (encode_url r) = typeSetter r
  ∧ forceType (encode_url r) = forceType r
  ∧ wsUpgrade (encode_url r) = wsUpgrade r
  ∧ header (encode_url r) = header r
  ∧ matchers (encode_url r) = matchers r
  ∧ body_slot (encode_url r) = body_slot r.
Proof.
  unfold encode_url, set_url_of, header, body_slot. simpl.
  destruct (query r) eqn:E; simpl; rewrite ?E; repeat split; reflexivity.
Qed.

Lemma encodeRequest_failed r :
  Chain.failed (chain r) = true → encodeRequest r = Ok (r, false).
Proof. intros H. unfold encodeRequest. by rewrite H. Qed.

Lemma encodeRequest_multipart r w buf :
  Chain.failed (chain r) = false →
  multipart r = Some w → formbuf r = Some buf →
  encodeRequest r = Ok (encode_multipart w buf (encode_url r), true).
Proof.
  intros Hf Hw Hb. unfold encodeRequest. rewrite Hf. fold (encode_url r).
  destruct (encode_url_frame r) as (_ & _ & Hm & Hbuf & _).
  rewrite Hm, Hw. unfold on_multipart. rewrite Hm, Hw, Hbuf, Hb.
  destruct (Multipart.Close w buf) as [w' buf'] eqn:E. simpl.
  unfold encode_multipart. rewrite E. simpl.
  unfold setBody. simpl. by rewrite andb_false_r.
Qed.

Lemma encodeRequest_form r f :
  Chain.failed (chain r) = false →
  multipart r = None → form r = Some f →
  encodeRequest r
  = (r' ← setBody "WithForm or WithFormField"
            (Some (Http.StringsReader (Url.Encode f))) (len (Url.Encode f)) false
            (encode_url r);
     Ok (r', true)).
Proof.
  intros Hf Hw Hb. unfold encodeRequest. rewrite Hf. fold (encode_url r).
  destruct (encode_url_frame r) as (_ & _ & Hm & _ & Hform & _).
  by rewrite Hm, Hw, Hform, Hb.
Qed.

Lemma encodeRequest_plain r :
  Chain.failed (chain r) = false →
  multipart r = None → form r = None →
  encodeRequest r = Ok (encode_url r, true).
Proof.
  intros Hf Hw Hb. unfold encodeRequest. rewrite Hf. fold (encode_url r).
  destruct (encode_url_frame r) as (_ & _ & Hm & _ & Hform & _).
  by rewrite Hm, Hw, Hform, Hb.
Qed.

(** [encodeRequest] returns on every request that has its buffer when it
    has a writer. *)
Lemma encodeRequest_total r :
  wf r → ∃ r' ok, encodeRequest r = Ok (r', ok).
Proof.
  intros Hwf. destruct (Chain.failed (chain r)) eqn:Hf.
  { rewrite encodeRequest_failed by done. eauto. }
  destruct (multipart r) as [w|] eqn:Hw.
  { destruct (proj1 Hwf) as [buf Hb]; [by rewrite Hw |].
    rewrite (encodeRequest_multipart _ _ _ Hf Hw Hb). eauto. }
  destruct (form r) as [f|] eqn:Hform.
  - rewrite (encodeRequest_form _ _ Hf Hw Hform). unfold setBody. simpl.
    rewrite andb_false_r. destruct (negb _); simpl; eauto.
  - rewrite encodeRequest_plain by done. eauto.
Qed.

Lemma setType_overwrite s ty r :
  setType s ty true r
  = if forceType r then r
    else set_header (<["Content-Type" := [ty]]> (header r)) (set_typeSetter s r).
Proof. reflexivity. Qed.

Lemma encode_multipart_spec w buf r :
  let r' := encode_multipart w buf r in
  multipart r' = Some (Multipart.Close w buf).1
  ∧ formbuf r' = Some (Multipart.Close w buf).2
  ∧ Http.ContentLength (http r') = len (Multipart.Close w buf).2
  ∧ Http.Body (http r') = Some Http.FormBuf
  ∧ bodySetter r' = "Expect"
  ∧ chain r' = chain r
  ∧ config r' = config r
  ∧ wsUpgrade r' = wsUpgrade r
  ∧ (forceType r = false →
     header r' !! "Content-Type" = Some [Multipart.FormDataContentType w]
     ∧ typeSetter r' = "Expect")
  ∧ (forceType r = true → header r' = header r ∧ typeSetter r' = typeSetter r).
Proof.
  unfold encode_multipart. rewrite setType_overwrite. simpl.
  destruct (forceType r) eqn:Hf; unfold header; simpl; repeat split; try done.
  by rewrite lookup_insert_eq.
Qed.

Lemma FormDataContentType_boundary w :
  String.prefix "multipart/form-data; boundary=" (Multipart.FormDataContentType w) = true
  ∧ occurs_in (Multipart.boundary w) (Multipart.FormDataContentType w).
Proof.
  unfold Multipart.FormDataContentType. split; [apply prefix_append |].
  destruct (Multipart.has_tspecial _); eauto with names.
Qed.

(** What the round trip does to a request, once encoded. *)
Lemma encodeWebsocketRequest_mp_view r :
  mp_view (encodeWebsocketRequest r).1 = mp_view r.
Proof. unfold encodeWebsocketRequest. by repeat case_match. Qed.

Lemma sendRequest_mp_view r r' resp ev :
  sendRequest r = Ok (r', resp, ev) → mp_view r' = mp_view r.
Proof. unfold sendRequest. repeat case_match; try done; by intros [= <- _ _]. Qed.

Lemma sendWebsocketRequest_mp_view r r' resp ev :
  sendWebsocketRequest r = Ok (r', resp, ev) → mp_view r' = mp_view r.
Proof.
  unfold sendWebsocketRequest. repeat case_match; try done; by intros [= <- _ _].
Qed.

Lemma roundTrip_mp_view r r' resp ev :
  roundTrip r = Ok (r', resp, ev) →
  ∃ r1 ok, encodeRequest r = Ok (r1, ok) ∧ mp_view r' = mp_view r1.
Proof.
  unfold roundTrip. destruct (encodeRequest r) as [[r1 ok]|]; simpl; [| done].
  intros H. exists r1, ok. split; [done |]. revert H.
  destruct ok; simpl; [| by intros [= <- _ _]].
  pose proof (encodeWebsocketRequest_mp_view r1) as Hws.
  destruct (wsUpgrade r1) eqn:Hu.
  - destruct (encodeWebsocketRequest r1) as [r2 ok2]. simpl in Hws.
    destruct ok2; simpl; [| by intros [= <- _ _]].
    destruct (wsUpgrade r2).
    + destruct (sendWebsocketRequest r2) as [[[r3 [resp3 ws3]] ev3]|] eqn:E;
        simpl; [| done].
      apply sendWebsocketRequest_mp_view in E.
      destruct resp3; intros [= <- _ _]; congruence.
    + destruct (sendRequest r2) as [[[r3 resp3] ev3]|] eqn:E; simpl; [| done].
      apply sendRequest_mp_view in E.
      destruct resp3; intros [= <- _ _]; congruence.
  - simpl. rewrite Hu.
    destruct (sendRequest r1) as [[[r3 resp3] ev3]|] eqn:E; simpl; [| done].
    apply sendRequest_mp_view in E.
    destruct resp3; intros [= <- _ _]; congruence.
Qed.

(** C8, as amended. When [encodeRequest] runs on a request with no
    failure recorded and an open multipart writer, it returns with the
    writer closed once more than before, the closing boundary line
    appended to the buffer, the length of the buffer as the content
    length, the buffer as the body under the label Expect, and no
    failure recorded. Unless the content type is forced, the
    Content-Type header becomes the one value that the writer generates,
    multipart/form-data with its boundary; when it is forced, the
    headers stay as they are. No call of the builder closes the writer,
    and a round trip closes it exactly once. *)
Theorem multipart_finalized_in_encoding :
  (∀ r w buf,
      Chain.failed (chain r) = false →
      multipart r = Some w → formbuf r = Some buf →
      ∃ r', encodeRequest r = Ok (r', true)
        ∧ closes_of r' = S (closes_of r)
        ∧ formbuf r'
          = Some (buf +:+ crlf +:+ "--" +:+ Multipart.boundary w +:+ "--" +:+ crlf)
        ∧ Http.ContentLength (http r')
          = len (buf +:+ crlf +:+ "--" +:+ Multipart.boundary w +:+ "--" +:+ crlf)
        ∧ Http.Body (http r') = Some Http.FormBuf
        ∧ bodySetter r' = "Expect"
        ∧ chain r' = chain r
        ∧ (forceType r = false →
           header r' !! "Content-Type" = Some [Multipart.FormDataContentType w]
           ∧ String.prefix "multipart/form-data; boundary="
               (Multipart.FormDataContentType w) = true
           ∧ occurs_in (Multipart.boundary w) (Multipart.FormDataContentType w)
           ∧ typeSetter r' = "Expect")
        ∧ (forceType r = true →
           header r' = header r ∧ typeSetter r' = typeSetter r))
  ∧ (∀ ops r r', run ops r = Ok r' → closes_of r' = closes_of r)
  ∧ (∀ r r' resp ev,
        Chain.failed (chain r) = false → wf r → is_Some (multipart r) →
        roundTrip r = Ok (r', resp, ev) → closes_of r' = S (closes_of r)).
Proof.
  assert (∀ r w buf,
      Chain.failed (chain r) = false →
      multipart r = Some w → formbuf r = Some buf →
      closes_of (encode_multipart w buf (encode_url r)) = S (closes_of r)) as Hc.
  { intros r w buf Hf Hw Hb. unfold closes_of.
    destruct (encode_multipart_spec w buf (encode_url r)) as (-> & _).
    by rewrite Hw. }
  split; [| split].
  - intros r w buf Hf Hw Hb. eexists.
    split; [by apply encodeRequest_multipart |].
    destruct (encode_multipart_spec w buf (encode_url r))
      as (H1 & H2 & H3 & H4 & H5 & H6 & _ & _ & H7 & H8).
    destruct (encode_url_frame r)
      as (E1 & _ & _ & _ & _ & _ & _ & E2 & E3 & _ & E4 & _).
    split; [by apply Hc |].
    split; [exact H2 |]. split; [exact H3 |]. split; [exact H4 |].
    split; [exact H5 |]. split; [congruence |].
    rewrite E3, E4, E2 in *. split.
    + intros Hu. destruct (H7 Hu) as [-> ->].
      destruct (FormDataContentType_boundary w). done.
    + exact H8.
  - intros ops r r' H. by apply run_multipart in H as [H _].
  - intros r r' resp ev Hf Hwf [w Hw] (r1 & ok & He & Hv)%roundTrip_mp_view.
    destruct (proj1 Hwf) as [buf Hb]; [by rewrite Hw |].
    rewrite (encodeRequest_multipart _ _ _ Hf Hw Hb) in He.
    injection He as <- _. rewrite (closes_of_view _ _ Hv). by apply Hc.
Qed.

Lemma multipart_finalized_in_encoding_witness :
  example "/" [OpWithMultipart "xyz"; OpWithFormField "a" (VInt 1)]
  = Ok multipart_example
  ∧ ∃ r', encodeRequest multipart_example = Ok (r', true)
      ∧ closes_of r' = 1%nat
      ∧ header r' !! "Content-Type" = Some ["multipart/form-data; boundary=xyz"]
      ∧ Http.ContentLength (http r') = 63.
Proof.
  split; [vm_compute; reflexivity |].
  destruct (proj1 multipart_finalized_in_encoding multipart_example _ _
              eq_refl eq_refl eq_refl)
    as (r' & H1 & H2 & _ & H3 & _ & _ & _ & H4 & _).
  exists r'. split; [exact H1 |]. split; [exact H2 |].
  split; [apply (H4 eq_refl) | exact H3].
Defined.

(** C8, the counterexample. With the content type forced by an explicit
    header, encoding closes the writer but leaves the Content-Type
    header as the explicit call set it, without the boundary that the
    writer generates. *)
Lemma multipart_content_type_kept_when_forced :
  (r ← example "/" [OpWithHeader "Content-Type" "multipart/form-data";
                    OpWithMultipart "xyz"; OpWithFormField "a" (VInt 1)];
   '(r', ok) ← encodeRequest r;
   Ok (Chain.failed (chain r), Multipart.FormDataContentType <$> multipart r',
       ok, header r' !! "Content-Type", closes_of r', Chain.failed (chain r')))
  = Ok (false, Some "multipart/form-data; boundary=xyz",
        true, Some ["multipart/form-data"], 1%nat, false).
Proof. vm_compute. reflexivity. Qed.

(** ** Websocket upgrade with a body *)

#[local] Arguments encode_multipart : simpl never.
#[local] Arguments encode_url : simpl never.
#[local] Arguments encodeWebsocketRequest : simpl never.
#[local] Arguments chain_fail : simpl never.

Lemma encodeWebsocketRequest_body r :
  Chain.failed (chain r) = false → bodySetter r ≠ EmptyString →
  encodeWebsocketRequest r
  = (chain_fail (websocket_body_message (bodySetter r)) r, false).
Proof.
  intros Hf Hb%is_empty_false. unfold encodeWebsocketRequest.
  by rewrite Hf, Hb.
Qed.

Lemma encodeWebsocketRequest_failed r :
  Chain.failed (chain r) = true → encodeWebsocketRequest r = (r, false).
Proof. intros Hf. unfold encodeWebsocketRequest. by rewrite Hf. Qed.

(** The round trip stops after an encoding step that says no. *)
Lemma roundTrip_not_encoded r r1 :
  encodeRequest r = Ok (r1, false) → roundTrip r = Ok (r1, None, []).
Proof. intros H. unfold roundTrip. by rewrite H. Qed.

Lemma roundTrip_websocket_refused r r1 r2 :
  encodeRequest r = Ok (r1, true) → wsUpgrade r1 = true →
  encodeWebsocketRequest r1 = (r2, false) →
  roundTrip r = Ok (r2, None, []).
Proof.
  intros H1 H2 H3. unfold roundTrip. rewrite H1. simpl. by rewrite H2, H3.
Qed.

(** C4, as amended. Executing a request that has the websocket upgrade
    enabled and a body setter recorded invokes no printer, client or
    dialer, produces no response and leaves the chain failed. If a
    failure was recorded before, the chain keeps it. If none was, the
    message is the websocket one, citing the body setter as it is after
    encoding (Expect when a multipart writer was open, the recorded
    setter otherwise) and WithWebsocketUpgrade, except when a
    URL-encoded form is pending and no multipart writer is open: then
    encoding itself fails first, on the body conflict between the
    recorded setter and the form. *)
Theorem roundTrip_websocket_with_body (r : Request) :
  wsUpgrade r = true →
  bodySetter r ≠ EmptyString →
  wf r →
  ∃ r', roundTrip r = Ok (r', None, [])
    ∧ Chain.failed (chain r') = true
    ∧ (Chain.failed (chain r) = true → chain r' = chain r)
    ∧ (Chain.failed (chain r) = false →
       Chain.message (chain r')
       = Some (match multipart r, form r with
               | Some _, _ => websocket_body_message "Expect"
               | None, Some _ =>
                   ambiguous_body_message (bodySetter r) "WithForm or WithFormField"
               | None, None => websocket_body_message (bodySetter r)
               end))
    ∧ (∀ setter, occurs_in setter (websocket_body_message setter)
                 ∧ occurs_in "WithWebsocketUpgrade" (websocket_body_message setter)).
Proof.
  intros Hu Hb Hwf.
  destruct (encode_url_frame r)
    as (E1 & _ & _ & _ & _ & _ & E2 & _ & _ & E3 & _).
  destruct (Chain.failed (chain r)) eqn:Hf.
  { rewrite (roundTrip_not_encoded r r) by (by apply encodeRequest_failed).
    eexists. split; [reflexivity |]. split; [done |]. split; [done |].
    split; [done | apply websocket_message_names]. }
  destruct (multipart r) as [w|] eqn:Hw.
  { destruct (proj1 Hwf) as [buf Hbuf]; [by rewrite Hw |].
    destruct (encode_multipart_spec w buf (encode_url r))
      as (_ & _ & _ & _ & H5 & H6 & _ & H7 & _).
    erewrite roundTrip_websocket_refused;
      [| by apply encodeRequest_multipart | congruence
       | apply encodeWebsocketRequest_body; rewrite ?H5, ?H6; congruence].
    eexists. split; [reflexivity |].
    split; [apply chain_fail_failed |]. split; [done |].
    split; [| apply websocket_message_names].
    intros _. rewrite H5. apply chain_fail_fresh. congruence. }
  destruct (form r) as [f|] eqn:Hform.
  - erewrite roundTrip_websocket_refused;
      [| rewrite (encodeRequest_form _ _ Hf Hw Hform);
         rewrite setBody_taken by congruence; reflexivity
       | by rewrite <- Hu, <- E3
       | apply encodeWebsocketRequest_failed, chain_fail_failed].
    eexists. split; [reflexivity |].
    split; [apply chain_fail_failed |]. split; [done |].
    split; [| apply websocket_message_names].
    intros _. rewrite E2. apply chain_fail_fresh. congruence.
  - erewrite roundTrip_websocket_refused;
      [| by apply encodeRequest_plain | congruence
       | apply encodeWebsocketRequest_body; congruence].
    eexists. split; [reflexivity |].
    split; [apply chain_fail_failed |]. split; [done |].
    split; [| apply websocket_message_names].
    intros _. rewrite E2. apply chain_fail_fresh. congruence.
Qed.

Lemma roundTrip_websocket_with_body_witness :
  example "/" [OpWithWebsocketUpgrade; OpWithJSON (inl "{}")]
  = Ok websocket_example
  ∧ ∃ r', roundTrip websocket_example = Ok (r', None, [])
      ∧ Chain.message (chain r') = Some (websocket_body_message "WithJSON").
Proof.
  split; [vm_compute; reflexivity |].
  destruct (roundTrip_websocket_with_body websocket_example)
    as (r' & H1 & _ & _ & H2 & _).
  - reflexivity.
  - discriminate.
  - split; intros [x Hx]; discriminate Hx.
  - exists r'. split; [exact H1 |]. apply H2. reflexivity.
Defined.

(** C4, the counterexample. The upgrade is enabled, [WithBytes] owns the
    body and a form field is pending. Executing fails while encoding, on
    the body conflict between WithBytes and the form; the message does
    not cite the websocket upgrade. *)
Lemma roundTrip_websocket_with_body_and_form :
  (r ← example "/" [OpWithWebsocketUpgrade; OpWithBytes (Some "x");
                    OpWithFormField "a" (VInt 1)];
   '(r', resp, ev) ← roundTrip r;
   Ok (wsUpgrade r, bodySetter r, Chain.failed (chain r),
       Chain.message (chain r'), ev))
  = Ok (true, "WithBytes", false,
        Some (ambiguous_body_message "WithBytes" "WithForm or WithFormField"), [])
  ∧ ¬ occurs_in "WithWebsocketUpgrade"
        (ambiguous_body_message "WithBytes" "WithForm or WithFormField")
  ∧ ¬ occurs_in "ebocket"
        (ambiguous_body_message "WithBytes" "WithForm or WithFormField").
Proof.
  split; [vm_compute; reflexivity |].
  split; apply not_occurs_in; vm_compute; reflexivity.
Qed.

(** ** The websocket handshake *)

Lemma encodeWebsocketRequest_ok r r' :
  encodeWebsocketRequest r = (r', true) →
  wsUpgrade r' = wsUpgrade r ∧ chain r' = chain r ∧ config r' = config r
  ∧ Chain.failed (chain r) = false ∧ bodySetter r = EmptyString.
Proof.
  unfold encodeWebsocketRequest.
  destruct (Chain.failed (chain r)); [done |].
  destruct (is_empty (bodySetter r)) eqn:E; simpl; [| done].
  apply is_empty_true in E. by intros [= <-].
Qed.

(** The round trip of a websocket request that passed both encoding
    steps is the dial, between the two rounds of the printers. *)
Lemma roundTrip_websocket_sent r r1 r2 r3 resp conn ev :
  encodeRequest r = Ok (r1, true) → wsUpgrade r1 = true →
  encodeWebsocketRequest r1 = (r2, true) →
  sendWebsocketRequest r2 = Ok (r3, (resp, conn), ev) →
  roundTrip r
  = Ok (r3, (λ hr, makeResponse (config r3) (chain r3) (Some hr) conn) <$> resp,
        map (λ p, EvPrinterRequest p (http r2)) (Printers (config r2)) ++ ev
        ++ match resp with
           | Some hr => map (λ p, EvPrinterResponse p hr) (Printers (config r3))
           | None => []
           end).
Proof.
  intros H1 H2 H3 H4. unfold roundTrip. rewrite H1. simpl. rewrite H2, H3.
  simpl. destruct (encodeWebsocketRequest_ok _ _ H3) as (-> & _).
  rewrite H2, H4. simpl. destruct resp; simpl; [done |].
  by rewrite app_nil_r.
Qed.

(** C5. While a websocket request is sent (no failure is recorded and a
    dialer is configured, so that the dialer is asked), if the dialer
    returns the handshake-rejection error, no failure is recorded and
    the response and connection that the dialer returned are what the
    send step returns; the round trip then yields the response built
    from them. For any other error the send step records the error as
    the failure and returns no response, and so does the round trip. *)
Theorem sendWebsocketRequest_outcomes (r : Request) (d : WebsocketDialer)
    (conn : option Conn) (resp : option Http.Response) (err : DialError) :
  Chain.failed (chain r) = false →
  cfg_WebsocketDialer (config r) = Some d →
  Dial d (Http.url (http r)) (header r) = (conn, resp, Some err) →
  match err with
  | ErrBadHandshake =>
      sendWebsocketRequest r
      = Ok (r, (resp, conn), [EvDial (Http.url (http r)) (header r)])
      ∧ ∀ r0 r1,
          encodeRequest r0 = Ok (r1, true) → wsUpgrade r1 = true →
          encodeWebsocketRequest r1 = (r, true) →
          ∃ ev, roundTrip r0
                = Ok (r, (λ hr, makeResponse (config r) (chain r) (Some hr) conn)
                           <$> resp, ev)
  | OtherDialError text =>
      sendWebsocketRequest r
      = Ok (chain_fail text r, (None, None),
            [EvDial (Http.url (http r)) (header r)])
      ∧ Chain.failed (chain (chain_fail text r)) = true
      ∧ Chain.message (chain (chain_fail text r)) = Some text
      ∧ ∀ r0 r1,
          encodeRequest r0 = Ok (r1, true) → wsUpgrade r1 = true →
          encodeWebsocketRequest r1 = (r, true) →
          ∃ ev, roundTrip r0 = Ok (chain_fail text r, None, ev)
  end.
Proof.
  intros Hf Hd HD.
  assert (sendWebsocketRequest r
          = match err with
            | ErrBadHandshake =>
                Ok (r, (resp, conn), [EvDial (Http.url (http r)) (header r)])
            | OtherDialError text =>
                Ok (chain_fail text r, (None, None),
                    [EvDial (Http.url (http r)) (header r)])
            end) as Hs.
  { unfold sendWebsocketRequest. rewrite Hf, Hd, HD. by destruct err. }
  destruct err as [|text]; (split; [exact Hs |]).
  - intros r0 r1 H1 H2 H3. eexists.
    by apply (roundTrip_websocket_sent r0 r1 r r resp conn).
  - split; [apply chain_fail_failed |].
    split; [by apply chain_fail_fresh |].
    intros r0 r1 H1 H2 H3. eexists.
    by apply (roundTrip_websocket_sent r0 r1 r (chain_fail text r) None None).
Qed.

Lemma sendWebsocketRequest_outcomes_witness :
  (r ← example "/" [OpWithWebsocketUpgrade];
   '(r1, _) ← encodeRequest r; Ok (encodeWebsocketRequest r1).1)
  = Ok upgrade_example
  ∧ sendWebsocketRequest upgrade_example
    = Ok (upgrade_example, (Some (Http.mkResponse 403 ∅ "no"), None),
          [EvDial (Http.mkURL "ws" "example.com" "/" EmptyString) ∅]).
Proof.
  split; [vm_compute; reflexivity |].
  exact (proj1 (sendWebsocketRequest_outcomes upgrade_example example_dialer
                  None (Some (Http.mkResponse 403 ∅ "no")) ErrBadHandshake
                  eq_refl eq_refl eq_refl)).
Defined.

(** ** The query *)

Lemma get_all_Add (k v : string) (m : gmap string (list string)) (k' : string) :
  Url.get_all (Url.Add k v m) k'
  = Url.get_all m k' ++ (if decide (k = k') then [v] else []).
Proof.
  unfold Url.Add, Url.get_all. destruct (decide (k = k')) as [-> |].
  - by rewrite lookup_insert_eq.
  - rewrite lookup_insert_ne by done. by rewrite app_nil_r.
Qed.

Lemma get_all_append_all (m q : gmap string (list string)) (k : string) :
  Url.get_all (Url.append_all m q) k = Url.get_all m k ++ Url.get_all q k.
Proof.
  unfold Url.append_all, Url.get_all. rewrite lookup_union_with.
  destruct (m !! k), (q !! k); simpl; by rewrite ?app_nil_r.
Qed.

Lemma QueryUnescape_QueryEscape (s : string) :
  Url.QueryUnescape (Url.QueryEscape s) = inl s.
Proof.
  induction s as [|c s IH]; [done |].
  destruct c as [[] [] [] [] [] [] [] []]; simpl; by rewrite IH.
Qed.

Lemma QueryEscape_escaped (s : string) : escaped (Url.QueryEscape s) = true.
Proof.
  induction s as [|c s IH]; [done |].
  destruct c as [[] [] [] [] [] [] [] []]; simpl; by rewrite IH.
Qed.

Lemma sorted_keys_spec (m : gmap string (list string)) :
  StronglySorted String.le (Url.sorted_keys m)
  ∧ NoDup (Url.sorted_keys m)
  ∧ ∀ k, k ∈ Url.sorted_keys m ↔ is_Some (m !! k).
Proof.
  unfold Url.sorted_keys. split; [| split].
  - apply StronglySorted_merge_sort; apply _.
  - rewrite merge_sort_Permutation. apply NoDup_fst_map_to_list.
  - intros k. rewrite merge_sort_Permutation.
    rewrite list_elem_of_fmap. split.
    + intros ([k' v] & -> & H%elem_of_map_to_list). by exists v.
    + intros [v H]. exists (k, v). by rewrite elem_of_map_to_list.
Qed.

Lemma encodeRequest_url r r' ok :
  Chain.failed (chain r) = false →
  encodeRequest r = Ok (r', ok) →
  Http.url (http r') = Http.url (http (encode_url r)).
Proof.
  intros Hf. destruct (multipart r) as [w|] eqn:Hw.
  - destruct (formbuf r) as [buf|] eqn:Hb.
    + rewrite (encodeRequest_multipart _ _ _ Hf Hw Hb). intros [= <- _].
      unfold encode_multipart. rewrite setType_overwrite.
      by destruct (forceType _).
    + unfold encodeRequest. rewrite Hf. fold (encode_url r).
      destruct (encode_url_frame r) as (_ & _ & Hm & Hbuf & _).
      unfold on_multipart. by rewrite Hm, Hw, Hbuf, Hb.
  - destruct (form r) as [f|] eqn:Hform.
    + rewrite (encodeRequest_form _ _ Hf Hw Hform). unfold setBody. simpl.
      rewrite andb_false_r. destruct (negb _); simpl; by intros [= <- _].
    + rewrite encodeRequest_plain by done. by intros [= <- _].
Qed.

Lemma encode_url_RawQuery r q :
  query r = Some q →
  Http.RawQuery (Http.url (http (encode_url r))) = Url.Encode q.
Proof. intros H. unfold encode_url. simpl. by rewrite H. Qed.

(** C7. Each of the three query calls adds its values after the ones the
    key already holds and replaces none: on a chain with no failure
    recorded the values of a key become the old ones followed by the new
    ones, and on a failed chain or a failed conversion nothing changes.
    Encoding writes the query as [Encode] gives it: the keys in sorted
    order, each once, with every key and value percent-encoded, joined
    by ampersands. [WithQuery("a", 1)] then [WithQueryString("b=2")]
    gives [a=1&b=2]. *)
Theorem query_accumulates :
  (∀ r key v k,
      query_values (WithQuery key v r) k
      = query_values r k
        ++ (if Chain.failed (chain r) then []
            else if decide (key = k) then [Sprint v] else []))
  ∧ (∀ r o k,
        query_values (WithQueryObject o r) k
        = query_values r k
          ++ (if Chain.failed (chain r) then []
              else match o with
                   | ObjStruct (inl q) | ObjOther (inl q) => Url.get_all q k
                   | _ => []
                   end))
  ∧ (∀ r q k,
        query_values (WithQueryString q r) k
        = query_values r k
          ++ (if Chain.failed (chain r) then []
              else match Url.ParseQuery q with
                   | (v, None) => Url.get_all v k
                   | (_, Some _) => []
                   end))
  ∧ (∀ r q,
        Chain.failed (chain r) = false → wf r → query r = Some q →
        ∃ r' ok, encodeRequest r = Ok (r', ok)
          ∧ Http.RawQuery (Http.url (http r')) = Url.Encode q)
  ∧ (∀ q : gmap string (list string),
        Url.Encode q
        = join "&"
            (concat
               (map (λ k, map (λ v, Url.QueryEscape k +:+ "=" +:+ Url.QueryEscape v)
                            (Url.get_all q k))
                  (Url.sorted_keys q)))
        ∧ StronglySorted String.le (Url.sorted_keys q)
        ∧ NoDup (Url.sorted_keys q)
        ∧ (∀ k, k ∈ Url.sorted_keys q ↔ is_Some (q !! k)))
  ∧ (∀ s, escaped (Url.QueryEscape s) = true
          ∧ Url.QueryUnescape (Url.QueryEscape s) = inl s)
  ∧ (r ← example "/p" [OpWithQuery "a" (VInt 1); OpWithQueryString "b=2"];
     '(r', _) ← encodeRequest r;
     Ok (Http.RawQuery (Http.url (http r')))) = Ok "a=1&b=2".
Proof.
  split; [| split; [| split; [| split; [| split; [| split]]]]].
  - intros r key v k. unfold WithQuery, query_values.
    destruct (Chain.failed (chain r)); [by rewrite app_nil_r |].
    simpl. apply get_all_Add.
  - intros r o k. unfold WithQueryObject, query_values.
    destruct (Chain.failed (chain r)); [by rewrite app_nil_r |].
    destruct o as [e | [q | e] | [q | e]]; simpl;
      rewrite ?app_nil_r; try done; apply get_all_append_all.
  - intros r q k. unfold WithQueryString, query_values.
    destruct (Chain.failed (chain r)); [by rewrite app_nil_r |].
    destruct (Url.ParseQuery q) as [v [e|]]; simpl;
      rewrite ?app_nil_r; try done; apply get_all_append_all.
  - intros r q Hf Hwf Hq. destruct (encodeRequest_total r Hwf) as (r' & ok & H).
    exists r', ok. split; [done |].
    rewrite (encodeRequest_url _ _ _ Hf H). by apply encode_url_RawQuery.
  - intros q. split; [reflexivity | apply sorted_keys_spec].
  - intros s. split; [apply QueryEscape_escaped | apply QueryUnescape_QueryEscape].
  - vm_compute. reflexivity.
Qed.

Lemma query_accumulates_witness :
  example "/p" [OpWithQuery "a" (VInt 1); OpWithQueryString "b=2";
                OpWithQuery "a" (VString "x y")] = Ok query_example
  ∧ query_values query_example "a" = ["1"; "x y"]
  ∧ ∃ r' ok, encodeRequest query_example = Ok (r', ok)
      ∧ Http.RawQuery (Http.url (http r')) = "a=1&a=x+y&b=2".
Proof.
  split; [vm_compute; reflexivity |]. split; [vm_compute; reflexivity |].
  destruct (proj1 (proj2 (proj2 (proj2 query_accumulates))) query_example
              (<["b" := ["2"]]> (<["a" := ["1"; "x y"]]> ∅)))
    as (r' & ok & H1 & H2).
  - reflexivity.
  - split; intros [x Hx]; discriminate Hx.
  - reflexivity.
  - exists r', ok. split; [exact H1 |]. rewrite H2. vm_compute. reflexivity.
Defined.

(** ** Path templates *)

Section Scan.
Context {U : Type} (format : string → U → U * string).

Lemma scan_lit (s rest rb out : string) (u : U) :
  no_brace s = true →
  Interpol.scan format (s +:+ rest) (Interpol.mkState false false rb out u)
  = Interpol.scan format rest (Interpol.mkState false false rb (out +:+ s) u).
Proof.
  revert out. induction s as [|c s IH]; intros out; simpl.
  - intros _. by rewrite append_nil, append_empty_r.
  - intros [[Ho Hc]%andb_prop Hs]%andb_prop.
    destruct (Ascii.eqb c "{"); [done |]. destruct (Ascii.eqb c "}"); [done |].
    simpl. rewrite IH by done. unfold Interpol.one.
    by rewrite append_assoc.
Qed.

Lemma scan_key (name rest rb out : string) (u : U) :
  no_brace name = true →
  Interpol.scan format (name +:+ String "}" rest)
    (Interpol.mkState true false rb out u)
  = Interpol.scan format rest
      (Interpol.mkState false false EmptyString
         (out +:+ (format (rb +:+ name) u).2) (format (rb +:+ name) u).1).
Proof.
  revert rb. induction name as [|c s IH]; intros rb; simpl.
  - intros _. rewrite append_empty_r.
    by destruct (format rb u).
  - intros [[Ho Hc]%andb_prop Hs]%andb_prop.
    destruct (Ascii.eqb c "{"); [done |]. destruct (Ascii.eqb c "}"); [done |].
    simpl. rewrite IH by done. unfold Interpol.one.
    by rewrite append_assoc.
Qed.

(** On the text of a well-formed template the scanner computes what
    [interpolate] computes on its pieces, and reports no error. *)
Lemma scan_render (t : list segment) (out : string) (u : U) :
  well_formed t →
  Interpol.scan format (render t)
    (Interpol.mkState false false EmptyString out u)
  = ((interpolate format t u out).1, inl (interpolate format t u out).2).
Proof.
  intros Hwf. revert out u.
  induction Hwf as [|x t Hx Ht IH]; intros out u; [done |].
  destruct x as [s | name]; simpl.
  - rewrite scan_lit by done. apply IH.
  - rewrite append_nil, append_assoc.
    change ("}" +:+ render t) with (String "}" (render t)).
    rewrite scan_key by done. rewrite append_nil.
    destruct (format name u) as [u' w]. apply IH.
Qed.
End Scan.

Lemma Chain_fail_twice msg c : Chain.fail msg (Chain.fail msg c) = Chain.fail msg c.
Proof. unfold Chain.fail. by destruct (Chain.failbit c) eqn:E; simpl; rewrite ?E. Qed.

Lemma nil_given_0 args n : nil_given args n 0 = false.
Proof. reflexivity. Qed.

Lemma nil_given_S args n m a :
  args !! n = Some a →
  nil_given args n (S m) = is_nil a || nil_given args (S n) m.
Proof.
  intros H. unfold nil_given. by rewrite (drop_S _ _ _ H).
Qed.

Lemma nil_given_none args n m : args !! n = None → nil_given args n m = false.
Proof.
  intros H%lookup_ge_None. unfold nil_given.
  rewrite drop_ge by done. by rewrite take_nil.
Qed.

Lemma interpolate_new_path method args t n ch out :
  interpolate (new_path_func method args) t (n, ch) out
  = ((n + length (holes t),
      if nil_given args n (length (holes t))
      then Chain.fail (nil_pathargs_message method args) ch else ch)%nat,
     out +:+ render (fill args n t)).
Proof.
  revert n ch out. induction t as [|[s | name] t IH]; intros n ch out; simpl.
  - by rewrite Nat.add_0_r, append_empty_r.
  - rewrite IH. by rewrite append_assoc.
  - destruct (args !! n) as [a|] eqn:Ha; simpl.
    + rewrite (nil_given_S _ _ _ _ Ha). destruct (is_nil a); simpl.
      * rewrite IH, Chain_fail_twice, append_assoc, Nat.add_succ_r.
        by destruct (nil_given args (S n) _).
      * by rewrite IH, append_assoc, Nat.add_succ_r.
    + rewrite IH, !append_assoc, Nat.add_succ_r.
      rewrite (nil_given_none _ _ _ Ha), nil_given_none; [done |].
      apply lookup_ge_None. apply lookup_ge_None in Ha. lia.
Qed.

Lemma first_appearances_NoDup seen names :
  NoDup names → (∀ x, x ∈ names → x ∉ seen) →
  first_appearances seen names = names.
Proof.
  intros Hnd. revert seen. induction Hnd as [|x l Hx Hl IH]; intros seen Hs; simpl.
  - done.
  - rewrite bool_decide_eq_false_2 by (apply Hs; left).
    f_equal. apply IH. intros y Hy [-> | Hin]%elem_of_cons; [done |].
    by apply (Hs y); [right |].
Qed.

Lemma index_of_lookup l n x :
  NoDup l → l !! n = Some x → index_of x l = Some n.
Proof.
  intros Hnd. revert n. induction Hnd as [|y l Hy Hl IH]; intros n; [done |].
  destruct n as [|n]; simpl.
  - intros [= ->]. by rewrite bool_decide_eq_true_2.
  - intros H. rewrite bool_decide_eq_false_2.
    + by rewrite (IH _ H).
    + intros ->. apply Hy. by apply list_elem_of_lookup_2 in H.
Qed.

Lemma fill_by_name args names t n :
  NoDup names → Forall (λ a, is_nil a = false) args →
  holes t = drop n names →
  fill args n t
  = map (λ x, match x with
              | Lit s => Lit s
              | Hole name =>
                  match index_of name names ≫= (λ i, args !! i) with
                  | Some a => Lit (Sprint a)
                  | None => Hole name
                  end
              end) t.
Proof.
  intros Hnd Hargs. revert n.
  induction t as [|[s | name] t IH]; intros n Hn; simpl.
  - done.
  - f_equal. by apply IH.
  - simpl in Hn.
    assert (names !! n = Some name) as Hl.
    { rewrite <- (Nat.add_0_r n), <- lookup_drop, <- Hn. done. }
    rewrite (index_of_lookup _ _ _ Hnd Hl). simpl.
    rewrite <- (IH (S n)).
    + f_equal. destruct (args !! n) as [a|] eqn:Ha; [| done].
      rewrite Forall_forall in Hargs.
      rewrite (Hargs a); [done |].
      by apply list_elem_of_lookup_2 in Ha.
    + rewrite (drop_S _ _ _ Hl) in Hn. by injection Hn.
Qed.

(** C6, as amended. For a template of literal text and placeholders and
    any positional arguments, [NewRequest] returns a request whose path
    is the template with the placeholder occurrences, counted left to
    right whatever their names, replaced by the arguments in order while
    there are arguments, and with every later occurrence left as
    [{name}]; a name that occurs twice takes two arguments. A nil
    argument that meets a placeholder records the failure that shows the
    method and the arguments. When no name occurs twice and no argument
    is nil, this is the replacement of the distinct names in order of
    first appearance. *)
Theorem NewRequest_positional (cfg : Config) (factory : RequestFactory)
    (client : Client) (method : string) (t : list segment) (args : list value) :
  cfg_RequestFactory cfg = Some factory →
  cfg_Client cfg = Some client →
  well_formed t →
  ∃ r, NewRequest cfg method (render t) args = Ok r
    ∧ path r = render (fill args 0 t)
    ∧ (nil_given args 0 (length (holes t)) = true →
       Chain.failed (chain r) = true
       ∧ Chain.message (chain r) = Some (nil_pathargs_message method args))
    ∧ (nil_given args 0 (length (holes t)) = false →
       (Factory_NewRequest factory method (BaseURL cfg)).2 = None →
       chain r = makeChain)
    ∧ (NoDup (holes t) → Forall (λ a, is_nil a = false) args →
       path r = render (spec_fill args t)).
Proof.
  intros Hfac Hcl Hwf. unfold NewRequest. rewrite Hfac, Hcl.
  unfold Interpol.WithFunc. rewrite scan_render by done.
  rewrite interpolate_new_path, append_nil. simpl.
  destruct (Factory_NewRequest factory method (BaseURL cfg)) as [hr err].
  eexists. split; [reflexivity |]. simpl.
  split; [reflexivity |]. split; [| split].
  - intros ->. by destruct err.
  - intros -> ->. done.
  - intros Hnd Hargs. f_equal. unfold spec_fill.
    rewrite first_appearances_NoDup; [| done | intros x _; apply not_elem_of_nil].
    by apply fill_by_name.
Qed.

Lemma NewRequest_positional_witness :
  let t := [Lit "/repos/"; Hole "user"; Lit "/"; Hole "repo"] in
  render t = "/repos/{user}/{repo}"
  ∧ ∃ r, NewRequest example_config "POST" "/repos/{user}/{repo}"
           [VString "gavv"] = Ok r
      ∧ path r = "/repos/gavv/{repo}"
      ∧ chain r = makeChain.
Proof.
  intros t. split; [reflexivity |].
  destruct (NewRequest_positional example_config example_factory example_client
              "POST" t [VString "gavv"] eq_refl eq_refl)
    as (r & H1 & H2 & _ & H3 & _).
  - repeat constructor.
  - exists r. split; [exact H1 |]. split; [exact H2 |].
    apply H3; reflexivity.
Defined.

(** C6, the counterexample. In [/{a}/{a}/{b}] the distinct placeholders
    in order of first appearance are [a] and [b]; with the two arguments
    x and y the words of the claim give [/x/x/y], and on any reading of
    them [b] is replaced. [NewRequest] counts occurrences and gives
    [/x/y/{b}], with [{b}] left in the path. *)
Lemma NewRequest_repeated_placeholder :
  render [Lit "/"; Hole "a"; Lit "/"; Hole "a"; Lit "/"; Hole "b"]
  = "/{a}/{a}/{b}"
  ∧ (r ← NewRequest example_config "GET" "/{a}/{a}/{b}" [VString "x"; VString "y"];
     Ok (path r, Chain.failed (chain r))) = Ok ("/x/y/{b}", false)
  ∧ render (spec_fill [VString "x"; VString "y"]
              [Lit "/"; Hole "a"; Lit "/"; Hole "a"; Lit "/"; Hole "b"])
    = "/x/x/y"
  ∧ contains "{b}" "/x/y/{b}" = true.
Proof. repeat split; vm_compute; reflexivity. Qed.

(** ** Joining the base path and the request path *)



Lemma is_empty_append_cons (x : string) (c : ascii) (y : string) :
  is_empty (x +:+ String c y) = false.
Proof. by destruct x. Qed.



(** ** The content-type slot *)

Lemma type_message_names (prev owner ty s : string) :
  occurs_in owner (ambiguous_type_message prev owner ty s)
  ∧ occurs_in s (ambiguous_type_message prev owner ty s)
  ∧ occurs_in (quote prev) (ambiguous_type_message prev owner ty s)
  ∧ occurs_in (quote ty) (ambiguous_type_message prev owner ty s).
Proof.
  unfold ambiguous_type_message. repeat split; eauto 30 with names.
Qed.

(** X2. When the content type is not forced and the Content-Type header
    reads as a value other than the one wanted, [setType] without the
    override flag changes neither the headers nor the owner of the
    content type and leaves the chain failed; on a chain with no failure
    recorded the message is the content-type conflict, which shows both
    values and names both the owner and the setter that wanted the new
    one. When the header is unset or reads as the wanted value, no
    failure is recorded, the header is that one value and the setter
    becomes the owner. *)
Theorem setType_conflict (s ty : string) (r : Request) :
  forceType r = false →
  (Http.Get (header r) "Content-Type" ≠ EmptyString →
   Http.Get (header r) "Content-Type" ≠ ty →
   header (setType s ty false r) = header r
   ∧ typeSetter (setType s ty false r) = typeSetter r
   ∧ body_slot (setType s ty false r) = body_slot r
   ∧ Chain.failed (chain (setType s ty false r)) = true
   ∧ (Chain.failed (chain r) = false →
      Chain.message (chain (setType s ty false r))
      = Some (ambiguous_type_message (Http.Get (header r) "Content-Type")
                (typeSetter r) ty s)
      ∧ occurs_in (typeSetter r)
          (ambiguous_type_message (Http.Get (header r) "Content-Type")
             (typeSetter r) ty s)
      ∧ occurs_in s
          (ambiguous_type_message (Http.Get (header r) "Content-Type")
             (typeSetter r) ty s)))
  ∧ (Http.Get (header r) "Content-Type" = EmptyString
     ∨ Http.Get (header r) "Content-Type" = ty →
     chain (setType s ty false r) = chain r
     ∧ header (setType s ty false r) !! "Content-Type" = Some [ty]
     ∧ Http.Get (header (setType s ty false r)) "Content-Type" = ty
     ∧ typeSetter (setType s ty false r) = s).
Proof.
  intros Hf. split.
  - intros H1 H2. rewrite setType_unforced by done.
    split; [done |]. split; [done |]. split; [done |].
    split; [apply chain_fail_failed |].
    intros Hc. split; [by apply chain_fail_fresh |].
    destruct (type_message_names (Http.Get (header r) "Content-Type")
                (typeSetter r) ty s) as (? & ? & _). done.
  - intros H. split; [apply setType_chain_ok; tauto |].
    assert (setType s ty false r
            = set_header (<["Content-Type" := [ty]]> (header r))
                (set_typeSetter s r)) as ->.
    { unfold setType. rewrite Hf. simpl.
      destruct H as [-> | ->]; [done |].
      by rewrite String.eqb_refl, andb_false_r. }
    unfold header, set_header, Http.Get. simpl.
    change (Http.CanonicalHeaderKey "Content-Type") with "Content-Type".
    by rewrite lookup_insert_eq.
Qed.

Lemma setType_conflict_witness :
  example "/" [OpWithJSON (inl "{}")] = Ok json_example
  ∧ Chain.message
      (chain (setType "WithText" "text/plain; charset=utf-8" false json_example))
    = Some (ambiguous_type_message "application/json; charset=utf-8" "WithJSON"
              "text/plain; charset=utf-8" "WithText")
  ∧ header (setType "WithText" "text/plain; charset=utf-8" false json_example)
    = header json_example.
Proof.
  split; [vm_compute; reflexivity |].
  destruct (setType_conflict "WithText" "text/plain; charset=utf-8" json_example
              eq_refl) as [H _].
  destruct H as (H1 & _ & _ & _ & H2).
  - vm_compute. discriminate.
  - vm_compute. discriminate.
  - split; [| exact H1]. apply H2. reflexivity.
Defined.

(** ** Headers, cookies and credentials *)

(** X3. On a request with no failure recorded, [WithHeader] with a key
    that is Host in canonical form sets the host of the request and adds
    no header. With any other key than Host and Content-Type it adds the
    value after the values that the canonical key already has and leaves
    every other key, the host, the chain and the content-type slot as
    they are; two calls whose keys differ only in their case fill the
    same entry, in the order of the calls. *)
Theorem WithHeader_adds (k v : string) (r : Request) :
  Chain.failed (chain r) = false →
  (Http.CanonicalHeaderKey k = "Host" →
   Http.Host (http (WithHeader k v r)) = v
   ∧ header (WithHeader k v r) = header r
   ∧ chain (WithHeader k v r) = chain r)
  ∧ (Http.CanonicalHeaderKey k ≠ "Host" →
     Http.CanonicalHeaderKey k ≠ "Content-Type" →
     header (WithHeader k v r) !! Http.CanonicalHeaderKey k
     = Some (default [] (header r !! Http.CanonicalHeaderKey k) ++ [v])
     ∧ (∀ k', k' ≠ Http.CanonicalHeaderKey k →
              header (WithHeader k v r) !! k' = header r !! k')
     ∧ Http.Host (http (WithHeader k v r)) = Http.Host (http r)
     ∧ chain (WithHeader k v r) = chain r
     ∧ forceType (WithHeader k v r) = forceType r
     ∧ typeSetter (WithHeader k v r) = typeSetter r
     ∧ ∀ k2 v2,
         Http.CanonicalHeaderKey k2 = Http.CanonicalHeaderKey k →
         header (WithHeader k2 v2 (WithHeader k v r)) !! Http.CanonicalHeaderKey k
         = Some (default [] (header r !! Http.CanonicalHeaderKey k) ++ [v; v2])).
Proof.
  intros Hf. split.
  - intros Hk. unfold WithHeader. rewrite Hf, Hk. done.
  - intros H1%String.eqb_neq H2%String.eqb_neq.
    assert (∀ k0 v0 r0,
      Chain.failed (chain r0) = false →
      Http.CanonicalHeaderKey k0 = Http.CanonicalHeaderKey k →
      WithHeader k0 v0 r0 = set_header (Http.Add k0 v0 (header r0)) r0) as Hw.
    { intros k0 v0 r0 Hf0 Hk0. unfold WithHeader. by rewrite Hf0, Hk0, H1, H2. }
    rewrite Hw by done. unfold header, set_header, Http.Add. simpl.
    split; [by rewrite lookup_insert_eq |].
    split; [intros k' Hk'; by rewrite lookup_insert_ne |].
    do 4 (split; [done |]).
    intros k2 v2 Hk2. rewrite Hw by done.
    unfold header, set_header, Http.Add. simpl.
    rewrite Hk2, !lookup_insert_eq. simpl. by rewrite <- app_assoc.
Qed.

Lemma WithHeader_adds_witness :
  header (WithHeader "x-trace" "1" fresh_example) !! "X-Trace" = Some ["1"]
  ∧ header (WithHeader "X-TRACE" "2" (WithHeader "x-trace" "1" fresh_example))
    !! "X-Trace" = Some ["1"; "2"].
Proof.
  destruct (WithHeader_adds "x-trace" "1" fresh_example eq_refl) as [_ H].
  destruct H as (H1 & _ & _ & _ & _ & _ & H2).
  - vm_compute. discriminate.
  - vm_compute. discriminate.
  - split; [exact H1 |]. apply (H2 "X-TRACE" "2"). reflexivity.
Defined.

Lemma Get_Set (k v : string) (h : gmap string (list string)) :
  Http.Get (Http.Set_ k v h) k = v.
Proof. unfold Http.Get, Http.Set_. by rewrite lookup_insert_eq. Qed.

(** X4. On a request with no failure recorded, [WithCookie] leaves the
    Cookie header with exactly one value: the pair alone when the header
    had no cookie, and otherwise the value it had, a semicolon and a
    space, and the pair. Every other header is as before, and no failure
    is recorded. *)
Theorem WithCookie_one_header (k v : string) (r : Request) :
  Chain.failed (chain r) = false →
  let pair := Enc.sanitizeCookieName k +:+ "=" +:+ Enc.sanitizeCookieValue v in
  header (WithCookie k v r) !! "Cookie"
  = Some [if is_empty (Http.Get (header r) "Cookie") then pair
          else Http.Get (header r) "Cookie" +:+ "; " +:+ pair]
  ∧ (∀ k', k' ≠ "Cookie" → header (WithCookie k v r) !! k' = header r !! k')
  ∧ chain (WithCookie k v r) = chain r
  ∧ ∀ k2 v2,
      Http.Get (header (WithCookie k2 v2 (WithCookie k v r))) "Cookie"
      = Http.Get (header (WithCookie k v r)) "Cookie" +:+ "; "
        +:+ Enc.sanitizeCookieName k2 +:+ "=" +:+ Enc.sanitizeCookieValue v2.
Proof.
  intros Hf pair.
  assert (∀ k0 v0 r0, Chain.failed (chain r0) = false →
    header (WithCookie k0 v0 r0)
    = <["Cookie" := [if is_empty (Http.Get (header r0) "Cookie")
                     then Enc.sanitizeCookieName k0 +:+ "=" +:+ Enc.sanitizeCookieValue v0
                     else Http.Get (header r0) "Cookie" +:+ "; "
                          +:+ Enc.sanitizeCookieName k0 +:+ "=" +:+ Enc.sanitizeCookieValue v0]]>
        (header r0)) as Hw.
  { intros k0 v0 r0 Hf0. unfold WithCookie, AddCookie. rewrite Hf0.
    unfold header, set_header, Http.Set_. simpl.
    change (Http.CanonicalHeaderKey "Cookie") with "Cookie".
    by destruct (is_empty _). }
  rewrite Hw by done.
  split; [by rewrite lookup_insert_eq |].
  split; [intros k' Hk'; by rewrite lookup_insert_ne |].
  split; [unfold WithCookie; by rewrite Hf |].
  intros k2 v2.
  assert (Chain.failed (chain (WithCookie k v r)) = false) as Hf2
    by (unfold WithCookie; by rewrite Hf).
  assert (∀ x (h : gmap string (list string)),
            Http.Get (<["Cookie" := [x]]> h) "Cookie" = x) as Hget.
  { intros x h. unfold Http.Get.
    change (Http.CanonicalHeaderKey "Cookie") with "Cookie".
    by rewrite lookup_insert_eq. }
  rewrite (Hw k2 v2 _ Hf2). rewrite Hw by done. rewrite !Hget.
  destruct (is_empty (Http.Get (header r) "Cookie")).
  - change ("=" +:+ Enc.sanitizeCookieValue v)
      with (String "=" (Enc.sanitizeCookieValue v)).
    by rewrite is_empty_append_cons.
  - change ("; " +:+ Enc.sanitizeCookieName k +:+ "=" +:+ Enc.sanitizeCookieValue v)
      with (String ";" (" " +:+ Enc.sanitizeCookieName k +:+ "="
                        +:+ Enc.sanitizeCookieValue v)).
    by rewrite is_empty_append_cons.
Qed.

Lemma WithCookie_one_header_witness :
  header (WithCookie "bar" "b b" (WithCookie "foo" "aa" fresh_example)) !! "Cookie"
  = Some ["foo=aa; bar=" +:+ dq +:+ "b b" +:+ dq].
Proof.
  destruct (WithCookie_one_header "bar" "b b" (WithCookie "foo" "aa" fresh_example)
              eq_refl) as (H & _).
  rewrite H. vm_compute. reflexivity.
Defined.

(** X5. On a request with no failure recorded, [WithBasicAuth] sets the
    Authorization header to the one value Basic followed by the base64
    text of the user name, a colon and the password, whatever the header
    held before: of two calls only the second is kept, and a value that
    [WithHeader] had added is dropped. A value that [WithHeader] adds
    afterwards comes second, so that the header still reads as the Basic
    one. *)
Theorem WithBasicAuth_replaces (u p : string) (r : Request) :
  Chain.failed (chain r) = false →
  header (WithBasicAuth u p r) !! "Authorization"
  = Some ["Basic " +:+ Enc.base64 (u +:+ ":" +:+ p)]
  ∧ (∀ k', k' ≠ "Authorization" →
           header (WithBasicAuth u p r) !! k' = header r !! k')
  ∧ chain (WithBasicAuth u p r) = chain r
  ∧ (∀ u0 p0, header (WithBasicAuth u p (WithBasicAuth u0 p0 r))
              = header (WithBasicAuth u p r))
  ∧ (∀ v, header (WithBasicAuth u p (WithHeader "Authorization" v r))
          = header (WithBasicAuth u p r))
  ∧ (∀ v, Http.Get (header (WithHeader "Authorization" v (WithBasicAuth u p r)))
            "Authorization"
          = "Basic " +:+ Enc.base64 (u +:+ ":" +:+ p)).
Proof.
  intros Hf.
  assert (∀ u0 p0 r0, Chain.failed (chain r0) = false →
            header (WithBasicAuth u0 p0 r0)
            = <["Authorization" := ["Basic " +:+ Enc.base64 (u0 +:+ ":" +:+ p0)]]>
                (header r0)
            ∧ chain (WithBasicAuth u0 p0 r0) = chain r0) as Hb.
  { intros u0 p0 r0 Hf0. unfold WithBasicAuth. rewrite Hf0. done. }
  assert (∀ v r0, Chain.failed (chain r0) = false →
            header (WithHeader "Authorization" v r0)
            = <["Authorization" := default [] (header r0 !! "Authorization") ++ [v]]>
                (header r0)
            ∧ chain (WithHeader "Authorization" v r0) = chain r0) as Hh.
  { intros v r0 Hf0. unfold WithHeader. rewrite Hf0. done. }
  destruct (Hb u p r Hf) as [E1 E2]. rewrite E1, E2.
  split; [by rewrite lookup_insert_eq |].
  split; [intros k' Hk'; by rewrite lookup_insert_ne |].
  split; [done |].
  split.
  { intros u0 p0. destruct (Hb u0 p0 r Hf) as [E3 E4].
    destruct (Hb u p (WithBasicAuth u0 p0 r)) as [E5 _]; [by rewrite E4 |].
    by rewrite E5, E3, insert_insert_eq. }
  split.
  { intros v. destruct (Hh v r Hf) as [E3 E4].
    destruct (Hb u p (WithHeader "Authorization" v r)) as [E5 _]; [by rewrite E4 |].
    by rewrite E5, E3, insert_insert_eq. }
  intros v. destruct (Hh v (WithBasicAuth u p r)) as [E3 _]; [by rewrite E2 |].
  rewrite E3, E1. unfold Http.Get.
  change (Http.CanonicalHeaderKey "Authorization") with "Authorization".
  by rewrite !lookup_insert_eq.
Qed.

Lemma WithBasicAuth_replaces_witness :
  Http.Get (header (WithBasicAuth "john" "secret" fresh_example)) "Authorization"
  = "Basic am9objpzZWNyZXQ=".
Proof.
  destruct (WithBasicAuth_replaces "john" "secret" fresh_example eq_refl)
    as (H & _).
  unfold Http.Get. change (Http.CanonicalHeaderKey "Authorization") with "Authorization".
  rewrite H. reflexivity.
Defined.

(** ** The protocol version and chunked bodies *)

(** X6. On a request with no failure recorded and a free body slot, once
    [WithProto] has set a version that the parser accepted, [WithChunked]
    returns and does one of two things. With a version of at least 1.1 it
    takes the body slot under the label WithChunked, the reader as the
    body and the content length -1 (no body and the length 0 for a nil
    reader), and records no failure. With a version below 1.1 it records
    the failure that cites the version and leaves the body slot free. *)
Theorem WithChunked_needs_1_1 (proto : string) (major minor : Z)
    (reader : option Http.Reader) (r : Request) :
  Chain.failed (chain r) = false →
  bodySetter r = EmptyString →
  ∃ r', WithChunked reader (WithProto proto (Some (major, minor)) r) = Ok r'
    ∧ (1 < major ∨ major = 1 ∧ 1 ≤ minor →
       body_slot r'
       = ("WithChunked", reader, match reader with Some _ => -1 | None => 0 end)
       ∧ chain r' = chain r)
    ∧ (major < 1 ∨ major = 1 ∧ minor < 1 →
       body_slot r' = body_slot r
       ∧ Chain.failed (chain r') = true
       ∧ Chain.message (chain r') = Some (chunked_proto_message major minor))
    ∧ header r' = header r
    ∧ Http.ProtoMajor (http r') = major ∧ Http.ProtoMinor (http r') = minor.
Proof.
  intros Hf Hb. unfold WithProto. rewrite Hf. unfold WithChunked. simpl. rewrite Hf.
  unfold Http.ProtoAtLeast. simpl.
  destruct ((major >? 1) || (major =? 1) && (minor >=? 1)) eqn:E; simpl.
  - unfold setBody. simpl. rewrite Hb. simpl.
    destruct reader as [rd |]; simpl; (eexists; split; [reflexivity |]);
      (split; [done |]); (split; [| done]); intros; lia.
  - eexists; split; [reflexivity |].
    split; [intros; lia |]. split; [| done]. intros _.
    split; [done |]. split.
    + by apply chain_fail_failed.
    + rewrite chain_fail_fresh by done. done.
Qed.

Lemma WithChunked_needs_1_1_witness :
  ∃ r', WithChunked (Some (Http.StringsReader "abc"))
          (WithProto "HTTP/1.0" (Some (1, 0)) fresh_example) = Ok r'
        ∧ body_slot r' = (EmptyString, None, 0)
        ∧ Chain.message (chain r') = Some (chunked_proto_message 1 0).
Proof.
  destruct (WithChunked_needs_1_1 "HTTP/1.0" 1 0 (Some (Http.StringsReader "abc"))
              fresh_example eq_refl eq_refl) as (r' & H1 & _ & H2 & _).
  exists r'. split; [exact H1 |].
  destruct H2 as (H3 & _ & H4); [right; split; [reflexivity | reflexivity] |].
  split; [exact H3 | exact H4].
Defined.

(** ** Named path parameters *)












(** ** Path objects *)








(** ** URL-encoded forms *)

Lemma setType_type_free s ty r :
  type_free ty r → type_free ty (setType s ty false r).
Proof.
  intros Ht. unfold type_free, setType.
  destruct (forceType r) eqn:Hforce; [by left |].
  destruct Ht as [Ht | [Ht | Ht]]; [congruence | |]; rewrite Ht; simpl.
  - right; right. unfold header, Http.Get. simpl.
    change (Http.CanonicalHeaderKey "Content-Type") with "Content-Type".
    by rewrite lookup_insert_eq.
  - rewrite String.eqb_refl. simpl. rewrite andb_false_r. right; right.
    unfold header, Http.Get. simpl.
    change (Http.CanonicalHeaderKey "Content-Type") with "Content-Type".
    by rewrite lookup_insert_eq.
Qed.

Lemma setType_form s ty ow r : form (setType s ty ow r) = form r.
Proof. unfold setType. by repeat case_match. Qed.

Lemma setType_urlencoded s r :
  urlencoded_ready r →
  urlencoded_ready (setType s "application/x-www-form-urlencoded" false r)
  ∧ form (setType s "application/x-www-form-urlencoded" false r) = form r.
Proof.
  intros (Hf & Hm & Ht). unfold urlencoded_ready.
  rewrite setType_chain_ok, setType_multipart, setType_form by exact Ht.
  split; [| done]. split; [done |]. split; [done |]. by apply setType_type_free.
Qed.

Lemma form_added_intro added r r0 f :
  urlencoded_ready r0 →
  body_slot r0 = body_slot r → chain r0 = chain r →
  (∀ k, Url.get_all f k = Url.get_all (default ∅ (form r)) k ++ added k) →
  form_added added r (set_form (Some f) r0).
Proof.
  intros Hready Hslot Hchain Hvals. unfold form_added.
  split; [done |]. split; [done |]. split; [done |].
  intros Hfree. destruct Hready as (Hf & Hm & _).
  exists f. eexists. split; [done |].
  rewrite (encodeRequest_form _ f) by done.
  unfold setBody.
  destruct (encode_url_frame (set_form (Some f) r0))
    as (Hc & _ & _ & _ & _ & _ & Hb & _).
  rewrite Hb. simpl.
  assert (bodySetter r0 = EmptyString) as ->.
  { unfold body_slot in Hslot. congruence. }
  simpl. rewrite andb_false_r. simpl. split; [reflexivity |]. split; [done |].
  simpl. rewrite Hc. done.
Qed.

(** X10. On a request with no failure recorded, no multipart writer and
    a content type that is forced, unset or the URL-encoded one,
    [WithFormField] and [WithForm] return, record no failure and leave
    the body slot as it is; the values given come after the values that
    each key of the pending form had. The form becomes the body only in
    encoding: when the body slot is free, [encodeRequest] makes the
    encoded form the body under the label WithForm or WithFormField, with
    its length as the content length. *)
Theorem form_urlencoded (r : Request) :
  urlencoded_ready r →
  (∀ key v, ∃ r1, WithFormField key v r = Ok r1
     ∧ form_added (λ k, if decide (k = key) then [Sprint v] else []) r r1)
  ∧ (∀ object f, encoded_of object = inl f →
       ∃ r1, WithForm object r = Ok r1 ∧ form_added (Url.get_all f) r r1).
Proof.
  intros Hready. pose proof Hready as (Hf & Hm & Ht). split.
  - intros key v. unfold WithFormField. rewrite Hf, Hm.
    eexists. split; [reflexivity |].
    destruct (setType_urlencoded "WithFormField" r Hready) as [Hready' Hform].
    rewrite Hform. apply form_added_intro.
    + done.
    + apply setType_body_slot.
    + by apply setType_chain_ok.
    + intros k. unfold Url.get_all. destruct (decide (k = key)) as [-> | Hne].
      * by rewrite lookup_insert_eq.
      * by rewrite lookup_insert_ne, app_nil_r.
  - intros object f Henc. unfold WithForm. rewrite Hf, Henc, Hm.
    eexists. split; [reflexivity |]. unfold add_form.
    destruct (setType_urlencoded "WithForm" r Hready) as [Hready' Hform].
    rewrite Hform. apply form_added_intro.
    + done.
    + apply setType_body_slot.
    + by apply setType_chain_ok.
    + intros k. apply get_all_append_all.
Qed.

Lemma form_urlencoded_witness :
  ∃ r1 r2, WithFormField "b" (VInt 2) fresh_example = Ok r1
    ∧ encodeRequest r1 = Ok (r2, true)
    ∧ body_slot r2
      = ("WithForm or WithFormField", Some (Http.StringsReader "b=2"), 3).
Proof.
  assert (urlencoded_ready fresh_example) as Hready.
  { split; [reflexivity |]. split; [reflexivity |]. right. left. reflexivity. }
  destruct (form_urlencoded fresh_example Hready) as [H _].
  destruct (H "b" (VInt 2)) as (r1 & H1 & _ & _ & _ & H2).
  destruct (H2 eq_refl) as (f & r2 & Hf & He & Hb & _).
  exists r1, r2. split; [exact H1 |]. split; [exact He |].
  rewrite Hb. revert Hf. injection H1 as <-. intros [= <-].
  vm_compute. reflexivity.
Defined.

(** ** Multipart forms *)

Lemma bind_Ok {A B : Type} (x : A) (k : A → result B) : (Ok x ≫= k) = k x.
Proof. reflexivity. Qed.

Lemma on_multipart_some f r w buf :
  multipart r = Some w → formbuf r = Some buf →
  on_multipart f r
  = Ok (set_formbuf (Some (f w buf).2) (set_multipart (Some (f w buf).1) r)).
Proof.
  intros Hw Hb. unfold on_multipart. rewrite Hw, Hb. by destruct (f w buf).
Qed.

Lemma setType_multipart_ready s r :
  multipart_ready r → multipart_ready (setType s "multipart/form-data" false r).
Proof.
  intros (Hf & Hm & Hb & Ht). unfold multipart_ready.
  rewrite setType_chain_ok, setType_multipart, setType_formbuf by exact Ht.
  split; [done |]. split; [done |]. split; [done |]. by apply setType_type_free.
Qed.

Lemma setType_mp_view s ty ow r : mp_view (setType s ty ow r) = mp_view r.
Proof. unfold mp_view. by rewrite setType_multipart, setType_formbuf. Qed.

Lemma write_fields_as_calls (f : Url.Values) (keys : list string) :
  ∀ ra rb,
    (∀ k, k ∈ keys → Url.get_all f k ≠ []) →
    mp_view ra = mp_view rb → multipart_ready rb →
    ∃ ra' rb',
      write_fields f keys ra = Ok ra'
      ∧ run (map (λ k, OpWithFormField k
                         (VString (hd EmptyString (Url.get_all f k)))) keys) rb
        = Ok rb'
      ∧ mp_view ra' = mp_view rb'
      ∧ chain ra' = chain ra ∧ chain rb' = chain rb
      ∧ body_slot ra' = body_slot ra ∧ body_slot rb' = body_slot rb.
Proof.
  induction keys as [|k keys IH]; intros ra rb Hne Hview Hready; simpl.
  - by exists ra, rb.
  - destruct (Url.get_all f k) as [|v vs] eqn:Hk.
    { exfalso. apply (Hne k); [left | done]. }
    simpl.
    pose proof Hready as (Hf & [w Hw] & [buf Hb] & Ht).
    assert (multipart ra = Some w ∧ formbuf ra = Some buf) as [Hwa Hba].
    { unfold mp_view in Hview. rewrite Hw, Hb in Hview.
      by injection Hview as -> ->. }
    rewrite (on_multipart_some _ ra w buf) by done. rewrite bind_Ok.
    unfold WithFormField. rewrite Hf, Hw.
    rewrite (on_multipart_some _ _ w buf)
      by (by rewrite ?setType_multipart, ?setType_formbuf).
    rewrite bind_Ok. change (Sprint (VString v)) with v.
    destruct (IH
      (set_formbuf (Some (Multipart.WriteField k v w buf).2)
         (set_multipart (Some (Multipart.WriteField k v w buf).1) ra))
      (set_formbuf (Some (Multipart.WriteField k v w buf).2)
         (set_multipart (Some (Multipart.WriteField k v w buf).1)
            (setType "WithFormField" "multipart/form-data" false rb))))
      as (ra' & rb' & E1 & E2 & E3 & E4 & E5 & E6 & E7).
    + intros k' Hk'. apply Hne. by right.
    + done.
    + destruct (setType_multipart_ready "WithFormField" rb Hready)
        as (Hf' & _ & _ & Ht').
      split; [done |]. split; [by eexists |]. split; [by eexists |]. done.
    + exists ra', rb'. rewrite E1, E2. do 3 (split; [done |]).
      split; [by rewrite E4 |].
      split; [rewrite E5; simpl; by apply setType_chain_ok |].
      split; [by rewrite E6 |].
      rewrite E7. apply (setType_body_slot "WithFormField").
Qed.

Lemma write_fields_panics (f : Url.Values) (keys : list string) :
  ∀ r, is_Some (multipart r) → is_Some (formbuf r) →
       (∃ k, k ∈ keys ∧ Url.get_all f k = []) →
       ∃ why, write_fields f keys r = Panic why.
Proof.
  induction keys as [|k keys IH]; intros r [w Hw] [buf Hb] (k0 & Hin & Hk0); simpl.
  - by apply elem_of_nil in Hin.
  - destruct (Url.get_all f k) as [|v vs] eqn:Hk; [by eexists |].
    rewrite (on_multipart_some _ r w buf) by done. rewrite bind_Ok.
    apply IH; [by eexists | by eexists |].
    exists k0. split; [| done].
    apply elem_of_cons in Hin as [-> | Hin]; [congruence | done].
Qed.

(** X11. With the multipart writer open, [WithForm] writes one field per
    key, in the order of the sorted keys, and of the values of a key it
    writes the first one only. On a request with no failure recorded
    whose content type can be set to the multipart one, when every key of
    the encoded object has a value the call leaves the writer and its
    buffer as the [WithFormField] calls for the sorted keys and their
    first values leave them, records no failure and leaves the body slot
    as it is. When a key has no value, the call panics. *)
Theorem WithForm_multipart_first_values (object : Object) (f : Url.Values)
    (r : Request) :
  multipart_ready r →
  encoded_of object = inl f →
  ((∀ k, f !! k ≠ Some []) →
   ∃ r1 r2, WithForm object r = Ok r1
     ∧ run (first_value_fields f) r = Ok r2
     ∧ mp_view r1 = mp_view r2
     ∧ chain r1 = chain r ∧ chain r2 = chain r
     ∧ body_slot r1 = body_slot r)
  ∧ ((∃ k, f !! k = Some []) → ∃ why, WithForm object r = Panic why).
Proof.
  intros Hready Henc. pose proof Hready as (Hf & [w Hw] & [buf Hb] & Ht).
  unfold WithForm. rewrite Hf, Henc, Hw.
  destruct (sorted_keys_spec f) as (_ & _ & Hkeys).
  split.
  - intros Hne.
    destruct (write_fields_as_calls f (Url.sorted_keys f)
                (setType "WithForm" "multipart/form-data" false r) r)
      as (r1 & r2 & E1 & E2 & E3 & E4 & E5 & E6 & _).
    + intros k [vs Hk]%Hkeys. unfold Url.get_all. rewrite Hk. simpl.
      intros ->. by apply (Hne k).
    + apply setType_mp_view.
    + done.
    + exists r1, r2. split; [done |]. split; [done |]. split; [done |].
      split; [rewrite E4; by apply setType_chain_ok |]. split; [done |].
      rewrite E6. apply setType_body_slot.
  - intros (k & Hk). apply write_fields_panics.
    + rewrite setType_multipart, Hw. by eexists.
    + rewrite setType_formbuf, Hb. by eexists.
    + exists k. split; [apply Hkeys; by eexists |].
      unfold Url.get_all. by rewrite Hk.
Qed.

Lemma WithForm_multipart_first_values_witness :
  ∃ r1 r2,
    WithForm (ObjOther (inl (<["b" := ["2"; "3"]]> (<["a" := ["1"]]> ∅))))
      multipart_fresh_example = Ok r1
    ∧ run [OpWithFormField "a" (VString "1"); OpWithFormField "b" (VString "2")]
        multipart_fresh_example = Ok r2
    ∧ mp_view r1 = mp_view r2.
Proof.
  assert (multipart_ready multipart_fresh_example) as Hready.
  { split; [reflexivity |]. split; [by eexists |]. split; [by eexists |].
    right; right. reflexivity. }
  destruct (WithForm_multipart_first_values
              (ObjOther (inl (<["b" := ["2"; "3"]]> (<["a" := ["1"]]> ∅))))
              (<["b" := ["2"; "3"]]> (<["a" := ["1"]]> ∅))
              multipart_fresh_example Hready eq_refl) as [H _].
  destruct H as (r1 & r2 & H1 & H2 & H3 & _).
  - intros k. destruct (decide (k = "b")) as [-> | Hb].
    + rewrite lookup_insert_eq. discriminate.
    + rewrite lookup_insert_ne by done.
      destruct (decide (k = "a")) as [-> | Ha].
      * rewrite lookup_insert_eq. discriminate.
      * rewrite lookup_insert_ne by done. rewrite lookup_empty. discriminate.
  - exists r1, r2. split; [exact H1 |]. split; [exact H2 | exact H3].
Defined.

(** X12. [WithMultipart] opens the writer once. On a request with no
    failure recorded, a free body slot and no writer, whose content type
    can be set to the multipart one, it opens a writer on an empty buffer
    and takes the body slot for that buffer, with the content length 0.
    On a request that has its writer, a further call keeps the writer
    with its boundary and the buffer with what has been written, and
    changes neither the body slot nor the chain. *)
Theorem WithMultipart_once (boundary : string) (r : Request) :
  Chain.failed (chain r) = false →
  type_free "multipart/form-data" r →
  (multipart r = None → bodySetter r = EmptyString →
   ∃ r', WithMultipart boundary r = Ok r'
     ∧ mp_view r' = (Some (Multipart.NewWriter boundary), Some EmptyString)
     ∧ body_slot r' = ("WithMultipart", Some Http.FormBuf, 0)
     ∧ multipart_ready r')
  ∧ (is_Some (multipart r) →
     ∃ r', WithMultipart boundary r = Ok r'
       ∧ mp_view r' = mp_view r
       ∧ body_slot r' = body_slot r
       ∧ chain r' = chain r).
Proof.
  intros Hf Ht. unfold WithMultipart. rewrite Hf, setType_multipart. split.
  - intros -> Hfree. unfold setBody. simpl. rewrite setType_bodySetter, Hfree. simpl.
    eexists. split; [reflexivity |]. split; [done |]. split; [done |].
    split; [simpl; by rewrite setType_chain_ok |].
    split; [by eexists |]. split; [by eexists |].
    by apply (setType_type_free "WithMultipart").
  - intros [w ->]. eexists. split; [reflexivity |].
    split; [apply setType_mp_view |]. split; [apply setType_body_slot |].
    by apply setType_chain_ok.
Qed.

Lemma WithMultipart_once_witness :
  WithMultipart "xyz" fresh_example = Ok multipart_fresh_example
  ∧ ∃ r', WithMultipart "abc" multipart_example = Ok r'
      ∧ mp_view r' = mp_view multipart_example.
Proof.
  split; [vm_compute; reflexivity |].
  destruct (WithMultipart_once "abc" multipart_example eq_refl) as [_ H].
  - right; right. reflexivity.
  - destruct H as (r' & H1 & H2 & _); [by eexists |].
    exists r'. split; [exact H1 | exact H2].
Defined.

(** X13. With the writer open, on a request with no failure recorded
    whose content type can be set to the multipart one, [WithFile] first
    writes the header of the part, with the field name and the file name,
    and then the content: of the first reader given if it is not nil, of
    the file otherwise. When the file cannot be opened the failure is
    recorded and the header of the part stays in the buffer; when the
    reader ends on an error, the failure is recorded and what was read
    stays in the buffer. The body slot is unchanged. [WithFileBytes] is
    [WithFile] on a file with these bytes. *)
Theorem WithFile_writes (key path : string) (reader : list (option Stream))
    (opened : Stream + string) (w : Multipart.Writer) (buf : string)
    (r : Request) :
  Chain.failed (chain r) = false →
  type_free "multipart/form-data" r →
  multipart r = Some w → formbuf r = Some buf →
  (∃ r', WithFile key path reader opened r = Ok r'
     ∧ multipart r' = Some (Multipart.CreateFormFile key path w buf).1
     ∧ body_slot r' = body_slot r
     ∧ match file_source reader opened with
       | inl s =>
           formbuf r'
           = Some ((Multipart.CreateFormFile key path w buf).2 +:+ data s)
           ∧ chain r' = match read_err s with
                        | Some e => Chain.mk true (Some e)
                        | None => chain r
                        end
       | inr e =>
           formbuf r' = Some (Multipart.CreateFormFile key path w buf).2
           ∧ chain r' = Chain.mk true (Some e)
       end)
  ∧ ∀ bytes, WithFileBytes key path bytes r
             = WithFile key path [] (inl (mkStream bytes None)) r.
Proof.
  intros Hf Ht Hw Hb.
  assert (∀ msg, Chain.fail msg (chain r) = Chain.mk true (Some msg)) as Hfail.
  { intros msg. unfold Chain.fail. unfold Chain.failed in Hf. by rewrite Hf. }
  assert (∀ rd op,
    WithFile key path rd op r
    = match file_source rd op with
      | inl s =>
          let r2 := set_formbuf
                      (Some ((Multipart.CreateFormFile key path w buf).2 +:+ data s))
                      (set_multipart (Some (Multipart.CreateFormFile key path w buf).1)
                         (setType "WithFile" "multipart/form-data" false r)) in
          match read_err s with
          | Some e => Ok (chain_fail e r2)
          | None => Ok r2
          end
      | inr e =>
          Ok (chain_fail e
                (set_formbuf (Some (Multipart.CreateFormFile key path w buf).2)
                   (set_multipart (Some (Multipart.CreateFormFile key path w buf).1)
                      (setType "WithFile" "multipart/form-data" false r))))
      end) as Hcall.
  { intros rd op. unfold WithFile. rewrite Hf, setType_multipart, Hw.
    rewrite (on_multipart_some _ _ w buf) by (by rewrite ?setType_multipart, ?setType_formbuf).
    simpl. fold (file_source rd op).
    destruct (file_source rd op) as [s | e]; [| done].
    unfold on_multipart. simpl. by destruct (read_err s). }
  split.
  - rewrite Hcall.
    pose proof (setType_chain_ok "WithFile" "multipart/form-data" r Ht) as Hc.
    pose proof (setType_body_slot "WithFile" "multipart/form-data" false r) as Hs.
    destruct (file_source reader opened) as [s | e]; simpl.
    + destruct (read_err s) as [e |]; eexists; (split; [reflexivity |]);
        (split; [done |]); (split; [done |]); (split; [done |]).
      * unfold chain_fail. simpl. by rewrite Hc, Hfail.
      * done.
    + eexists. split; [reflexivity |]. split; [done |]. split; [done |].
      split; [done |]. unfold chain_fail. simpl. by rewrite Hc, Hfail.
  - intros bytes. unfold WithFileBytes. rewrite Hf. by rewrite !Hcall.
Qed.

Lemma WithFile_writes_witness :
  ∃ r', WithFile "avatar" "john.png" [] (inr "open john.png: no such file or directory")
          multipart_fresh_example = Ok r'
    ∧ formbuf r'
      = Some (Multipart.CreateFormFile "avatar" "john.png"
                (Multipart.NewWriter "xyz") EmptyString).2
    ∧ Chain.message (chain r') = Some "open john.png: no such file or directory".
Proof.
  destruct (WithFile_writes "avatar" "john.png" []
              (inr "open john.png: no such file or directory")
              (Multipart.NewWriter "xyz") EmptyString multipart_fresh_example)
    as [(r' & H1 & _ & _ & H2 & H3) _].
  - reflexivity.
  - right; right. reflexivity.
  - reflexivity.
  - reflexivity.
  - exists r'. split; [exact H1 |]. split; [exact H2 |]. by rewrite H3.
Defined.

(** ** The round trip over HTTP *)

Lemma encodeRequest_ok r :
  Chain.failed (chain r) = false → wf r → no_form_conflict r →
  ∃ r1, encodeRequest r = Ok (r1, true)
    ∧ chain r1 = chain r ∧ config r1 = config r
    ∧ wsUpgrade r1 = wsUpgrade r ∧ matchers r1 = matchers r.
Proof.
  intros Hf Hwf Hc.
  destruct (encode_url_frame r)
    as (E1 & E2 & _ & _ & _ & _ & E3 & _ & _ & E4 & _ & E5 & _).
  destruct (multipart r) as [w|] eqn:Hw.
  { destruct (proj1 Hwf) as [buf Hb]; [by rewrite Hw |].
    rewrite (encodeRequest_multipart _ _ _ Hf Hw Hb).
    eexists. split; [reflexivity |].
    destruct (encode_multipart_spec w buf (encode_url r))
      as (_ & _ & _ & _ & _ & F1 & F2 & F3 & _).
    rewrite F1, F2, F3. do 3 (split; [done |]).
    rewrite <- E5. unfold encode_multipart, setType. simpl. by repeat case_match. }
  destruct (form r) as [f|] eqn:Hform.
  - destruct Hc as [[w0 Hc] | [Hc | Hc]]; [congruence | congruence |].
    rewrite (encodeRequest_form _ _ Hf Hw Hform). unfold setBody.
    rewrite E3, Hc. simpl. rewrite andb_false_r. simpl.
    eexists. split; [reflexivity |]. simpl. done.
  - rewrite encodeRequest_plain by done. by eexists.
Qed.

Lemma Chain_fail_fresh msg c :
  Chain.failed c = false → Chain.fail msg c = Chain.mk true (Some msg).
Proof. intros H. unfold Chain.fail. unfold Chain.failed in H. by rewrite H. Qed.

Lemma roundTrip_http (c : Client) (r : Request) :
  Chain.failed (chain r) = false →
  wf r →
  no_form_conflict r →
  wsUpgrade r = false →
  cfg_Client (config r) = Some c →
  ∃ r1, encodeRequest r = Ok (r1, true)
    ∧ chain r1 = chain r ∧ config r1 = config r ∧ matchers r1 = matchers r
    ∧ roundTrip r
      = match Do c (http r1) with
        | (Some hr, None) =>
            Ok (r1, Some (makeResponse (config r) (chain r) (Some hr) None),
                request_events r1 ++ [EvClientDo (http r1)]
                ++ response_events r1 hr)
        | (None, None) =>
            Ok (r1, None, request_events r1 ++ [EvClientDo (http r1)])
        | (_, Some e) =>
            Ok (chain_fail e r1, None,
                request_events r1 ++ [EvClientDo (http r1)])
        end.
Proof.
  intros Hf Hwf Hc Hws Hcl.
  destruct (encodeRequest_ok r Hf Hwf Hc) as (r1 & He & E1 & E2 & E3 & E4).
  exists r1. do 4 (split; [done |]).
  unfold roundTrip. rewrite He, bind_Ok. cbn [negb].
  rewrite E3, Hws. cbn [negb].
  unfold sendRequest. rewrite E1, Hf, E2, Hcl.
  unfold request_events, response_events. rewrite E2.
  destruct (Do c (http r1)) as [[hr|] [e|]]; simpl;
    rewrite ?E3, ?Hws; simpl; rewrite ?E1, ?E2; done.
Qed.

(** X14. A round trip over HTTP. On a request with no failure recorded,
    without the websocket upgrade, whose form does not meet a taken body
    slot, [Expect] returns, and the collaborators are asked in this
    order: every printer is shown the encoded request, and the client is
    asked to send it, once. When the client answers, every printer is
    shown the answer, the response holds it, and the matchers are run in
    the order in which they were attached. When the client returns an
    error, the failure is recorded; then, and when the client returns
    neither an answer nor an error, the response is empty, no printer is
    shown a response and no matcher is run. *)
Theorem Expect_http (c : Client) (r : Request) :
  Chain.failed (chain r) = false →
  wf r →
  no_form_conflict r →
  wsUpgrade r = false →
  cfg_Client (config r) = Some c →
  ∃ r1, encodeRequest r = Ok (r1, true)
    ∧ match Do c (http r1) with
      | (Some hr, None) =>
          Expect r
          = Ok (r1, makeResponse (config r) (chain r) (Some hr) None,
                request_events r1 ++ [EvClientDo (http r1)]
                ++ response_events r1 hr ++ map EvMatcher (matchers r))
      | (None, None) =>
          Expect r
          = Ok (r1, makeResponse (config r) (chain r) None None,
                request_events r1 ++ [EvClientDo (http r1)])
      | (_, Some e) =>
          Expect r
          = Ok (chain_fail e r1,
                makeResponse (config r) (Chain.mk true (Some e)) None None,
                request_events r1 ++ [EvClientDo (http r1)])
      end.
Proof.
  intros Hf Hwf Hc Hws Hcl.
  destruct (roundTrip_http c r Hf Hwf Hc Hws Hcl) as (r1 & He & E1 & E2 & E4 & Hrt).
  exists r1. split; [done |].
  unfold Expect. rewrite Hrt.
  destruct (Do c (http r1)) as [[hr|] [e|]]; rewrite bind_Ok; simpl;
    rewrite ?E1, ?E2, ?E4, ?(Chain_fail_fresh _ _ Hf), <- ?app_assoc; done.
Qed.

Lemma Expect_http_witness :
  ∃ r1 resp,
    Expect printing_example
    = Ok (r1, resp,
          [EvPrinterRequest 0%nat (http r1); EvPrinterRequest 1%nat (http r1);
           EvClientDo (http r1);
           EvPrinterResponse 0%nat (Http.mkResponse 200 ∅ "ok");
           EvPrinterResponse 1%nat (Http.mkResponse 200 ∅ "ok");
           EvMatcher 7%nat; EvMatcher 8%nat])
    ∧ Http.Path (Http.url (http r1)) = "/users".
Proof.
  destruct (Expect_http example_client printing_example) as (r1 & H1 & H2).
  - reflexivity.
  - split; intros [x Hx]; discriminate Hx.
  - right; left. reflexivity.
  - reflexivity.
  - reflexivity.
  - exists r1. injection H1 as <-. eexists. split; [exact H2 | reflexivity].
Defined.

(** X15. A form that meets a taken body slot stops the round trip
    before the client. On a request with no failure recorded, without
    the websocket upgrade and without a multipart writer, whose form is
    pending while the body slot is taken, [Expect] records the conflict
    of the two body setters, leaves the body as it is and returns an
    empty response; every printer is still shown the request, the client
    is not asked, and no matcher is run. *)
Theorem Expect_form_conflict (f : Url.Values) (r : Request) :
  Chain.failed (chain r) = false →
  wsUpgrade r = false →
  multipart r = None →
  form r = Some f →
  bodySetter r ≠ EmptyString →
  ∃ r1, Expect r
        = Ok (r1, makeResponse (config r) (chain r1) None None, request_events r1)
    ∧ chain r1
      = Chain.mk true
          (Some (ambiguous_body_message (bodySetter r) "WithForm or WithFormField"))
    ∧ body_slot r1 = body_slot r
    ∧ http r1 = http (encode_url r).
Proof.
  intros Hf Hws Hm Hform Hb.
  destruct (encode_url_frame r)
    as (E1 & E2 & _ & _ & _ & _ & E3 & _ & _ & E4 & _ & E5 & E6).
  unfold Expect, roundTrip.
  rewrite (encodeRequest_form _ _ Hf Hm Hform).
  rewrite setBody_taken by (by rewrite E3). rewrite !bind_Ok.
  remember (chain_fail (ambiguous_body_message (bodySetter (encode_url r))
                          "WithForm or WithFormField") (encode_url r))
    as r1 eqn:Hr1.
  assert (wsUpgrade r1 = false) as Hws1 by (by rewrite Hr1, <- Hws, <- E4).
  assert (Chain.failed (chain r1) = true) as Hf1
    by (rewrite Hr1; apply chain_fail_failed).
  assert (config r1 = config r) as Hc1 by (by rewrite Hr1, <- E2).
  simpl. rewrite Hws1. simpl. rewrite Hws1. unfold sendRequest. rewrite Hf1. simpl.
  exists r1. rewrite app_nil_r, Hc1. unfold request_events. rewrite Hc1.
  split; [done |].
  rewrite Hr1. unfold chain_fail. simpl. rewrite E1, E3, (Chain_fail_fresh _ _ Hf).
  split; [done |]. split; [| done].
  rewrite <- E6. done.
Qed.

Lemma Expect_form_conflict_witness :
  example "/" [OpWithBytes (Some "x"); OpWithFormField "a" (VInt 1)]
  = Ok form_conflict_example
  ∧ ∃ r1, Expect form_conflict_example
          = Ok (r1, makeResponse example_config (chain r1) None None,
                request_events r1)
      ∧ Chain.message (chain r1)
        = Some (ambiguous_body_message "WithBytes" "WithForm or WithFormField").
Proof.
  split; [vm_compute; reflexivity |].
  destruct (Expect_form_conflict (<["a" := ["1"]]> ∅) form_conflict_example)
    as (r1 & H1 & H2 & _).
  - reflexivity.
  - reflexivity.
  - reflexivity.
  - reflexivity.
  - discriminate.
  - exists r1. split; [exact H1 |]. by rewrite H2.
Defined.

(** X16. A failed request reaches no collaborator. On a request with a
    failure recorded, every sequence of calls returns the request as it
    was, but for the matchers that [WithMatcher] attached, and [Expect]
    then returns the empty response with the chain as it was: no
    printer, client or dialer is asked and no matcher is run, the
    attached ones included. *)
Theorem failed_request_is_inert (ops : list op) (r : Request) :
  Chain.failed (chain r) = true →
  run ops r = Ok (set_matchers (matchers r ++ matchers_of ops) r)
  ∧ Expect (set_matchers (matchers r ++ matchers_of ops) r)
    = Ok (set_matchers (matchers r ++ matchers_of ops) r,
          makeResponse (config r) (chain r) None None, []).
Proof.
  intros Hf. split.
  - revert r Hf. induction ops as [|o ops IH]; intros r Hf; simpl.
    + rewrite app_nil_r. by destruct r.
    + assert ((∃ m, o = OpWithMatcher m) ∨ (∀ m, o ≠ OpWithMatcher m))
        as [[m ->] | Hno].
      { destruct o; first [left; by eexists | right; intros m; discriminate]. }
      * simpl. rewrite IH by done.
        unfold WithMatcher. simpl. by rewrite <- app_assoc.
      * rewrite step_failed by done. simpl. rewrite IH by done.
        destruct o; try done. by destruct (Hno matcher).
  - unfold Expect, roundTrip. rewrite encodeRequest_failed by done. done.
Qed.

Lemma failed_request_is_inert_witness :
  ∃ r, failed_example = Ok r
    ∧ run [OpWithMatcher 7%nat; OpWithJSON (inl "{}")] r
      = Ok (set_matchers [7%nat] r)
    ∧ Expect (set_matchers [7%nat] r)
      = Ok (set_matchers [7%nat] r, makeResponse (config r) (chain r) None None, []).
Proof.
  eexists. split; [vm_compute; reflexivity |].
  match goal with
  | |- run ?ops ?r = _ ∧ _ => destruct (failed_request_is_inert ops r eq_refl) as [H1 H2]
  end.
  split; [exact H1 | exact H2].
Defined.

(** ** The round trip over a websocket *)

(** X17. With the upgrade enabled, on a request with no failure
    recorded, no body, no form and a dialer, the round trip returns and
    the dialer is asked once, after every printer was shown the request,
    for the URL that encoding made, with the scheme wss when the scheme
    was https and ws for every other scheme, and with the headers of the
    request. The client is not asked. *)
Theorem websocket_dials_ws_scheme (d : WebsocketDialer) (r : Request) :
  Chain.failed (chain r) = false →
  wsUpgrade r = true →
  bodySetter r = EmptyString → multipart r = None → form r = None →
  cfg_WebsocketDialer (config r) = Some d →
  let u := Http.set_scheme (ws_scheme (Http.url (http (encode_url r))))
             (Http.url (http (encode_url r))) in
  ∃ r' resp tail,
    roundTrip r
    = Ok (r', resp,
          map (λ p, EvPrinterRequest p (Http.set_url u (http (encode_url r))))
            (Printers (config r))
          ++ EvDial u (header r) :: tail)
    ∧ Http.url (http r') = u
    ∧ Forall (λ e, match e with EvPrinterResponse _ _ => True | _ => False end)
        tail.
Proof.
  intros Hf Hws Hb Hm Hform Hd u.
  destruct (encode_url_frame r)
    as (E1 & E2 & _ & _ & _ & _ & E3 & _ & _ & E4 & E5 & _).
  pose proof (encodeRequest_plain r Hf Hm Hform) as He.
  assert (encodeWebsocketRequest (encode_url r)
          = (set_url_of (Http.set_scheme (ws_scheme (Http.url (http (encode_url r)))))
               (encode_url r), true)) as Hw.
  { unfold encodeWebsocketRequest. by rewrite E1, Hf, E3, Hb. }
  set (r2 := set_url_of (Http.set_scheme (ws_scheme (Http.url (http (encode_url r)))))
               (encode_url r)) in *.
  assert (config r2 = config r) as Hc2 by (by rewrite <- E2).
  assert (header r2 = header r) as Hh2 by (by rewrite <- E5).
  assert (Http.url (http r2) = u) as Hu2 by done.
  assert (http r2 = Http.set_url u (http (encode_url r))) as Hhttp by done.
  assert (∃ r3 resp conn tail,
            sendWebsocketRequest r2
            = Ok (r3, (resp, conn), EvDial u (header r) :: tail)
            ∧ tail = [] ∧ http r3 = http r2 ∧ config r3 = config r2)
    as (r3 & resp & conn & tail & Hs & -> & Hh3 & Hc3).
  { unfold sendWebsocketRequest.
    assert (Chain.failed (chain r2) = false) as -> by (by rewrite <- Hf, <- E1).
    rewrite Hc2, Hd, Hu2, Hh2.
    destruct (Dial d u (header r)) as [[conn resp] err].
    destruct err as [[| text] |]; by do 4 eexists. }
  rewrite (roundTrip_websocket_sent r (encode_url r) r2 r3 resp conn
             [EvDial u (header r)] He);
    [| by rewrite E4 | done | done].
  do 3 eexists. split; [| split].
  - rewrite Hc2, Hhttp. simpl. reflexivity.
  - by rewrite Hh3.
  - destruct resp; simpl; [| done]. apply Forall_map, Forall_true. done.
Qed.

Lemma websocket_dials_ws_scheme_witness :
  ∃ r' resp ev,
    roundTrip secure_upgrade_example = Ok (r', resp, ev)
    ∧ Http.url (http r') = Http.mkURL "wss" "example.com" "/chat" EmptyString
    ∧ ev !! 2%nat
      = Some (EvDial (Http.mkURL "wss" "example.com" "/chat" EmptyString) ∅).
Proof.
  destruct (websocket_dials_ws_scheme example_dialer secure_upgrade_example)
    as (r' & resp & tail & H1 & H2 & _); try reflexivity.
  exists r', resp. eexists. split; [exact H1 |]. split; [exact H2 | reflexivity].
Defined.

(** X18. Encoding is not repeatable. On a request with no failure
    recorded, no form and no multipart writer, encoding twice, as two
    round trips do, joins the request path to the URL path a second
    time; and with the upgrade enabled and no body, the second encoding
    for the websocket sets the scheme ws, also when the first one had
    set wss. *)
Theorem encoding_not_repeatable (r : Request) :
  Chain.failed (chain r) = false →
  multipart r = None → form r = None →
  ∃ r1 r2,
    encodeRequest r = Ok (r1, true)
    ∧ encodeRequest r1 = Ok (r2, true)
    ∧ Http.Path (Http.url (http r2))
      = concatPaths (concatPaths (Http.Path (Http.url (http r))) (path r)) (path r)
    ∧ Http.RawQuery (Http.url (http r2)) = Http.RawQuery (Http.url (http r1))
    ∧ (bodySetter r = EmptyString →
       ∃ r3 r4,
         encodeWebsocketRequest r = (r3, true)
         ∧ encodeWebsocketRequest r3 = (r4, true)
         ∧ Http.Scheme (Http.url (http r3)) = ws_scheme (Http.url (http r))
         ∧ Http.Scheme (Http.url (http r4)) = "ws").
Proof.
  intros Hf Hm Hform.
  destruct (encode_url_frame r)
    as (E1 & _ & E2 & _ & E3 & E4 & _).
  exists (encode_url r), (encode_url (encode_url r)).
  split; [by apply encodeRequest_plain |].
  split; [apply encodeRequest_plain; by rewrite ?E1, ?E2, ?E3 |].
  split; [| split].
  - unfold encode_url. simpl.
    destruct (query r) as [q|] eqn:Hq; simpl; rewrite ?Hq; simpl; done.
  - unfold encode_url. simpl.
    destruct (query r) as [q|] eqn:Hq; simpl; rewrite ?Hq; simpl; done.
  - intros Hb.
    assert (∀ r0, Chain.failed (chain r0) = false → bodySetter r0 = EmptyString →
              encodeWebsocketRequest r0
              = (set_url_of (Http.set_scheme (ws_scheme (Http.url (http r0)))) r0,
                 true)) as Hw.
    { intros r0 Hf0 Hb0. unfold encodeWebsocketRequest. by rewrite Hf0, Hb0. }
    do 2 eexists. split; [by apply Hw |]. split; [by apply Hw |].
    split; [done |]. unfold ws_scheme. simpl.
    by destruct (String.eqb (Http.Scheme (Http.url (http r))) "https").
Qed.

Lemma encoding_not_repeatable_witness :
  ∃ r1 r2,
    encodeRequest printing_example = Ok (r1, true)
    ∧ encodeRequest r1 = Ok (r2, true)
    ∧ Http.Path (Http.url (http r1)) = "/users"
    ∧ Http.Path (Http.url (http r2)) = "/users/users".
Proof.
  destruct (encoding_not_repeatable printing_example)
    as (r1 & r2 & H1 & H2 & H3 & _); try reflexivity.
  exists r1, r2. split; [exact H1 |]. split; [exact H2 |].
  split; [| by rewrite H3].
  injection H1 as <-. reflexivity.
Defined.

(** ** No call panics *)




















(** ** Bodies with their type *)

Lemma sends_intro c r body n ty :
  Chain.failed (chain r) = false → wf r →
  multipart r = None → form r = None →
  wsUpgrade r = false → cfg_Client (config r) = Some c →
  Http.Body (http r) = body → Http.ContentLength (http r) = n →
  Http.Get (header r) "Content-Type" = ty →
  sends r body n ty.
Proof.
  intros Hf Hwf Hm Hform Hws Hc Hb Hn Ht.
  destruct (roundTrip_http c r Hf Hwf) as (r1 & He & E1 & E2 & E4 & Hrt);
    [right; by left | done | done |].
  rewrite encodeRequest_plain in He by done. injection He as <-.
  destruct (encode_url_frame r)
    as (_ & _ & _ & _ & _ & _ & _ & _ & _ & _ & F1 & _ & F2).
  assert (Http.Body (http (encode_url r)) = body
          ∧ Http.ContentLength (http (encode_url r)) = n) as [Hb' Hn'].
  { unfold body_slot in F2. injection F2 as _ -> ->. done. }
  unfold sends, Expect. rewrite Hrt.
  assert (Http.Get (header (encode_url r)) "Content-Type" = ty) as Ht'
    by (by rewrite F1).
  destruct (Do c (http (encode_url r))) as [[hr|] [e|]]; rewrite bind_Ok.
  - exists (chain_fail e (encode_url r)), (makeResponse (config r) (Chain.mk true (Some e)) None None), [].
    split; [| done]. unfold chain_fail. simpl.
    by rewrite E1, E2, (Chain_fail_fresh _ _ Hf).
  - exists (encode_url r). do 2 eexists.
    split; [rewrite <- app_assoc; reflexivity | done].
  - exists (chain_fail e (encode_url r)), (makeResponse (config r) (Chain.mk true (Some e)) None None), [].
    split; [| done]. unfold chain_fail. simpl.
    by rewrite E1, E2, (Chain_fail_fresh _ _ Hf).
  - exists (encode_url r). do 2 eexists. split; [reflexivity | done].
Qed.

Lemma typed_body s ty rd n r :
  Chain.failed (chain r) = false → bodySetter r = EmptyString →
  forceType r = false → Http.Get (header r) "Content-Type" = EmptyString →
  ∃ r1, setBody s (Some rd) n false (setType s ty false r) = Ok r1
    ∧ chain r1 = chain r ∧ config r1 = config r ∧ mp_view r1 = mp_view r
    ∧ form r1 = form r ∧ wsUpgrade r1 = wsUpgrade r
    ∧ body_slot r1 = (s, Some rd, n)
    ∧ Http.Get (header r1) "Content-Type" = ty.
Proof.
  intros Hf Hb Hforce Ht. unfold setBody. rewrite setType_bodySetter, Hb. simpl.
  rewrite andb_false_r. eexists. split; [reflexivity |].
  unfold setType. rewrite Hforce, Ht. simpl.
  do 6 (split; [done |]). unfold header, Http.Get. simpl.
  change (Http.CanonicalHeaderKey "Content-Type") with "Content-Type".
  by rewrite lookup_insert_eq.
Qed.

(** X20. What the typed body calls send. On a request as [NewRequest]
    leaves it (no failure recorded, a free body slot, no content type,
    no form, no multipart writer, no upgrade), [WithJSON] with the bytes
    that the marshaller returned makes [Expect] show the printers and
    then the client a request whose body is these bytes, whose content
    length is their number and whose content type is the JSON one;
    [WithJSONPretty] gives the same request for the same bytes.
    [WithText] does the same with the text and the plain text type, and
    [WithBytes] with the bytes and no content type. *)
Theorem typed_body_sent (c : Client) (r : Request) :
  Chain.failed (chain r) = false → wf r →
  multipart r = None → form r = None → wsUpgrade r = false →
  bodySetter r = EmptyString → forceType r = false →
  Http.Get (header r) "Content-Type" = EmptyString →
  cfg_Client (config r) = Some c →
  (∀ b, ∃ r1, WithJSON (inl b) r = Ok r1
          ∧ WithJSONPretty (inl b) r = Ok r1
          ∧ sends r1 (Some (Http.BytesReader b)) (len b)
              "application/json; charset=utf-8")
  ∧ (∀ s, ∃ r1, WithText s r = Ok r1
            ∧ sends r1 (Some (Http.StringsReader s)) (len s)
                "text/plain; charset=utf-8")
  ∧ (∀ b, ∃ r1, WithBytes (Some b) r = Ok r1
            ∧ sends r1 (Some (Http.BytesReader b)) (len b) EmptyString).
Proof.
  intros Hf Hwf Hm Hform Hws Hb Hforce Ht Hc.
  assert (∀ r1, mp_view r1 = mp_view r → wf r1 ∧ multipart r1 = None) as Hview.
  { intros r1 Hv. unfold mp_view in Hv. injection Hv as Hv1 Hv2.
    split; [unfold wf; by rewrite Hv1, Hv2 | by rewrite Hv1]. }
  split; [| split].
  - intros b.
    destruct (typed_body "WithJSON" "application/json; charset=utf-8"
                (Http.BytesReader b) (len b) r Hf Hb Hforce Ht)
      as (r1 & H1 & E1 & E2 & E3 & E4 & E5 & E6 & E7).
    exists r1. unfold WithJSON, WithJSONPretty. rewrite Hf.
    split; [done |]. split; [done |].
    destruct (Hview r1 E3) as [Hwf1 Hm1].
    unfold body_slot in E6. injection E6 as _ Hbody Hlen.
    apply (sends_intro c); try done; congruence.
  - intros s.
    destruct (typed_body "WithText" "text/plain; charset=utf-8"
                (Http.StringsReader s) (len s) r Hf Hb Hforce Ht)
      as (r1 & H1 & E1 & E2 & E3 & E4 & E5 & E6 & E7).
    exists r1. unfold WithText. rewrite Hf. split; [done |].
    destruct (Hview r1 E3) as [Hwf1 Hm1].
    unfold body_slot in E6. injection E6 as _ Hbody Hlen.
    apply (sends_intro c); try done; congruence.
  - intros b. unfold WithBytes, setBody. rewrite Hf, Hb. simpl.
    rewrite andb_false_r. eexists. split; [reflexivity |].
    apply (sends_intro c); done.
Qed.

Lemma typed_body_sent_witness :
  ∃ r1, WithJSON (inl "{}") fresh_example = Ok r1
    ∧ sends r1 (Some (Http.BytesReader "{}")) 2 "application/json; charset=utf-8".
Proof.
  destruct (typed_body_sent example_client fresh_example) as [H _];
    try reflexivity.
  - split; intros [x Hx]; discriminate Hx.
  - destruct (H "{}") as (r1 & H1 & _ & H2). exists r1. split; [exact H1 | exact H2].
Defined.

(** ** The client that is asked *)

(** X21. The client that a request sets is the one that is asked. On a
    request with no failure recorded, without the upgrade, whose form
    does not meet a taken body slot, after [WithClient] with a client
    [Expect] asks that client, and the response holds what it answers
    when it returns no error. After [WithHandler] with a handler the
    client is an HTTP client whose transport calls the handler, with the
    cookie jar of the client that was there if that was an HTTP client
    and with a new jar otherwise; [Expect] returns the answer of the
    handler to the encoded request and runs the matchers. A nil client
    or handler records a failure and leaves the configuration as it
    is. *)
Theorem client_asked (r : Request) :
  Chain.failed (chain r) = false → wf r → no_form_conflict r →
  wsUpgrade r = false →
  (∀ c, WithClient (Some c) r = set_config (set_Client (Some c) (config r)) r
        ∧ ∃ r1 r2 resp tail,
            encodeRequest (WithClient (Some c) r) = Ok (r1, true)
            ∧ Expect (WithClient (Some c) r)
              = Ok (r2, resp, request_events r1 ++ EvClientDo (http r1) :: tail)
            ∧ ((Do c (http r1)).2 = None → response resp = (Do c (http r1)).1))
  ∧ (∀ h, WithHandler (Some h) r
          = set_config
              (set_Client
                 (Some (HTTPClient (NewBinder h)
                          match cfg_Client (config r) with
                          | Some (HTTPClient _ jar) => jar
                          | _ => Some NewJar
                          end)) (config r)) r
          ∧ ∃ r1,
              encodeRequest (WithHandler (Some h) r) = Ok (r1, true)
              ∧ Expect (WithHandler (Some h) r)
                = Ok (r1,
                      makeResponse (config r1) (chain r) (Some (h (http r1))) None,
                      request_events r1 ++ [EvClientDo (http r1)]
                      ++ response_events r1 (h (http r1))
                      ++ map EvMatcher (matchers r)))
  ∧ config (WithClient None r) = config r
  ∧ config (WithHandler None r) = config r
  ∧ Chain.failed (chain (WithClient None r)) = true
  ∧ Chain.failed (chain (WithHandler None r)) = true.
Proof.
  intros Hf Hwf Hc Hws.
  split; [| split].
  - intros c. unfold WithClient. rewrite Hf. split; [done |].
    destruct (roundTrip_http c (set_config (set_Client (Some c) (config r)) r))
      as (r1 & He & E1 & E2 & E4 & Hrt); try done.
    exists r1. unfold Expect. rewrite Hrt.
    destruct (Do c (http r1)) as [[hr|] [e|]]; rewrite bind_Ok.
    + exists (chain_fail e r1). do 2 eexists. split; [done |]. split; [done | done].
    + exists r1. do 2 eexists. split; [done |].
      split; [rewrite <- !app_assoc; reflexivity | done].
    + exists (chain_fail e r1). do 2 eexists. split; [done |]. split; [done | done].
    + exists r1. do 2 eexists. split; [done |]. split; [done | done].
  - intros h. unfold WithHandler. rewrite Hf.
    assert (∀ jar,
      let r' := set_config
                  (set_Client (Some (HTTPClient (NewBinder h) jar)) (config r)) r in
      ∃ r1, encodeRequest r' = Ok (r1, true)
        ∧ Expect r'
          = Ok (r1, makeResponse (config r1) (chain r) (Some (h (http r1))) None,
                request_events r1 ++ [EvClientDo (http r1)]
                ++ response_events r1 (h (http r1))
                ++ map EvMatcher (matchers r))) as Hjar.
    { intros jar r'.
      destruct (roundTrip_http (HTTPClient (NewBinder h) jar) r')
        as (r1 & He & E1 & E2 & E4 & Hrt); try done.
      exists r1. split; [done |]. unfold Expect. rewrite Hrt. simpl.
      by rewrite E2, E4, <- !app_assoc. }
    destruct (cfg_Client (config r)) as [[t jar | d] |]; (split; [done |]);
      apply Hjar.
  - unfold WithClient, WithHandler. rewrite Hf. simpl.
    do 2 (split; [done |]). split; apply chain_fail_failed.
Qed.

Lemma client_asked_witness :
  ∃ r1,
    Expect (WithHandler (Some (λ _, Http.mkResponse 204 ∅ EmptyString)) printing_example)
    = Ok (r1,
          makeResponse (config r1) makeChain
            (Some (Http.mkResponse 204 ∅ EmptyString)) None,
          request_events r1 ++ [EvClientDo (http r1)]
          ++ response_events r1 (Http.mkResponse 204 ∅ EmptyString)
          ++ [EvMatcher 7%nat; EvMatcher 8%nat]).
Proof.
  destruct (client_asked printing_example) as (_ & H & _); try reflexivity.
  - split; intros [x Hx]; discriminate Hx.
  - right; left. reflexivity.
  - destruct (H (λ _, Http.mkResponse 204 ∅ EmptyString)) as (_ & r1 & _ & H2).
    exists r1. exact H2.
Defined.

(** ** The URL of the request *)

Lemma encodeRequest_host r r' ok :
  wf r → encodeRequest r = Ok (r', ok) → Http.Host (http r') = Http.Host (http r).
Proof.
  intros Hwf. destruct (Chain.failed (chain r)) eqn:Hf.
  { rewrite encodeRequest_failed by done. by intros [= <- _]. }
  assert (Http.Host (http (encode_url r)) = Http.Host (http r)) as Hh.
  { unfold encode_url. by destruct (query r) eqn:Hq; simpl; rewrite ?Hq. }
  destruct (multipart r) as [w|] eqn:Hw.
  - destruct (proj1 Hwf) as [buf Hb]; [by eexists |].
    rewrite (encodeRequest_multipart _ _ _ Hf Hw Hb). intros [= <- _].
    unfold encode_multipart. rewrite setType_overwrite.
    by destruct (forceType _).
  - destruct (form r) as [f|] eqn:Hform.
    + rewrite (encodeRequest_form _ _ Hf Hw Hform). unfold setBody. simpl.
      rewrite andb_false_r. destruct (negb _); simpl; by intros [= <- _].
    + rewrite encodeRequest_plain by done. by intros [= <- _].
Qed.

(** X22. On a request with no failure recorded, after [WithURL] with a
    URL that parsed, encoding returns and the request has the scheme and
    the host of that URL and its path with the request path joined to
    it; the query text is the pending query, encoded, when there is one,
    which replaces the query of the URL, and the query of the URL
    otherwise. The host field of the request is not changed by the call.
    A URL that does not parse records the error and changes nothing
    else. *)
Theorem WithURL_encoded (r : Request) :
  Chain.failed (chain r) = false →
  wf r →
  (∀ u, ∃ r1 ok,
     encodeRequest (WithURL (inl u) r) = Ok (r1, ok)
     ∧ Http.url (http r1)
       = Http.mkURL (Http.Scheme u) (Http.UHost u)
           (concatPaths (Http.Path u) (path r))
           (match query r with
            | Some q => Url.Encode q
            | None => Http.RawQuery u
            end)
     ∧ Http.Host (http r1) = Http.Host (http r))
  ∧ (∀ e, WithURL (inr e) r = chain_fail e r).
Proof.
  intros Hf Hwf. split.
  - intros u. unfold WithURL. rewrite Hf.
    set (r0 := set_http (Http.set_url u (http r)) r).
    assert (wf r0) as Hwf0 by done.
    destruct (encodeRequest_total r0 Hwf0) as (r1 & ok & He).
    exists r1, ok. split; [done |].
    rewrite (encodeRequest_url r0 r1 ok Hf He).
    rewrite (encodeRequest_host r0 r1 ok Hwf0 He).
    split; [| done]. unfold encode_url, r0. simpl.
    by destruct (query r) eqn:Hq; simpl; rewrite ?Hq.
  - intros e. unfold WithURL. by rewrite Hf.
Qed.

Lemma WithURL_encoded_witness :
  ∃ r1 ok,
    encodeRequest
      (WithURL (inl (Http.mkURL "https" "api.example.org" "/v1/" "debug=1"))
         query_example) = Ok (r1, ok)
    ∧ Http.url (http r1)
      = Http.mkURL "https" "api.example.org" "/v1/p" "a=1&a=x+y&b=2".
Proof.
  destruct (WithURL_encoded query_example) as [H _].
  - reflexivity.
  - split; intros [x Hx]; discriminate Hx.
  - destruct (H (Http.mkURL "https" "api.example.org" "/v1/" "debug=1"))
      as (r1 & ok & H1 & H2 & _).
    exists r1, ok. split; [exact H1 |]. rewrite H2. vm_compute. reflexivity.
Defined.

(** ** Encoding and parsing a query *)

Lemma lacks_app c a b : lacks c (a +:+ b) = lacks c a && lacks c b.
Proof.
  induction a as [|d a IH]; simpl; [done |]. rewrite IH. by rewrite andb_assoc.
Qed.

Lemma contains_byte c s : contains (String c EmptyString) s = negb (lacks c s).
Proof.
  induction s as [|d s IH]; [done |].
  cbn [contains lacks]. rewrite IH.
  cbn [String.prefix].
  destruct (Ascii.eqb d c) eqn:E; simpl.
  - apply Ascii.eqb_eq in E as ->. destruct (ascii_dec c c); [| done].
    by destruct s.
  - destruct (ascii_dec c d) as [-> |]; [| done].
    by rewrite Ascii.eqb_refl in E.
Qed.

Lemma lacks_QueryEscape c s :
  c = "&"%char ∨ c = ";"%char ∨ c = "="%char →
  lacks c (Url.QueryEscape s) = true.
Proof.
  intros Hc. induction s as [|d s IH]; [done |].
  destruct Hc as [-> | [-> | ->]];
    destruct d as [[] [] [] [] [] [] [] []]; simpl; by rewrite IH.
Qed.

Lemma split_lacks s : lacks "&" s = true → Url.split "&" s = [s].
Proof.
  induction s as [|c s IH]; simpl; [done |].
  intros [Hc Hs]%andb_prop. apply negb_true_iff in Hc. rewrite Hc, IH by done. done.
Qed.

Lemma split_piece a rest :
  lacks "&" a = true →
  Url.split "&" (a +:+ String "&" rest) = a :: Url.split "&" rest.
Proof.
  induction a as [|c a IH]; simpl.
  - done.
  - intros [Hc Hs]%andb_prop. apply negb_true_iff in Hc.
    rewrite ?append_cons. simpl. rewrite Hc, IH by done. done.
Qed.

Lemma split_join (pieces : list string) :
  pieces ≠ [] → Forall (λ p, lacks "&" p = true) pieces →
  Url.split "&" (join "&" pieces) = pieces.
Proof.
  induction pieces as [|p pieces IH]; [done |]. intros _ Hall.
  apply Forall_cons in Hall as [Hp Hall].
  destruct pieces as [|p' pieces].
  - by apply split_lacks.
  - change (join "&" (p :: p' :: pieces))
      with (p +:+ String "&" (join "&" (p' :: pieces))).
    rewrite split_piece by done. f_equal. by apply IH.
Qed.

Lemma cut_eq a b :
  lacks "=" a = true → Url.cut "=" (a +:+ String "=" b) = (a, b).
Proof.
  induction a as [|c a IH]; simpl; [done |].
  intros [Hc Hs]%andb_prop. apply negb_true_iff in Hc.
  rewrite ?append_cons. simpl. rewrite Hc, IH by done. done.
Qed.

Lemma parse_piece_encoded k v m :
  Url.parse_piece (Url.QueryEscape k +:+ "=" +:+ Url.QueryEscape v) (m, None)
  = (Url.Add k v m, None).
Proof.
  unfold Url.parse_piece.
  change ("=" +:+ Url.QueryEscape v) with (String "=" (Url.QueryEscape v)).
  change ";" with (String ";" EmptyString).
  rewrite contains_byte, lacks_app. simpl.
  rewrite !lacks_QueryEscape by auto. simpl.
  rewrite is_empty_append_cons, cut_eq by (apply lacks_QueryEscape; auto).
  by rewrite !QueryUnescape_QueryEscape.
Qed.

Lemma encoded_piece_lacks k v :
  lacks "&" (Url.QueryEscape k +:+ "=" +:+ Url.QueryEscape v) = true.
Proof.
  change ("=" +:+ Url.QueryEscape v) with (String "=" (Url.QueryEscape v)).
  rewrite lacks_app. simpl. by rewrite !lacks_QueryEscape by auto.
Qed.

Lemma parse_key (m : Url.Values) k vs acc :
  ∃ acc',
    fold_left (λ st key, Url.parse_piece key st)
      (map (λ v, Url.QueryEscape k +:+ "=" +:+ Url.QueryEscape v) vs) (acc, None)
    = (acc', None)
    ∧ ∀ k', Url.get_all acc' k'
            = Url.get_all acc k' ++ (if decide (k = k') then vs else []).
Proof.
  revert acc. induction vs as [|v vs IH]; intros acc.
  - exists acc. split; [done |]. intros k'. by destruct (decide _); rewrite app_nil_r.
  - cbn [map fold_left]. rewrite parse_piece_encoded.
    destruct (IH (Url.Add k v acc)) as (acc' & H1 & H2).
    exists acc'. split; [done |]. intros k'. rewrite H2, get_all_Add.
    rewrite <- app_assoc. by destruct (decide (k = k')).
Qed.

Lemma parse_keys (m : Url.Values) keys : ∀ acc,
  NoDup keys →
  ∃ acc',
    fold_left (λ st key, Url.parse_piece key st)
      (concat (map (Url.encode_key m) keys)) (acc, None)
    = (acc', None)
    ∧ ∀ k', Url.get_all acc' k'
            = Url.get_all acc k'
              ++ (if decide (k' ∈ keys) then Url.get_all m k' else []).
Proof.
  induction keys as [|k keys IH]; intros acc Hnd.
  - exists acc. split; [done |]. intros k'. simpl. by rewrite app_nil_r.
  - apply NoDup_cons in Hnd as [Hk Hnd]. cbn [map concat].
    rewrite fold_left_app.
    destruct (parse_key m k (Url.get_all m k) acc) as (acc1 & H1 & H2).
    fold (Url.encode_key m k) in H1. rewrite H1. destruct (IH acc1 Hnd) as (acc' & H3 & H4).
    exists acc'. split; [done |]. intros k'. rewrite H4, H2, <- app_assoc.
    f_equal.
    destruct (decide (k = k')) as [<- | Hne].
    + destruct (decide (k ∈ keys)) as [Hin | _]; [done |].
      destruct (decide (k ∈ k :: keys)) as [_ | Hn]; [by rewrite app_nil_r |].
      exfalso. apply Hn. left.
    + destruct (decide (k' ∈ keys)) as [Hin | Hin];
        destruct (decide (k' ∈ k :: keys)) as [Hin' | Hin']; try done.
      * exfalso. apply Hin'. by right.
      * apply elem_of_cons in Hin' as [-> | Hin']; done.
Qed.

Lemma ParseQuery_Encode (m : Url.Values) :
  ∃ q, Url.ParseQuery (Url.Encode m) = (q, None)
    ∧ ∀ k, Url.get_all q k = Url.get_all m k.
Proof.
  unfold Url.ParseQuery, Url.Encode.
  destruct (sorted_keys_spec m) as (_ & Hnd & Hkeys).
  destruct (parse_keys m (Url.sorted_keys m) ∅ Hnd) as (q & H1 & H2).
  exists q. split.
  - destruct (concat (map (Url.encode_key m) (Url.sorted_keys m))) as [|p ps] eqn:E.
    + simpl in *. done.
    + rewrite split_join; [done | done |].
      rewrite <- E. apply Forall_concat, Forall_map, Forall_forall.
      intros k _. unfold Url.encode_key. apply Forall_map, Forall_forall.
      intros v _. apply encoded_piece_lacks.
  - intros k. rewrite H2. unfold Url.get_all at 1. rewrite lookup_empty. simpl.
    destruct (decide (k ∈ Url.sorted_keys m)) as [Hin | Hin]; [done |].
    unfold Url.get_all. destruct (m !! k) eqn:Hk; [| done].
    exfalso. apply Hin, Hkeys. by eexists.
Qed.

(** X23. The query text that [Encode] makes of a mapping is read back
    by [WithQueryString]. On a request with no failure recorded, the call
    with the encoded text of a mapping records no failure and adds to
    every key the values that the mapping has for it, in their order,
    after the values the key had: it leaves the query values that
    [WithQueryObject] leaves for an object with this mapping. *)
Theorem WithQueryString_reads_Encode (m : Url.Values) (r : Request) :
  Chain.failed (chain r) = false →
  chain (WithQueryString (Url.Encode m) r) = chain r
  ∧ (∀ k, query_values (WithQueryString (Url.Encode m) r) k
          = query_values r k ++ Url.get_all m k)
  ∧ ∀ k, query_values (WithQueryString (Url.Encode m) r) k
         = query_values (WithQueryObject (ObjOther (inl m)) r) k.
Proof.
  intros Hf. unfold WithQueryString, WithQueryObject. rewrite Hf.
  destruct (ParseQuery_Encode m) as (q & -> & Hq).
  split; [done |]. unfold query_values. simpl.
  split; intros k; rewrite !get_all_append_all; by rewrite ?Hq.
Qed.

Lemma WithQueryString_reads_Encode_witness :
  Url.Encode (<["q" := ["a b"; "c&d"]]> (<["n" := ["1"]]> ∅)) = "n=1&q=a+b&q=c%26d"
  ∧ query_values (WithQueryString "n=1&q=a+b&q=c%26d" query_example) "q"
    = ["a b"; "c&d"]
  ∧ query_values (WithQueryString "n=1&q=a+b&q=c%26d" query_example) "a"
    = ["1"; "x y"].
Proof.
  split; [vm_compute; reflexivity |].
  destruct (WithQueryString_reads_Encode
              (<["q" := ["a b"; "c&d"]]> (<["n" := ["1"]]> ∅)) query_example eq_refl)
    as (_ & H & _).
  split.
  - exact (H "q").
  - exact (H "a").
Defined.

(** ** The multipart body *)

Lemma fields_written (fields : list (string * value)) : ∀ r w buf,
  multipart_ready r → multipart r = Some w → formbuf r = Some buf →
  ∃ r1, run (map (λ kv, OpWithFormField kv.1 kv.2) fields) r = Ok r1
    ∧ multipart_ready r1
    ∧ (∃ w1, multipart r1 = Some w1
         ∧ Multipart.boundary w1 = Multipart.boundary w
         ∧ Multipart.closes w1 = Multipart.closes w)
    ∧ formbuf r1
      = Some (buf +:+ form_parts (Multipart.boundary w) (Multipart.lastpart w) fields)
    ∧ chain r1 = chain r
    ∧ body_slot r1 = body_slot r
    ∧ forceType r1 = forceType r.
Proof.
  induction fields as [|[k v] fields IH]; intros r w buf Hready Hw Hb.
  - exists r. simpl. rewrite append_empty_r. do 2 (split; [done |]).
    split; [by exists w |]. done.
  - cbn [map run step fst snd]. unfold WithFormField.
    pose proof Hready as (Hf & _ & _ & Ht). rewrite Hf, Hw.
    rewrite (on_multipart_some _ _ w buf)
      by (by rewrite ?setType_multipart, ?setType_formbuf).
    rewrite bind_Ok.
    set (r0 := setType "WithFormField" "multipart/form-data" false r).
    destruct (setType_multipart_ready "WithFormField" r Hready)
      as (Hf0 & _ & _ & Ht0). fold r0 in Hf0, Ht0.
    destruct (IH
      (set_formbuf (Some (Multipart.WriteField k (Sprint v) w buf).2)
         (set_multipart (Some (Multipart.WriteField k (Sprint v) w buf).1) r0))
      (Multipart.WriteField k (Sprint v) w buf).1
      (Multipart.WriteField k (Sprint v) w buf).2)
      as (r1 & H1 & H2 & (w1 & H3 & H4 & H5) & H6 & H7 & H8 & H9).
    + split; [done |]. split; [by eexists |]. split; [by eexists |]. done.
    + done.
    + done.
    + exists r1. split; [done |]. split; [done |].
      split; [exists w1; split; [done |]; by rewrite H4, H5 |].
      split.
      { rewrite H6. f_equal. unfold Multipart.WriteField, Multipart.CreateFormField,
          Multipart.CreatePart, field_part. simpl.
        unfold field_part.
        destruct (Multipart.lastpart w); by rewrite !append_assoc. }
      split; [rewrite H7; simpl; by apply setType_chain_ok |].
      split; [rewrite H8; apply (setType_body_slot "WithFormField") |].
      rewrite H9. apply setType_forceType.
Qed.

(** X24. The body of a multipart form. On a request as [NewRequest]
    leaves it, after [WithMultipart] and a [WithFormField] call for each
    field, encoding returns and the buffer, which is the body, holds the
    fields in the order of the calls, each after a line with the
    boundary and its header, and then the closing line with the
    boundary; the content length is the length of this text, the
    content type is the multipart one with the boundary, and no failure
    is recorded. *)
Theorem multipart_body (b : string) (fields : list (string * value))
    (r : Request) :
  Chain.failed (chain r) = false →
  multipart r = None → formbuf r = None →
  bodySetter r = EmptyString → forceType r = false →
  Http.Get (header r) "Content-Type" = EmptyString →
  ∃ r1 r2,
    run (OpWithMultipart b :: map (λ kv, OpWithFormField kv.1 kv.2) fields) r
    = Ok r1
    ∧ encodeRequest r1 = Ok (r2, true)
    ∧ formbuf r2 = Some (form_parts b false fields +:+ closing_line b)
    ∧ body_slot r2
      = ("Expect", Some Http.FormBuf,
         len (form_parts b false fields +:+ closing_line b))
    ∧ header r2 !! "Content-Type"
      = Some [Multipart.FormDataContentType (Multipart.NewWriter b)]
    ∧ chain r2 = chain r.
Proof.
  intros Hf Hm Hb Hfree Hforce Ht.
  assert (∃ r0, WithMultipart b r = Ok r0
            ∧ mp_view r0 = (Some (Multipart.NewWriter b), Some EmptyString)
            ∧ multipart_ready r0 ∧ forceType r0 = false ∧ chain r0 = chain r)
    as (r0 & H0 & Hv0 & Hready0 & Hforce0 & Hc0).
  { assert (type_free "multipart/form-data" r) as Hfree' by (right; by left).
    unfold WithMultipart. rewrite Hf, setType_multipart, Hm.
    unfold setBody. simpl. rewrite setType_bodySetter, Hfree. simpl.
    eexists. split; [reflexivity |]. split; [done |].
    split; [| split; [simpl; by rewrite setType_forceType |
                      simpl; by rewrite setType_chain_ok]].
    split; [simpl; by rewrite setType_chain_ok |].
    split; [by eexists |]. split; [by eexists |].
    by apply (setType_type_free "WithMultipart"). }
  cbn [run step]. rewrite H0, bind_Ok.
  unfold mp_view in Hv0. injection Hv0 as Hw0 Hb0.
  destruct (fields_written fields r0 _ _ Hready0 Hw0 Hb0)
    as (r1 & H1 & H2 & (w1 & H3 & H4 & H5) & H6 & H7 & H8 & H9).
  exists r1. rewrite append_nil in H6. simpl in H4, H6.
  pose proof H2 as (Hf1 & _ & _ & _).
  rewrite (encodeRequest_multipart r1 w1 _ Hf1 H3 H6).
  eexists. split; [done |]. split; [reflexivity |].
  destruct (encode_multipart_spec w1 (form_parts b false fields) (encode_url r1))
    as (_ & E2 & E3 & E4 & E5 & E6 & _ & _ & E7 & _).
  assert ((Multipart.Close w1 (form_parts b false fields)).2
          = form_parts b false fields +:+ closing_line b) as Hclose.
  { unfold Multipart.Close, closing_line. simpl. by rewrite H4. }
  rewrite Hclose in E2, E3.
  destruct (encode_url_frame r1) as (F1 & _ & _ & _ & _ & _ & _ & _ & F2 & _).
  split; [done |]. split; [unfold body_slot; by rewrite E3, E4, E5 |].
  split.
  - destruct E7 as [E7 _]; [by rewrite F2, H9, Hforce0 |].
    rewrite E7. do 2 f_equal. unfold Multipart.FormDataContentType. by rewrite H4.
  - by rewrite E6, F1, H7, Hc0.
Qed.

Lemma multipart_body_witness :
  ∃ r1 r2,
    run [OpWithMultipart "xyz"; OpWithFormField "a" (VInt 1);
         OpWithFormField "b" (VString "two")] fresh_example = Ok r1
    ∧ encodeRequest r1 = Ok (r2, true)
    ∧ formbuf r2
      = Some ("--xyz" +:+ crlf
              +:+ "Content-Disposition: form-data; name=" +:+ dq +:+ "a" +:+ dq +:+ crlf
              +:+ crlf +:+ "1" +:+ crlf
              +:+ "--xyz" +:+ crlf
              +:+ "Content-Disposition: form-data; name=" +:+ dq +:+ "b" +:+ dq +:+ crlf
              +:+ crlf +:+ "two" +:+ crlf
              +:+ "--xyz--" +:+ crlf).
Proof.
  destruct (multipart_body "xyz" [("a", VInt 1); ("b", VString "two")] fresh_example)
    as (r1 & r2 & H1 & H2 & H3 & _); try reflexivity.
  exists r1, r2. split; [exact H1 |]. split; [exact H2 |].
  rewrite H3. vm_compute. reflexivity.
Defined.

(** ** Header maps *)

Lemma WithHeader_commute k1 v1 k2 v2 r :
  Http.CanonicalHeaderKey k1 ≠ Http.CanonicalHeaderKey k2 →
  WithHeader k1 v1 (WithHeader k2 v2 r) = WithHeader k2 v2 (WithHeader k1 v1 r).
Proof.
  intros Hne. unfold WithHeader.
  destruct (Chain.failed (chain r)) eqn:Hf; [by rewrite Hf |].
  unfold set_header, header, Http.Add.
  set (c1 := Http.CanonicalHeaderKey k1) in *.
  set (c2 := Http.CanonicalHeaderKey k2) in *.
  destruct (String.eqb c1 "Host") eqn:E1h;
    destruct (String.eqb c1 "Content-Type") eqn:E1c;
    destruct (String.eqb c2 "Host") eqn:E2h;
    destruct (String.eqb c2 "Content-Type") eqn:E2c;
    destruct (forceType r) eqn:Hforce;
    simpl; rewrite ?Hf, ?Hforce; simpl;
    rewrite ?E1h, ?E1c, ?E2h, ?E2c; simpl;
    try apply String.eqb_eq in E1h; try apply String.eqb_eq in E1c;
    try apply String.eqb_eq in E2h; try apply String.eqb_eq in E2c;
    try congruence; try done.
  all: unfold set_http, Http.set_header; simpl; do 2 f_equal.
  all: rewrite ?lookup_insert_ne, ?lookup_delete_ne by congruence.
  all: try (rewrite insert_insert_ne by congruence; done).
  all: subst c1 c2; rewrite ?E1c, ?E2c in *.
  all: rewrite ?lookup_delete_eq, ?lookup_insert_ne, ?lookup_delete_ne by congruence.
  - rewrite delete_insert_ne by congruence.
    by rewrite insert_insert_ne by congruence.
  - rewrite delete_insert_ne by congruence.
    by rewrite insert_insert_ne by congruence.
Qed.

Lemma WithHeader_lookup_ne k v r c :
  c ≠ Http.CanonicalHeaderKey k →
  header (WithHeader k v r) !! c = header r !! c.
Proof.
  intros Hne. unfold WithHeader.
  destruct (Chain.failed (chain r)); [done |].
  destruct (String.eqb _ "Host"); [done |].
  destruct (String.eqb _ "Content-Type") eqn:E.
  - apply String.eqb_eq in E. unfold set_header, header, Http.Add. simpl.
    rewrite lookup_insert_ne by done.
    destruct (forceType r); simpl; [done |].
    rewrite lookup_delete_ne by congruence. done.
  - unfold set_header, header, Http.Add. simpl. by rewrite lookup_insert_ne.
Qed.

Lemma WithHeader_chain k v r : chain (WithHeader k v r) = chain r.
Proof. unfold_calls. by break_calls. Qed.

Lemma foldl_WithHeader_perm (hs hs' : list (string * string)) :
  hs ≡ₚ hs' → NoDup (Http.CanonicalHeaderKey <$> hs.*1) →
  ∀ r, foldl (λ r kv, WithHeader kv.1 kv.2 r) r hs
       = foldl (λ r kv, WithHeader kv.1 kv.2 r) r hs'.
Proof.
  induction 1 as [| x l l' Hp IH | x y l | l l' l'' H1 IH1 H2 IH2];
    simpl; intros Hnd r.
  - done.
  - apply NoDup_cons in Hnd as [_ Hnd]. by apply IH.
  - f_equal. apply WithHeader_commute.
    apply NoDup_cons in Hnd as [Hnd _]. intros E. apply Hnd. rewrite E. left.
  - rewrite IH1 by done. apply IH2. by rewrite <- H1.
Qed.

Lemma foldl_WithHeader_lookup_ne (hs : list (string * string)) c : ∀ r,
  c ∉ Http.CanonicalHeaderKey <$> hs.*1 →
  header (foldl (λ r kv, WithHeader kv.1 kv.2 r) r hs) !! c = header r !! c.
Proof.
  induction hs as [|[k v] hs IH]; intros r Hc; simpl; [done |].
  simpl in Hc. apply not_elem_of_cons in Hc as [Hne Hc].
  rewrite IH by done. by apply WithHeader_lookup_ne.
Qed.

(** X25. The order in which the entries of the map are visited does not
    matter to [WithHeaders] when no two keys have the same canonical
    form: the request that results is the same for every order. On a
    request with no failure recorded no failure is recorded, every key
    that is neither Host nor Content-Type in canonical form has its
    value added after the values that the canonical key had, and the
    keys that the map does not name keep their values. *)
Theorem WithHeaders_any_order (hs : list (string * string)) (r : Request) :
  NoDup (Http.CanonicalHeaderKey <$> hs.*1) →
  (∀ hs', hs' ≡ₚ hs → WithHeaders hs' r = WithHeaders hs r)
  ∧ chain (WithHeaders hs r) = chain r
  ∧ (Chain.failed (chain r) = false →
     (∀ k v, (k, v) ∈ hs →
        Http.CanonicalHeaderKey k ≠ "Host" →
        Http.CanonicalHeaderKey k ≠ "Content-Type" →
        header (WithHeaders hs r) !! Http.CanonicalHeaderKey k
        = Some (default [] (header r !! Http.CanonicalHeaderKey k) ++ [v]))
     ∧ (∀ c, c ∉ Http.CanonicalHeaderKey <$> hs.*1 →
             header (WithHeaders hs r) !! c = header r !! c)).
Proof.
  intros Hnd. unfold WithHeaders.
  destruct (Chain.failed (chain r)) eqn:Hf.
  { split; [done |]. split; [done |]. done. }
  split; [| split].
  - intros hs' Hp. symmetry. by apply foldl_WithHeader_perm.
  - apply (foldl_preserves (λ r', chain r' = chain r)); [| done].
    intros r' kv Hr'. by rewrite WithHeader_chain.
  - intros _. split; [| intros c Hc; by apply foldl_WithHeader_lookup_ne].
    intros k v Hin Hhost Hct.
    apply list_elem_of_split in Hin as (l1 & l2 & ->).
    assert ((l1 ++ (k, v) :: l2) ≡ₚ (l1 ++ l2) ++ [(k, v)]) as Hp.
    { rewrite <- app_assoc. apply Permutation_app_head.
      by rewrite <- Permutation_cons_append. }
    rewrite (foldl_WithHeader_perm _ _ Hp Hnd), foldl_app. simpl.
    assert (Http.CanonicalHeaderKey k
            ∉ Http.CanonicalHeaderKey <$> (l1 ++ l2).*1) as Hfresh.
    { rewrite Hp in Hnd. rewrite !fmap_app in Hnd. simpl in Hnd.
      apply NoDup_app in Hnd as (_ & Hnd & _).
      intros Hin. rewrite !fmap_app in Hin. apply (Hnd _ Hin). left. }
    set (r1 := foldl (λ r kv, WithHeader kv.1 kv.2 r) r (l1 ++ l2)).
    assert (Chain.failed (chain r1) = false) as Hf1.
    { unfold r1. apply (foldl_preserves (λ r', Chain.failed (chain r') = false));
        [| done]. intros r' kv Hr'. by rewrite WithHeader_chain. }
    assert (header r1 !! Http.CanonicalHeaderKey k
            = header r !! Http.CanonicalHeaderKey k) as <-
      by (by apply foldl_WithHeader_lookup_ne).
    unfold WithHeader. rewrite Hf1.
    apply String.eqb_neq in Hhost, Hct. rewrite Hhost, Hct.
    unfold set_header, header, Http.Add. simpl. by rewrite lookup_insert_eq.
Qed.

Lemma WithHeaders_any_order_witness :
  WithHeaders [("accept", "*/*"); ("x-trace", "1")] fresh_example
  = WithHeaders [("x-trace", "1"); ("accept", "*/*")] fresh_example
  ∧ header (WithHeaders [("x-trace", "1"); ("accept", "*/*")] fresh_example)
    !! "Accept" = Some ["*/*"].
Proof.
  destruct (WithHeaders_any_order [("x-trace", "1"); ("accept", "*/*")] fresh_example)
    as (H1 & _ & H2).
  - apply (bool_decide_unpack _). vm_compute. exact I.
  - split; [apply H1, perm_swap |].
    destruct (H2 eq_refl) as [H3 _].
    apply (H3 "accept" "*/*").
    + right. left.
    + vm_compute. discriminate.
    + vm_compute. discriminate.
Defined.

(** ** The client shared between requests *)



(** ** Several cookies *)

Lemma WithCookie_step k v r :
  Chain.failed (chain r) = false →
  Chain.failed (chain (WithCookie k v r)) = false
  ∧ Http.Get (header (WithCookie k v r)) "Cookie"
    = (if is_empty (Http.Get (header r) "Cookie") then cookie_pair (k, v)
       else Http.Get (header r) "Cookie" +:+ "; " +:+ cookie_pair (k, v))
  ∧ ∀ k', k' ≠ "Cookie" → header (WithCookie k v r) !! k' = header r !! k'.
Proof.
  intros Hf. unfold WithCookie, AddCookie. rewrite Hf.
  split; [done |]. unfold header, set_header, Http.Set_, cookie_pair. simpl.
  change (Http.CanonicalHeaderKey "Cookie") with "Cookie".
  destruct (is_empty (Http.Get (Http.header (http r)) "Cookie")); simpl.
  - split; [| intros k' Hk'; by rewrite lookup_insert_ne].
    unfold Http.Get. change (Http.CanonicalHeaderKey "Cookie") with "Cookie".
    by rewrite lookup_insert_eq.
  - split; [| intros k' Hk'; by rewrite lookup_insert_ne].
    unfold Http.Get at 1. change (Http.CanonicalHeaderKey "Cookie") with "Cookie".
    by rewrite lookup_insert_eq.
Qed.

Lemma foldl_WithCookie (cs : list (string * string)) : ∀ r,
  Chain.failed (chain r) = false →
  is_empty (Http.Get (header r) "Cookie") = false →
  Chain.failed (chain (foldl (λ r kv, WithCookie kv.1 kv.2 r) r cs)) = false
  ∧ Http.Get (header (foldl (λ r kv, WithCookie kv.1 kv.2 r) r cs)) "Cookie"
    = Http.Get (header r) "Cookie"
      +:+ more_cookies (map cookie_pair cs)
  ∧ ∀ k', k' ≠ "Cookie" →
          header (foldl (λ r kv, WithCookie kv.1 kv.2 r) r cs) !! k'
          = header r !! k'.
Proof.
  induction cs as [|[k v] cs IH]; intros r Hf Hc.
  - simpl. by rewrite append_empty_r.
  - cbn [foldl fst snd map].
    destruct (WithCookie_step k v r Hf) as (Hf1 & Hg1 & Hk1). rewrite Hc in Hg1.
    destruct (IH (WithCookie k v r) Hf1) as (Hf2 & Hg2 & Hk2).
    { rewrite Hg1.
      change ("; " +:+ cookie_pair (k, v))
        with (String ";" (" " +:+ cookie_pair (k, v))).
      apply is_empty_append_cons. }
    split; [done |]. split.
    + rewrite Hg2, Hg1. unfold more_cookies. simpl. by rewrite !append_assoc.
    + intros k' Hk'. by rewrite Hk2, Hk1.
Qed.

Lemma join_more (x : string) (xs : list string) :
  join "; " (x :: xs) = x +:+ more_cookies xs.
Proof.
  revert x. induction xs as [|y xs IH]; intros x.
  - simpl. by rewrite append_empty_r.
  - change (join "; " (x :: y :: xs)) with (x +:+ "; " +:+ join "; " (y :: xs)).
    rewrite IH. reflexivity.
Qed.

(** X27. On a request with no failure recorded and no cookie yet,
    [WithCookies] leaves one Cookie header whose value is the cookies in
    the order in which the entries were visited, each as name, equals
    sign and value, joined by a semicolon and a space; when the header
    had cookies, the new ones come after them. The other headers are as
    before and no failure is recorded. *)
Theorem WithCookies_joined (cs : list (string * string)) (r : Request) :
  Chain.failed (chain r) = false →
  cs ≠ [] →
  Http.Get (header (WithCookies cs r)) "Cookie"
  = (if is_empty (Http.Get (header r) "Cookie")
     then join "; " (map cookie_pair cs)
     else join "; " (Http.Get (header r) "Cookie" :: map cookie_pair cs))
  ∧ (∀ k', k' ≠ "Cookie" → header (WithCookies cs r) !! k' = header r !! k')
  ∧ chain (WithCookies cs r) = chain r.
Proof.
  intros Hf Hcs. unfold WithCookies. rewrite Hf.
  split; [| split].
  - destruct (is_empty (Http.Get (header r) "Cookie")) eqn:Hc.
    + destruct cs as [|[k v] cs]; [done |]. cbn [foldl fst snd map].
      destruct (WithCookie_step k v r Hf) as (Hf1 & Hg1 & _). rewrite Hc in Hg1.
      destruct (foldl_WithCookie cs (WithCookie k v r) Hf1) as (_ & Hg2 & _).
      { rewrite Hg1. unfold cookie_pair. simpl.
        change ("=" +:+ Enc.sanitizeCookieValue v)
          with (String "=" (Enc.sanitizeCookieValue v)).
        apply is_empty_append_cons. }
      by rewrite Hg2, Hg1, join_more.
    + destruct (foldl_WithCookie cs r Hf Hc) as (_ & Hg & _).
      by rewrite Hg, join_more.
  - intros k' Hk'.
    destruct (is_empty (Http.Get (header r) "Cookie")) eqn:Hc.
    + destruct cs as [|[k v] cs]; [done |]. cbn [foldl fst snd].
      destruct (WithCookie_step k v r Hf) as (Hf1 & Hg1 & Hk1). rewrite Hc in Hg1.
      destruct (foldl_WithCookie cs (WithCookie k v r) Hf1) as (_ & _ & Hk2).
      { rewrite Hg1. unfold cookie_pair. simpl.
        change ("=" +:+ Enc.sanitizeCookieValue v)
          with (String "=" (Enc.sanitizeCookieValue v)).
        apply is_empty_append_cons. }
      by rewrite Hk2, Hk1.
    + destruct (foldl_WithCookie cs r Hf Hc) as (_ & _ & Hk). by apply Hk.
  - apply (foldl_preserves (λ r', chain r' = chain r)); [| done].
    intros r' kv Hr'. rewrite <- Hr'. unfold_calls. by break_calls.
Qed.

Lemma WithCookies_joined_witness :
  Http.Get (header (WithCookies [("foo", "aa"); ("bar", "bb")] fresh_example)) "Cookie"
  = "foo=aa; bar=bb".
Proof.
  destruct (WithCookies_joined [("foo", "aa"); ("bar", "bb")] fresh_example)
    as (H & _); [reflexivity | discriminate |].
  rewrite H. vm_compute. reflexivity.
Defined.

(** ** The dialer that is asked *)

(** X28. With the upgrade enabled, on a request with no failure
    recorded, no body and no form, after [WithWebsocketDialer] with a
    dialer the round trip asks that dialer, once. When the dialer
    returns a response without an error, or with the error of a rejected
    handshake, the round trip returns that response with the connection
    that the dialer returned, and no failure is recorded; without a
    response it returns none. A nil dialer records a failure and leaves
    the configuration as it is. *)
Theorem dialer_asked (d : WebsocketDialer) (r : Request) :
  Chain.failed (chain r) = false →
  wsUpgrade r = true →
  bodySetter r = EmptyString → multipart r = None → form r = None →
  let u := Http.set_scheme (ws_scheme (Http.url (http (encode_url r))))
             (Http.url (http (encode_url r))) in
  (∃ r' resp tail,
     roundTrip (WithWebsocketDialer (Some d) r)
     = Ok (r', resp,
           map (λ p, EvPrinterRequest p (Http.set_url u (http (encode_url r))))
             (Printers (config r))
           ++ EvDial u (header r) :: tail)
     ∧ match Dial d u (header r) with
       | (conn, Some hr, None) | (conn, Some hr, Some ErrBadHandshake) =>
           chain r' = chain r
           ∧ ∃ cfg, resp = Some (makeResponse cfg (chain r) (Some hr) conn)
       | (_, None, None) | (_, None, Some ErrBadHandshake) =>
           chain r' = chain r ∧ resp = None
       | (_, _, Some (OtherDialError text)) =>
           chain r' = Chain.mk true (Some text) ∧ resp = None
       end)
  ∧ config (WithWebsocketDialer None r) = config r
  ∧ Chain.failed (chain (WithWebsocketDialer None r)) = true.
Proof.
  intros Hf Hws Hb Hm Hform u.
  split; [| unfold WithWebsocketDialer; rewrite Hf; split;
            [done | apply chain_fail_failed]].
  unfold WithWebsocketDialer. rewrite Hf.
  set (r0 := set_config (set_WebsocketDialer (Some d) (config r)) r).
  assert (Chain.failed (chain r0) = false) as Hf0 by done.
  assert (bodySetter r0 = EmptyString) as Hb0 by done.
  assert (header r0 = header r) as Hhd0 by done.
  assert (chain r0 = chain r) as Hch0 by done.
  destruct (encode_url_frame r0)
    as (E1 & E2 & _ & _ & _ & _ & E3 & _ & _ & E4 & E5 & _).
  pose proof (encodeRequest_plain r0 Hf Hm Hform) as He.
  assert (encodeWebsocketRequest (encode_url r0)
          = (set_url_of (Http.set_scheme (ws_scheme (Http.url (http (encode_url r0)))))
               (encode_url r0), true)) as Hw.
  { unfold encodeWebsocketRequest. by rewrite E1, Hf0, E3, Hb0. }
  set (r2 := set_url_of (Http.set_scheme (ws_scheme (Http.url (http (encode_url r0)))))
               (encode_url r0)) in *.
  assert (http (encode_url r0) = http (encode_url r)) as Hh0.
  { unfold encode_url, r0. simpl. by destruct (query r). }
  assert (Http.url (http r2) = u) as Hu2 by (unfold r2, u; simpl; by rewrite Hh0).
  assert (header r2 = header r) as Hh2 by (by rewrite <- Hhd0, <- E5).
  assert (http r2 = Http.set_url u (http (encode_url r))) as Hhttp
    by (unfold r2, u; simpl; by rewrite Hh0).
  assert (config r2 = config r0) as Hc2 by (by rewrite <- E2).
  assert (chain r2 = chain r) as Hch2 by (by rewrite <- Hch0, <- E1).
  assert (sendWebsocketRequest r2
          = match Dial d u (header r) with
            | (conn, resp, Some (OtherDialError text)) =>
                Ok (chain_fail text r2, (None, None), [EvDial u (header r)])
            | (conn, resp, _) => Ok (r2, (resp, conn), [EvDial u (header r)])
            end) as Hs.
  { unfold sendWebsocketRequest.
    assert (Chain.failed (chain r2) = false) as -> by (by rewrite Hch2).
    rewrite Hc2, Hu2, Hh2. simpl.
    destruct (Dial d u (header r)) as [[conn resp] err].
    by destruct err as [[| text] |]. }
  destruct (Dial d u (header r)) as [[conn resp] err].
  destruct err as [[| text] |].
  - rewrite (roundTrip_websocket_sent r0 (encode_url r0) r2 r2 resp conn
               [EvDial u (header r)] He); [| by rewrite E4 | done | done].
    do 3 eexists. split; [rewrite Hc2, Hhttp; reflexivity |].
    rewrite !Hch2. destruct resp; simpl; [split; [done | by eexists] | done].
  - rewrite (roundTrip_websocket_sent r0 (encode_url r0) r2 (chain_fail text r2)
               None None [EvDial u (header r)] He); [| by rewrite E4 | done | done].
    do 3 eexists. split; [rewrite Hc2, Hhttp; reflexivity |].
    change (chain (chain_fail text r2)) with (Chain.fail text (chain r2)).
    rewrite Hch2, (Chain_fail_fresh _ _ Hf). by destruct resp.
  - rewrite (roundTrip_websocket_sent r0 (encode_url r0) r2 r2 resp conn
               [EvDial u (header r)] He); [| by rewrite E4 | done | done].
    do 3 eexists. split; [rewrite Hc2, Hhttp; reflexivity |].
    rewrite !Hch2. destruct resp; simpl; [split; [done | by eexists] | done].
Qed.

Lemma dialer_asked_witness :
  ∃ r' resp ev,
    roundTrip
      (WithWebsocketDialer
         (Some (mkDialer (λ _ _, (Some (mkConn 1), Some (Http.mkResponse 101 ∅ EmptyString),
                                  None))))
         secure_upgrade_example) = Ok (r', resp, ev)
    ∧ chain r' = makeChain
    ∧ (websocket <$> resp) = Some (Some (mkConn 1)).
Proof.
  destruct (dialer_asked
              (mkDialer (λ _ _, (Some (mkConn 1),
                                 Some (Http.mkResponse 101 ∅ EmptyString), None)))
              secure_upgrade_example) as [(r' & resp & tail & H1 & H2 & cfg & H3) _];
    try reflexivity.
  exists r', resp. eexists. split; [exact H1 |]. split; [exact H2 |].
  rewrite H3. reflexivity.
Defined.
